(** * Smart surveillance system: zone index, alert gate, queues and timing

    A shallow embedding of the Python sources

    - [utils/zone_manager.py]        ([ZoneManager])
    - [utils/alert_manager.py]       ([AlertManager.send_alert])
    - [utils/performance_monitor.py] ([PerformanceMonitor])
    - [src/intruder_detection.py]    (queue offers, [process_results],
                                      [capture_frames], [handle_output])
    - [utils/config_loader.py]       ([load_config], [update_config])
    - [scripts/configure_zones.py]   (the mouse callbacks of the drawing tool)

    Conventions.  Pixel coordinates are integers ([Z]): the detection point
    is built from [int] values, and the zone lists of the shipped
    configuration hold integers.  Clock readings ([time.time()]) and
    durations are rationals ([Q]); where a statement depends on the
    value of a floating-point computation (the mean of a window of
    samples), the computation is carried out on IEEE binary64 numbers
    ([PrimFloat]).  A Python [dict] is an association list in insertion
    order with unique keys.  File paths are built as [pathlib] builds
    them on a POSIX host.  Object state is passed explicitly: an
    operation takes the state and returns its result together with the
    new state.  What the host does (the clock, a camera read, whether a
    write or a thread start raises) is an input of the operation; an
    exception that the code does not catch is a result of its own, and
    ends the thread that runs the operation. *)

From Stdlib Require Import List String ZArith QArith Bool Arith Lia Lqa.
From Stdlib Require Import PrimFloat.
Import ListNotations.

Set Warnings "-inexact-float".

(* ------------------------------------------------------------------ *)
(** ** Python dictionaries (insertion ordered) *)

Module Dict.
Section WithValue.
Variable V : Type.

Definition dict := list (string * V).

(** [d.get(k)] *)
Fixpoint get (k : string) (d : dict) : option V :=
  match d with
  | [] => None
  | (k', v) :: d' => if String.eqb k k' then Some v else get k d'
  end.

(** [k in d] *)
Definition mem (k : string) (d : dict) : bool :=
  match get k d with Some _ => true | None => false end.

(** [d[k] = v]: an existing key keeps its position, a new key goes last. *)
Fixpoint set (k : string) (v : V) (d : dict) : dict :=
  match d with
  | [] => [(k, v)]
  | (k', v') :: d' =>
      if String.eqb k k' then (k, v) :: d' else (k', v') :: set k v d'
  end.

(** [d[k][field] = ...]: the value stored under [k] is changed in place. *)
Fixpoint adjust (f : V -> V) (k : string) (d : dict) : dict :=
  match d with
  | [] => []
  | (k', v') :: d' =>
      if String.eqb k k' then (k', f v') :: d' else (k', v') :: adjust f k d'
  end.

(** [del d[k]] *)
Fixpoint del (k : string) (d : dict) : dict :=
  match d with
  | [] => []
  | (k', v') :: d' =>
      if String.eqb k k' then d' else (k', v') :: del k d'
  end.

Definition keys (d : dict) : list string := map fst d.

(** Every stored value satisfies [P]. *)
Definition all_values (P : V -> Prop) (d : dict) : Prop :=
  Forall (fun kv => P (snd kv)) d.

End WithValue.

Arguments get {V} k d.
Arguments mem {V} k d.
Arguments set {V} k v d.
Arguments adjust {V} f k d.
Arguments del {V} k d.
Arguments keys {V} d.
Arguments all_values {V} P d.
End Dict.

(* ------------------------------------------------------------------ *)
(** ** Geometry (the part of shapely the program uses) *)

Module Geometry.

(** [Point(x, y)] *)
Definition Point := (Z * Z)%type.

(** [Polygon(points)]: the polygon object keeps its own copy of the
    vertex list. *)
Record Polygon := mkPolygon { exterior : list Point }.

(** Edges of the ring, closed back to the first vertex. *)
Definition ring_edges (vs : list Point) : list (Point * Point) :=
  match vs with
  | [] => []
  | v0 :: rest => combine vs (rest ++ [v0])
  end.

Definition on_segment (a b p : Point) : bool :=
  let '(ax, ay) := a in
  let '(bx, by_) := b in
  let '(px, py) := p in
  ((bx - ax) * (py - ay) - (by_ - ay) * (px - ax) =? 0)%Z
  && (Z.min ax bx <=? px)%Z && (px <=? Z.max ax bx)%Z
  && (Z.min ay by_ <=? py)%Z && (py <=? Z.max ay by_)%Z.

(** The horizontal ray from [p] towards larger [x] meets the edge [a b]. *)
Definition ray_crosses (a b p : Point) : bool :=
  let '(ax, ay) := a in
  let '(bx, by_) := b in
  let '(px, py) := p in
  negb (Bool.eqb (py <? ay)%Z (py <? by_)%Z)
  && (if (ay <? by_)%Z
      then ((px - ax) * (by_ - ay) <? (py - ay) * (bx - ax))%Z
      else ((py - ay) * (bx - ax) <? (px - ax) * (by_ - ay))%Z).

(** Model of shapely's [Polygon.contains(Point)] (shapely is an external
    library): the point lies in the interior of the polygon, the boundary
    excluded; the interior is decided by the even-odd rule, exactly, on
    integer coordinates. *)
Definition polygon_contains (poly : Polygon) (p : Point) : bool :=
  let edges := ring_edges (exterior poly) in
  negb (existsb (fun e => on_segment (fst e) (snd e) p) edges)
  && Nat.odd (List.length (filter (fun e => ray_crosses (fst e) (snd e) p) edges)).

End Geometry.

(* ------------------------------------------------------------------ *)
(** ** utils/zone_manager.py *)

Module ZoneManager.
Import Geometry.

Definition Color := (Z * Z * Z)%type.

(** A value of [self.zones]. *)
Record Zone := mkZone {
  name : string;
  polygon : Polygon;
  points : list Point;
  color : Color;
  alert_enabled : bool
}.

(** A value of [zones_config]; every key may be absent. *)
Record ZoneConfig := mkZoneConfig {
  cfg_name : option string;
  cfg_points : option (list Point);
  cfg_color : option Color;
  cfg_alert_enabled : option bool
}.

Definition Zones := Dict.dict Zone.

Definition set_points (pts : list Point) (z : Zone) : Zone :=
  mkZone (name z) (polygon z) pts (color z) (alert_enabled z).
Definition set_polygon (poly : Polygon) (z : Zone) : Zone :=
  mkZone (name z) poly (points z) (color z) (alert_enabled z).
Definition set_alert_enabled (b : bool) (z : Zone) : Zone :=
  mkZone (name z) (polygon z) (points z) (color z) b.
Definition set_color (c : Color) (z : Zone) : Zone :=
  mkZone (name z) (polygon z) (points z) c (alert_enabled z).

Definition get_default {A} (o : option A) (d : A) : A :=
  match o with Some a => a | None => d end.

(** [load_zones]: the loop over [zones_config.items()]. *)
Fixpoint load_zones (zones_config : list (string * ZoneConfig))
         (zones : Zones) : Zones :=
  match zones_config with
  | [] => zones
  | (zone_id, zone_data) :: rest =>
      let pts := get_default (cfg_points zone_data) [] in
      if (List.length pts <? 3)%nat then load_zones rest zones
      else
        let poly := mkPolygon pts in
        let col := get_default (cfg_color zone_data) (0, 0, 255)%Z in
        load_zones rest
          (Dict.set zone_id
             (mkZone (get_default (cfg_name zone_data) zone_id) poly pts col
                     (get_default (cfg_alert_enabled zone_data) true))
             zones)
  end.

(** [ZoneManager.__init__] *)
Definition init (zones_config : list (string * ZoneConfig)) : Zones :=
  load_zones zones_config [].

Section Locate.
(** [polygon.contains(point)] of the geometry library. *)
Variable contains : Polygon -> Point -> bool.

(** [check_point_in_zones]: the loop over [self.zones.items()]. *)
Fixpoint check_point_in_zones (zones : Zones) (point : Point)
    : option string :=
    match zones with
    | [] => None
    | (zone_id, zone_data) :: rest =>
        if negb (alert_enabled zone_data) then check_point_in_zones rest point
        else if contains (polygon zone_data) point then Some zone_id
        else check_point_in_zones rest point
    end.

(** No alert-enabled zone of the table contains the point. *)
Definition no_match (zs : Zones) (pt : Point) : Prop :=
  forall k z, In (k, z) zs -> alert_enabled z = true ->
            contains (polygon z) pt = false.
End Locate.

(** [update_zone]; [None] is Python's [None] default of an argument. *)
Definition update_zone (zone_id : string) (pts : option (list Point))
           (enabled : option bool) (col : option Color) (zones : Zones)
  : bool * Zones :=
  if negb (Dict.mem zone_id zones) then (false, zones)
  else
    let zones1 :=
      match pts with
      | Some p =>
          if (3 <=? List.length p)%nat
          then Dict.adjust (set_polygon (mkPolygon p)) zone_id
                 (Dict.adjust (set_points p) zone_id zones)
          else zones
      | None => zones
      end in
    let zones2 :=
      match enabled with
      | Some b => Dict.adjust (set_alert_enabled b) zone_id zones1
      | None => zones1
      end in
    let zones3 :=
      match col with
      | Some c => Dict.adjust (set_color c) zone_id zones2
      | None => zones2
      end in
    (true, zones3).

(** [add_zone] *)
Definition add_zone (zone_id : string) (nm : string) (pts : list Point)
           (col : Color) (enabled : bool) (zones : Zones) : bool * Zones :=
  if Dict.mem zone_id zones || (List.length pts <? 3)%nat then (false, zones)
  else
    let poly := mkPolygon pts in
    (true, Dict.set zone_id (mkZone nm poly pts col enabled) zones).

(** [remove_zone] *)
Definition remove_zone (zone_id : string) (zones : Zones) : bool * Zones :=
  if negb (Dict.mem zone_id zones) then (false, zones)
  else (true, Dict.del zone_id zones).

(** A zone as the table may hold it: at least three vertices, in the
    point list and in the polygon. *)
Definition well_formed (z : Zone) : Prop :=
  (3 <= List.length (points z))%nat /\
  (3 <= List.length (exterior (polygon z)))%nat.

Definition zones_ok (zones : Zones) : Prop := Dict.all_values well_formed zones.

(** The square of the containment example and a configuration holding it. *)
Definition square : list Point := [(0, 0); (0, 10); (10, 10); (10, 0)]%Z.

Definition square_config (flag : option bool) : list (string * ZoneConfig) :=
  [("z1"%string, mkZoneConfig (Some "Z"%string) (Some square) None flag)].

(** The table of the CRUD example: [add_zone("z1", "Z", small_triangle)]
    on an empty table; [large_triangle] is the later update. *)
Definition small_triangle : list Point := [(0, 0); (0, 10); (10, 10)]%Z.
Definition large_triangle : list Point := [(0, 0); (0, 20); (20, 20)]%Z.
Definition two_points : list Point := [(0, 0); (0, 20)]%Z.

Definition triangle_zones : Zones :=
  snd (add_zone "z1" "Z" small_triangle (0, 0, 255)%Z true []).

End ZoneManager.

(* ------------------------------------------------------------------ *)
(** ** queue.Queue, as the pipeline uses it *)

Module BoundedQueue.
Section WithItem.
Variable A : Type.

(** [queue.Queue(maxsize)]; a [maxsize] of zero or less means no bound. *)
Record Queue := mkQueue { maxsize : Z; items : list A }.

Definition new (n : Z) : Queue := mkQueue n [].

Definition qsize (q : Queue) : nat := List.length (items q).

(** [q.put(item, block=False)]: [None] stands for the exception
    [queue.Full], raised at once when the queue is bounded and full. *)
Definition put_nowait (item : A) (q : Queue) : option Queue :=
  if (0 <? maxsize q)%Z && (maxsize q <=? Z.of_nat (qsize q))%Z then None
  else Some (mkQueue (maxsize q) (items q ++ [item])).

(** [try: q.put(item, block=False)  except queue.Full: pass] *)
Definition put_or_drop (item : A) (q : Queue) : Queue :=
  match put_nowait item q with
  | Some q' => q'
  | None => q
  end.

(** A producer offering a run of items while no consumer takes any. *)
Definition offer_all (xs : list A) (q : Queue) : Queue :=
  fold_left (fun acc x => put_or_drop x acc) xs q.

End WithItem.

Arguments mkQueue {A} maxsize items.
Arguments maxsize {A} q.
Arguments items {A} q.
Arguments qsize {A} q.
Arguments put_nowait {A} item q.
Arguments put_or_drop {A} item q.
Arguments offer_all {A} xs q.
End BoundedQueue.

(* ------------------------------------------------------------------ *)
(** ** utils/performance_monitor.py *)

Module PerformanceMonitor.

(** [collections.deque(maxlen=n)] *)
Record deque (A : Type) := mkDeque { maxlen : nat; elems : list A }.

Arguments mkDeque {A} _ _.
Arguments maxlen {A} _.
Arguments elems {A} _.

Definition deque_new {A : Type} (n : nat) : deque A := mkDeque n [].

(** [d.append(x)]: the item goes to the right end; when the length then
    exceeds [maxlen], one item is taken off the left end. *)
Definition deque_append {A : Type} (x : A) (d : deque A) : deque A :=
  let l := elems d ++ [x] in
  mkDeque (maxlen d) (if (maxlen d <? List.length l)%nat then tl l else l).

Definition deque_clear {A : Type} (d : deque A) : deque A :=
  mkDeque (maxlen d) [].

Definition Qsum (l : list Q) : Q := fold_right Qplus 0 l.

(** [np.mean] of a non-empty sequence. *)
Definition np_mean (l : list Q) : Q :=
  Qsum l / inject_Z (Z.of_nat (List.length l)).

Record Monitor := mkMonitor {
  fps_samples : deque Q;
  last_frame_time : Q;
  process_times : deque Q;
  process_start_time : option Q;
  memory_samples : deque Q;
  track_memory : bool;
  psutil_present : bool;
  temperature_samples : deque Q;
  track_temperature : bool
}.

(** What the host returns during one [stop_process_timer]. *)
Record HostReadings := mkHostReadings {
  clock_stop : Q;            (* [time.time()] in [stop_process_timer] *)
  clock_fps : Q;             (* [time.time()] in [update_fps] *)
  rss_bytes : Q;             (* [memory_info.rss] *)
  thermal_raw : option Q     (* the thermal file as a number, if readable *)
}.

(** [__init__]; [now] is [time.time()], the two flags say whether psutil
    imports and whether the thermal file opens. *)
Definition init (max_samples : nat) (now : Q) (has_psutil has_thermal : bool)
  : Monitor :=
  mkMonitor (deque_new max_samples) now (deque_new max_samples) None
            (deque_new max_samples) has_psutil has_psutil
            (deque_new max_samples) has_thermal.

Definition update_fps (current_time : Q) (m : Monitor) : Monitor :=
  let elapsed := current_time - last_frame_time m in
  let fps' :=
    if Qlt_le_dec 0 elapsed
    then deque_append (1 / elapsed) (fps_samples m)
    else fps_samples m in
  mkMonitor fps' current_time (process_times m) (process_start_time m)
            (memory_samples m) (track_memory m) (psutil_present m)
            (temperature_samples m) (track_temperature m).

Definition start_process_timer (now : Q) (m : Monitor) : Monitor :=
  mkMonitor (fps_samples m) (last_frame_time m) (process_times m) (Some now)
            (memory_samples m) (track_memory m) (psutil_present m)
            (temperature_samples m) (track_temperature m).

Definition stop_process_timer (h : HostReadings) (m : Monitor) : Monitor :=
  match process_start_time m with
  | None => m
  | Some started =>
      let elapsed := clock_stop h - started in
      let m1 :=
        mkMonitor (fps_samples m) (last_frame_time m)
                  (deque_append elapsed (process_times m)) None
                  (memory_samples m) (track_memory m) (psutil_present m)
                  (temperature_samples m) (track_temperature m) in
      let m2 := update_fps (clock_fps h) m1 in
      let mem' :=
        if track_memory m2 && psutil_present m2
        then deque_append (rss_bytes h / 1024 / 1024) (memory_samples m2)
        else memory_samples m2 in
      let temp' :=
        if track_temperature m2
        then match thermal_raw h with
             | Some raw => deque_append (raw / 1000) (temperature_samples m2)
             | None => temperature_samples m2
             end
        else temperature_samples m2 in
      mkMonitor (fps_samples m2) (last_frame_time m2) (process_times m2)
                (process_start_time m2) mem' (track_memory m2)
                (psutil_present m2) temp' (track_temperature m2)
  end.

Definition get_fps (m : Monitor) : Q :=
  match elems (fps_samples m) with
  | [] => 0
  | l => np_mean l
  end.


Definition reset (now : Q) (m : Monitor) : Monitor :=
  mkMonitor (deque_clear (fps_samples m)) now (deque_clear (process_times m))
            None (deque_clear (memory_samples m)) (track_memory m)
            (psutil_present m) (deque_clear (temperature_samples m))
            (track_temperature m).



(** *** The same window on IEEE doubles

    The samples are Python floats.  What a window holds does not depend on
    the number type, but the value of [np.mean] does: it is evaluated
    here on binary64 numbers. *)





End PerformanceMonitor.

(* ------------------------------------------------------------------ *)
(** ** Values passed between the stages *)

Module Data.

(** A frame: rows of (B, G, R) pixels. *)
Definition Frame := list (list (Z * Z * Z)).

(** One entry of the [detections] list built by [process_results]. *)
Record Detection := mkDetection {
  bbox : Z * Z * Z * Z;
  confidence : Q;
  class_id : Z;
  class_name : string;
  zone_id : string;
  timestamp : string
}.

End Data.

(* ------------------------------------------------------------------ *)
(** ** pathlib *)

Module PosixPath.
Import Ascii.

(** A [pathlib.Path] on a POSIX host: the root (empty, one slash or two)
    and the components after it. *)
Record Path := mkPath {
  root : string;
  parts : list string
}.

(** [s.split("/")], with [cur] the component read so far. *)
Fixpoint split_slash (cur : string) (s : string) : list string :=
  match s with
  | EmptyString => [cur]
  | String c rest =>
      if Ascii.eqb c "/"%char
      then cur :: split_slash EmptyString rest
      else split_slash (cur ++ String c EmptyString) rest
  end.

Fixpoint leading_slashes (s : string) : nat :=
  match s with
  | String c rest =>
      if Ascii.eqb c "/"%char then S (leading_slashes rest) else O
  | EmptyString => O
  end.

(** Empty components and [.] are dropped; [..] is kept. *)
Definition kept (part : string) : bool :=
  negb (String.eqb part EmptyString) && negb (String.eqb part ".").

(** [Path(s)]: exactly two leading slashes are kept as they are, any
    other number of them is one slash. *)
Definition parse (s : string) : Path :=
  mkPath (match leading_slashes s with
          | 0%nat => EmptyString
          | 2%nat => "//"%string
          | _ => "/"%string
          end)
         (filter kept (split_slash EmptyString s)).

(** [p / s]: a rooted [s] replaces [p]. *)
Definition joinpath (p : Path) (s : string) : Path :=
  let q := parse s in
  if String.eqb (root q) EmptyString
  then mkPath (root p) (parts p ++ parts q)
  else q.

(** [str(p)] *)
Definition str (p : Path) : string :=
  match parts p with
  | [] => if String.eqb (root p) EmptyString then "."%string else root p
  | _ => (root p ++ String.concat "/" (parts p))%string
  end.

End PosixPath.

(* ------------------------------------------------------------------ *)
(** ** utils/alert_manager.py *)

Module AlertManager.
Import Data.

Inductive Channel := Email | Telegram.

(** The calls of [send_alert] that can raise: [cv2.imwrite], the record
    write ([open] and [json.dump]) and the [start] of a sender thread. *)
Inductive Step :=
| ImageWrite
| RecordWrite
| Starting (ch : Channel).

(** What one call does, in program order.  [TimeRead] is the call of
    [time.time()], [LastAlertRead] the read of [self.last_alert_time] by
    the cooldown check and [LastAlertSet] the assignment to it.
    [ImWrite], [JsonDump] and [ThreadStart] are calls that returned
    ([cv2.imwrite] tells by its result whether the file was written; the
    result is not looked at); [Raise] is a call that raised instead. *)
Inductive Event :=
| LockAcquire
| LockRelease
| TimeRead (now : Q)
| LastAlertRead (value : Q)
| LastAlertSet (value : Q)
| ImWrite (path : string) (frame : Frame)
| JsonDump (path : string) (detections : list Detection)
| ThreadStart (ch : Channel) (image_path : string) (detections : list Detection)
| Raise (step : Step).

(** The [alerts] section of the configuration; every key may be absent. *)
Record AlertsConfig := mkAlertsConfig {
  cfg_enabled : option bool;
  cfg_cooldown_seconds : option Q;
  cfg_email_enabled : option bool;
  cfg_telegram_enabled : option bool;
  cfg_history_dir : option string
}.

Record Manager := mkManager {
  enabled : bool;
  cooldown_seconds : Q;
  last_alert_time : Q;
  email_enabled : bool;
  telegram_enabled : bool;
  alerts_dir : PosixPath.Path
}.

Definition or_default {A} (o : option A) (d : A) : A :=
  match o with Some a => a | None => d end.

(** [__init__] *)
Definition init (c : AlertsConfig) : Manager :=
  mkManager (or_default (cfg_enabled c) true)
            (or_default (cfg_cooldown_seconds c) 60)
            0
            (or_default (cfg_email_enabled c) false)
            (or_default (cfg_telegram_enabled c) false)
            (PosixPath.parse (or_default (cfg_history_dir c) "logs/alerts"%string)).

Definition set_last_alert_time (t : Q) (m : Manager) : Manager :=
  mkManager (enabled m) (cooldown_seconds m) t (email_enabled m)
            (telegram_enabled m) (alerts_dir m).

(** What the host does during one call: whether the image write, the
    record write and the start of a thread raise. *)
Record Host := mkHost {
  imwrite_raises : bool;
  record_raises : bool;
  start_raises : Channel -> bool
}.

(** An image without pixels; [cv2.imwrite] raises on it. *)
Definition empty_image (frame : Frame) : bool :=
  match frame with
  | [] => true
  | [] :: _ => true
  | _ => false
  end.

(** How a call ends: with a returned value, or with the exception of one
    of its steps. *)
Inductive Result :=
| Returned (value : bool)
| Exception (step : Step).

(** The result of one [send_alert], the events of the call in order, and
    the manager afterwards. *)
Record Outcome := mkOutcome {
  result : Result;
  events : list Event;
  after : Manager
}.

(** The image and metadata paths of an alert stamped [stamp]. *)
Definition img_path (m : Manager) (stamp : string) : string :=
  PosixPath.str
    (PosixPath.joinpath (alerts_dir m) ("alert_" ++ stamp ++ ".jpg")%string).
Definition meta_path (m : Manager) (stamp : string) : string :=
  PosixPath.str
    (PosixPath.joinpath (alerts_dir m) ("alert_" ++ stamp ++ ".json")%string).

(** [send_alert]; [current_time] is [time.time()] and [stamp] is
    [datetime.now().strftime("%Y%m%d_%H%M%S")].  The [with] block is
    entered with [LockAcquire] and left with [LockRelease], on either
    return and on an exception.  Nothing in the function catches an
    exception: it reaches the caller with [last_alert_time] already
    set. *)
Definition send_alert (host : Host) (frame : Frame) (detections : list Detection)
           (current_time : Q) (stamp : string) (m : Manager) : Outcome :=
  if negb (enabled m) then mkOutcome (Returned false) [] m
  else
    let checked :=
      [LockAcquire; TimeRead current_time; LastAlertRead (last_alert_time m)] in
    if Qlt_le_dec (current_time - last_alert_time m) (cooldown_seconds m)
    then mkOutcome (Returned false) (checked ++ [LockRelease]) m
    else
      let m' := set_last_alert_time current_time m in
      let committed := checked ++ [LastAlertSet current_time] in
      let alert_img_path := img_path m stamp in
      if imwrite_raises host || empty_image frame
      then mkOutcome (Exception ImageWrite)
                     (committed ++ [Raise ImageWrite; LockRelease]) m'
      else
        let imaged := committed ++ [ImWrite alert_img_path frame] in
        let alert_meta_path := meta_path m stamp in
        if record_raises host
        then mkOutcome (Exception RecordWrite)
                       (imaged ++ [Raise RecordWrite; LockRelease]) m'
        else
          let persisted := imaged ++ [JsonDump alert_meta_path detections] in
          let success := true in
          if email_enabled m && start_raises host Email
          then mkOutcome (Exception (Starting Email))
                         (persisted ++ [Raise (Starting Email); LockRelease]) m'
          else
            let emailed :=
              persisted
              ++ (if email_enabled m
                  then [ThreadStart Email alert_img_path detections] else []) in
            if telegram_enabled m && start_raises host Telegram
            then mkOutcome (Exception (Starting Telegram))
                           (emailed ++ [Raise (Starting Telegram); LockRelease]) m'
            else
              mkOutcome (Returned success)
                (emailed
                 ++ (if telegram_enabled m
                     then [ThreadStart Telegram alert_img_path detections] else [])
                 ++ [LockRelease])
                m'.

(** Whether the lock is held after a run of events, given whether it was
    held before. *)
Fixpoint lock_held (held : bool) (evs : list Event) : bool :=
  match evs with
  | [] => held
  | LockAcquire :: rest => lock_held true rest
  | LockRelease :: rest => lock_held false rest
  | _ :: rest => lock_held held rest
  end.

Definition is_lock_op (e : Event) : bool :=
  match e with
  | LockAcquire | LockRelease => true
  | _ => false
  end.

Definition is_persist (e : Event) : bool :=
  match e with
  | ImWrite _ _ | JsonDump _ _ => true
  | _ => false
  end.

Definition is_image_write (e : Event) : bool :=
  match e with
  | ImWrite _ _ => true
  | _ => false
  end.

Definition is_thread_start (e : Event) : bool :=
  match e with
  | ThreadStart _ _ _ => true
  | _ => false
  end.

(** The events of a run other than the lock operations, each with the
    state of the lock at the moment it happens. *)
Fixpoint effects_with_lock (held : bool) (evs : list Event)
  : list (Event * bool) :=
  match evs with
  | [] => []
  | LockAcquire :: rest => effects_with_lock true rest
  | LockRelease :: rest => effects_with_lock false rest
  | e :: rest => (e, held) :: effects_with_lock held rest
  end.

(** One attempt: what the host does during it, its clock reading and its
    file stamp. *)
Record Attempt := mkAttempt {
  at_host : Host;
  at_clock : Q;
  at_stamp : string
}.

(** A sequence of attempts on one manager (a caller that goes on after
    an exception); the outcomes come back in order. *)
Fixpoint send_alerts (frame : Frame) (detections : list Detection)
         (attempts : list Attempt) (m : Manager)
  : list Outcome :=
  match attempts with
  | [] => []
  | a :: rest =>
      let o := send_alert (at_host a) frame detections (at_clock a) (at_stamp a) m in
      o :: send_alerts frame detections rest (after o)
  end.

(** The number of alert events persisted by a run of outcomes (one image
    write per event). *)
Definition persisted_count (os : list Outcome) : nat :=
  List.length (filter is_image_write (flat_map events os)).

(** The thread starts of a dispatch, in order. *)
Definition channel_starts (m : Manager) (stamp : string)
           (detections : list Detection) : list Event :=
  (if email_enabled m then [ThreadStart Email (img_path m stamp) detections] else [])
  ++ (if telegram_enabled m
      then [ThreadStart Telegram (img_path m stamp) detections] else []).

(** The first step of a dispatch that raises, if any. *)
Definition raising_step (host : Host) (frame : Frame) (m : Manager)
  : option Step :=
  if imwrite_raises host || empty_image frame then Some ImageWrite
  else if record_raises host then Some RecordWrite
  else if email_enabled m && start_raises host Email then Some (Starting Email)
  else if telegram_enabled m && start_raises host Telegram
       then Some (Starting Telegram)
  else None.

(** What a dispatch has done when [step] raises. *)
Definition done_before (step : Step) (frame : Frame)
           (detections : list Detection) (stamp : string) (m : Manager)
  : list Event :=
  match step with
  | ImageWrite => []
  | RecordWrite => [ImWrite (img_path m stamp) frame]
  | Starting Email =>
      [ImWrite (img_path m stamp) frame; JsonDump (meta_path m stamp) detections]
  | Starting Telegram =>
      [ImWrite (img_path m stamp) frame; JsonDump (meta_path m stamp) detections]
      ++ (if email_enabled m
          then [ThreadStart Email (img_path m stamp) detections] else [])
  end.

(** A host on which nothing raises, and hosts on which the image write
    or the record write does. *)
Definition calm : Host := mkHost false false (fun _ => false).
Definition no_image : Host := mkHost true false (fun _ => false).
Definition no_record : Host := mkHost false true (fun _ => false).

(** Example managers: the defaults (enabled, 60 s cooldown), the defaults
    with the e-mail channel on, and a manager with alerts disabled. *)
Definition default_manager : Manager :=
  init (mkAlertsConfig None None None None None).
Definition email_manager : Manager :=
  init (mkAlertsConfig (Some true) (Some 60) (Some true) None None).
Definition disabled_manager : Manager :=
  init (mkAlertsConfig (Some false) (Some 60) (Some true) (Some true) None).

Definition sample_frame : Frame := [[(0, 0, 0)%Z]].
Definition sample_detections : list Detection :=
  [mkDetection (10, 10, 30, 50)%Z (9 # 10) 0 "person" "zone1" "2024-01-01T00:00:00"].

(** Three attempts at clock readings [T], [T + 30] and [T + 61]. *)
Definition three_attempts (host : Host) (T : Q) : list Attempt :=
  [mkAttempt host T "a"; mkAttempt host (T + 30) "b"; mkAttempt host (T + 61) "c"].

End AlertManager.

(* ------------------------------------------------------------------ *)
(** ** src/intruder_detection.py *)

Module Pipeline.
Import Geometry Data.

(** One element of [results.boxes] after the [int]/[float] conversions. *)
Record Box := mkBox {
  xyxy : Z * Z * Z * Z;
  conf : Q;
  cls : Z
}.

(** [feet_x = (x1 + x2) // 2], [feet_y = y2] *)
Definition feet_point (b : Box) : Point :=
  let '(x1, y1, x2, y2) := xyxy b in
  ((x1 + x2) / 2, y2)%Z.

(** The centre of the box, which the program does not use. *)
Definition box_centroid (b : Box) : Point :=
  let '(x1, y1, x2, y2) := xyxy b in
  ((x1 + x2) / 2, (y1 + y2) / 2)%Z.

(** Python truthiness of [zone_id]: [None] and the empty string are false. *)
Definition truthy (zone_id : option string) : bool :=
  match zone_id with
  | Some s => negb (String.eqb s EmptyString)
  | None => false
  end.

Section ProcessResults.
Variable contains : Polygon -> Point -> bool.
Variable zones : ZoneManager.Zones.
Variable target_classes : list Z.
Variable names : Z -> string.          (* [results.names] *)
Variable now_iso : nat -> string.      (* [datetime.now().isoformat()] at box [i] *)

(** The body of the loop of [process_results] for box [i]: the detection
    it appends, if any.  Drawing on the frame is left out. *)
Definition process_box (i : nat) (box : Box) : option Detection :=
  let cls_id := cls box in
  if existsb (Z.eqb cls_id) target_classes then
    let detection_point := feet_point box in
    let zone := ZoneManager.check_point_in_zones contains zones detection_point in
    if truthy zone then
      match zone with
      | Some zid =>
          Some (mkDetection (xyxy box) (conf box) cls_id (names cls_id) zid
                            (now_iso i))
      | None => None
      end
    else None
  else None.

(** The loop [for i, box in enumerate(boxes)] with its accumulator. *)
Fixpoint process_boxes (i : nat) (boxes : list Box) (detections : list Detection)
  : list Detection :=
  match boxes with
  | [] => detections
  | box :: rest =>
      match process_box i box with
      | Some d => process_boxes (S i) rest (detections ++ [d])
      | None => process_boxes (S i) rest detections
      end
  end.

(** [process_results]: the detections it returns. *)
Definition process_results (boxes : list Box) : list Detection :=
  process_boxes 0 boxes [].

End ProcessResults.

(** What the capture thread works on. *)
Record CaptureState := mkCaptureState {
  frame_queue : BoundedQueue.Queue Frame;
  frame_count : nat;
  running : bool
}.

(** The keys of [config['system']] that the capture thread reads. *)
Record SystemConfig := mkSystemConfig {
  reconnect_on_failure : bool;
  limit_fps : bool;
  target_fps : Q
}.

(** One [self.cap.read()]: a frame, or a failed read together with
    whether [setup_camera] then reopens the source (it raises
    [ValueError] when the source does not open). *)
Inductive CameraRead :=
| Got (frame : Frame)
| Lost (reopens : bool).

(** Whether [time.sleep(1.0 / target_fps)] raises: the division raises at
    zero, the sleep refuses a negative length, and a length beyond what
    the platform can represent overflows ([sleep_overflows], a property
    of the host). *)
Definition pacing_raises (cfg : SystemConfig) (sleep_overflows : Q -> bool)
  : bool :=
  limit_fps cfg
  && (Qle_bool (target_fps cfg) 0 || sleep_overflows (1 / target_fps cfg)).

(** [capture_frames]: the loop [while self.running], run on the camera
    reads it is given.  The second component tells whether an exception
    has ended the thread: nothing in the loop catches the one of
    [setup_camera] or of the pacing sleep, and [running] is then left as
    it was. *)
Fixpoint capture_frames (cfg : SystemConfig) (sleep_overflows : Q -> bool)
         (reads : list CameraRead) (st : CaptureState) : CaptureState * bool :=
  match reads with
  | [] => (st, false)
  | read :: rest =>
      if negb (running st) then (st, false)
      else
        match read with
        | Lost reopens =>
            if reconnect_on_failure cfg
            then if reopens
                 then capture_frames cfg sleep_overflows rest st
                 else (st, true)
            else (mkCaptureState (frame_queue st) (frame_count st) false, false)
        | Got frame =>
            let st' :=
              mkCaptureState (BoundedQueue.put_or_drop frame (frame_queue st))
                             (S (frame_count st)) (running st) in
            if pacing_raises cfg sleep_overflows
            then (st', true)
            else capture_frames cfg sleep_overflows rest st'
        end
  end.

(** The end of one iteration of [process_frames]: the processed frame and
    its detections go to the result queue. *)
Definition publish_result (result : Frame * list Detection)
           (result_queue : BoundedQueue.Queue (Frame * list Detection))
  : BoundedQueue.Queue (Frame * list Detection) :=
  BoundedQueue.put_or_drop result result_queue.

(** The inference stage publishing a run of results. *)
Definition publish_all (results : list (Frame * list Detection))
           (result_queue : BoundedQueue.Queue (Frame * list Detection))
  : BoundedQueue.Queue (Frame * list Detection) :=
  fold_left (fun q r => publish_result r q) results result_queue.

(** The feet-anchor example: the box (10,10)-(30,50), a zone around its
    bottom centre (20,50) and a zone around its centre (20,30). *)
Definition sample_box : Box := mkBox (10, 10, 30, 50)%Z (9 # 10) 0.

Definition zone_around (p : Point) : ZoneManager.Zones :=
  let '(x, y) := p in
  snd (ZoneManager.add_zone "zone1" "Zone"
         [(x - 5, y - 5); (x - 5, y + 5); (x + 5, y + 5); (x + 5, y - 5)]%Z
         (0, 0, 255)%Z true []).

Definition sample_names (c : Z) : string := "person".
Definition sample_clock (i : nat) : string := "2024-01-01T00:00:00".

End Pipeline.

(* ------------------------------------------------------------------ *)
(** ** Zone tables: what the operations are compared with *)

Module ZoneSpec.
Import Geometry ZoneManager.

(** The zone [load_zones] stores for one configuration entry. *)
Definition zone_of_config (zone_id : string) (zone_data : ZoneConfig) : Zone :=
  let pts := get_default (cfg_points zone_data) [] in
  mkZone (get_default (cfg_name zone_data) zone_id) (mkPolygon pts) pts
         (get_default (cfg_color zone_data) (0, 0, 255)%Z)
         (get_default (cfg_alert_enabled zone_data) true).

(** A configuration entry with enough points to be loaded. *)
Definition loadable (kz : string * ZoneConfig) : bool :=
  (3 <=? List.length (get_default (cfg_points (snd kz)) []))%nat.

(** The entries of a table other than the one stored under [zone_id]. *)
Definition without (zone_id : string) (zones : Zones) : Zones :=
  filter (fun kz => negb (String.eqb zone_id (fst kz))) zones.

(** A two-entry configuration: a triangle and an entry with two points. *)
Definition mixed_config : list (string * ZoneConfig) :=
  [("door"%string,
    mkZoneConfig None (Some [(0, 0); (0, 10); (10, 10)]%Z) None None);
   ("bad"%string,
    mkZoneConfig (Some "Bad"%string) (Some [(0, 0); (1, 1)]%Z) None None)].

End ZoneSpec.

(* ------------------------------------------------------------------ *)
(** ** The consumer side of a queue *)

Module QueueOps.
Import BoundedQueue.

Section WithItem.
Variable A : Type.

(** [q.get(timeout=1.0)] with no producer running meanwhile: [None] stands
    for the exception [queue.Empty]. *)
Definition get (q : Queue A) : option (A * Queue A) :=
  match items q with
  | [] => None
  | x :: rest => Some (x, mkQueue (maxsize q) rest)
  end.

(** One step of a producer or of a consumer. *)
Inductive Op :=
| Offer (x : A)     (* [try: q.put(x, block=False) except queue.Full: pass] *)
| Take.             (* [try: q.get(timeout=1.0) except queue.Empty: continue] *)

(** A run of steps: the queue afterwards and the items taken, in order. *)
Fixpoint run (ops : list Op) (q : Queue A) (taken : list A)
  : Queue A * list A :=
  match ops with
  | [] => (q, taken)
  | Offer x :: rest => run rest (put_or_drop x q) taken
  | Take :: rest =>
      match get q with
      | Some (x, q') => run rest q' (taken ++ [x])
      | None => run rest q taken
      end
  end.

(** The producer offers every item, then the consumer takes [n] times. *)
Definition burst_then_take (xs : list A) (n : nat) : list Op :=
  map Offer xs ++ repeat Take n.

(** Producer and consumer alternate: each offer is followed by a take. *)
Definition in_step (xs : list A) : list Op :=
  flat_map (fun x => [Offer x; Take]) xs.

End WithItem.

Arguments get {A} q.
Arguments Offer {A} x.
Arguments Take {A}.
Arguments run {A} ops q taken.
Arguments burst_then_take {A} xs n.
Arguments in_step {A} xs.
End QueueOps.

(* ------------------------------------------------------------------ *)
(** ** Camera reads *)

Module CaptureSpec.
Import Data Pipeline.

(** The frames of the successful reads. *)
Fixpoint successes (reads : list CameraRead) : list Frame :=
  match reads with
  | [] => []
  | Got f :: rest => f :: successes rest
  | Lost _ :: rest => successes rest
  end.

(** Every failed read is followed by a reconnect that works. *)
Definition all_reopen (reads : list CameraRead) : bool :=
  forallb (fun r => match r with Got _ => true | Lost reopens => reopens end)
          reads.

Definition black : Frame := [[(0, 0, 0)%Z]].
Definition white : Frame := [[(255, 255, 255)%Z]].

(** A capture thread that reconnects and is not paced, one paced at 15
    frames a second, and one paced with [target_fps] 0. *)
Definition reconnecting : SystemConfig := mkSystemConfig true false 15.
Definition paced : SystemConfig := mkSystemConfig true true 15.
Definition paced_at_zero : SystemConfig := mkSystemConfig true true 0.

(** A host on which no sleep length overflows. *)
Definition no_overflow (seconds : Q) : bool := false.

End CaptureSpec.

(* ------------------------------------------------------------------ *)
(** ** Performance monitor: the remaining readers, and runs of calls *)

Module MonitorOps.
Import PerformanceMonitor.

(** [get_memory_usage] *)
Definition get_memory_usage (m : Monitor) : Q :=
  match elems (memory_samples m) with
  | [] => 0
  | l => if negb (track_memory m) then 0 else np_mean l
  end.

(** [get_temperature] *)
Definition get_temperature (m : Monitor) : Q :=
  match elems (temperature_samples m) with
  | [] => 0
  | l => if negb (track_temperature m) then 0 else np_mean l
  end.

(** One call on the monitor, with what the host returns during it. *)
Inductive Call :=
| UpdateFps (now : Q)
| StartTimer (now : Q)
| StopTimer (h : HostReadings)
| Reset (now : Q).

Definition call (c : Call) (m : Monitor) : Monitor :=
  match c with
  | UpdateFps now => update_fps now m
  | StartTimer now => start_process_timer now m
  | StopTimer h => stop_process_timer h m
  | Reset now => reset now m
  end.

(** A run of calls, in order. *)
Definition calls (cs : list Call) (m : Monitor) : Monitor :=
  fold_left (fun acc c => call c acc) cs m.

(** Every window of the monitor is within the capacity [n]. *)
Definition within (n : nat) (d : deque Q) : Prop :=
  maxlen d = n /\ (List.length (elems d) <= n)%nat.

Definition windows_within (n : nat) (m : Monitor) : Prop :=
  within n (fps_samples m) /\ within n (process_times m) /\
  within n (memory_samples m) /\ within n (temperature_samples m).

(** Every stored fps sample is positive. *)
Definition positive_samples (m : Monitor) : Prop :=
  Forall (fun x => 0 < x) (elems (fps_samples m)).

(** Memory, respectively temperature, is not tracked and has no sample. *)
Definition untracked_memory (m : Monitor) : Prop :=
  track_memory m && psutil_present m = false /\ elems (memory_samples m) = [].

Definition untracked_temperature (m : Monitor) : Prop :=
  track_temperature m = false /\ elems (temperature_samples m) = [].

End MonitorOps.

(* ------------------------------------------------------------------ *)
(** ** Runs of alert attempts *)

Module AlertSpec.
Import Data AlertManager.

Definition returned_true (o : Outcome) : bool :=
  match result o with Returned true => true | _ => false end.

Definition raised (o : Outcome) : bool :=
  match result o with Exception _ => true | _ => false end.

(** The call got past the cooldown check: it returned [True] or raised
    on the way. *)
Definition passed_gate (o : Outcome) : bool := returned_true o || raised o.

(** The clock readings of the attempts that satisfy [pick]. *)
Fixpoint times_of (pick : Outcome -> bool) (attempts : list Attempt)
         (outcomes : list Outcome) : list Q :=
  match attempts, outcomes with
  | a :: attempts', o :: outcomes' =>
      if pick o then at_clock a :: times_of pick attempts' outcomes'
      else times_of pick attempts' outcomes'
  | _, _ => []
  end.

(** The clock readings of the attempts that returned [True], and of
    those that got past the cooldown check. *)
Definition dispatch_times := times_of returned_true.
Definition commit_times := times_of passed_gate.

(** Each reading is at least [gap] after the one before it, the first one
    at least [gap] after [last]. *)
Fixpoint spaced (gap last : Q) (ts : list Q) : Prop :=
  match ts with
  | [] => True
  | t :: rest => gap <= t - last /\ spaced gap t rest
  end.

(** The manager after a run of attempts. *)
Fixpoint final_manager (m : Manager) (outcomes : list Outcome) : Manager :=
  match outcomes with
  | [] => m
  | o :: rest => final_manager (after o) rest
  end.

Definition is_json_dump (e : Event) : bool :=
  match e with
  | JsonDump _ _ => true
  | _ => false
  end.

(** The number of enabled channels. *)
Definition channel_count (m : Manager) : nat :=
  (if email_enabled m then 1 else 0) + (if telegram_enabled m then 1 else 0).

(** Attempts, the second of which cannot write its record. *)
Definition troubled_attempts : list Attempt :=
  [mkAttempt calm 1000 "a"; mkAttempt no_record 1100 "b";
   mkAttempt calm 1130 "c"; mkAttempt calm 1200 "d"].

End AlertSpec.

(* ------------------------------------------------------------------ *)
(** ** src/intruder_detection.py: the output stage *)

Module OutputStage.
Import Data.

(** The configuration keys the loop reads; all are taken to be present
    (a missing key raises [KeyError] and ends the thread). *)
Record Config := mkConfig {
  cooldown_seconds : Q;             (* [config['alerts']['cooldown_seconds']] *)
  display_video : bool;
  save_video : bool;
  save_detection_frames : bool;
  detection_frames_dir : string;
  frame_save_interval : Z
}.

(** The fields of the system the loop reads and writes; [output_video]
    says whether a video writer exists. *)
Record State := mkState {
  alert_manager : AlertManager.Manager;
  last_alert_time : Q;
  last_saved_frame : nat;
  running : bool;
  output_video : bool
}.

(** One item of the result queue with what the host returns while it is
    handled: the clock readings of [_should_send_alert], of [send_alert]
    and of the assignment after it, what the host does during
    [send_alert], the file stamps, whether the key read is [q], and the
    two reads of [frame_count] (the capture thread writes it). *)
Record Tick := mkTick {
  frame : Frame;
  detections : list Detection;
  clock_should : Q;
  clock_send : Q;
  alert_host : AlertManager.Host;
  alert_stamp : string;
  clock_after : Q;
  key_is_q : bool;
  count_check : nat;
  count_store : nat;
  save_stamp : string
}.

(** [Uncaught]: an exception of [send_alert] leaves [handle_output],
    which catches nothing but [queue.Empty]; the thread ends. *)
Inductive Event :=
| Alert (e : AlertManager.Event)
| LogAlertSent (intrusions : nat)
| Uncaught
| ImShow (f : Frame)
| VideoWrite (f : Frame)
| SaveFrame (path : string) (f : Frame)
| SaveMeta (path : string) (ds : list Detection)
| LogIntrusion (d : Detection).

Definition is_uncaught (e : Event) : bool :=
  match e with Uncaught => true | _ => false end.

(** Whether the events of an iteration show that the thread has ended. *)
Definition thread_ended (evs : list Event) : bool := existsb is_uncaught evs.

(** Python truthiness of a list. *)
Definition nonempty {A} (l : list A) : bool :=
  match l with [] => false | _ => true end.

(** [_should_send_alert] *)
Definition should_send_alert (cfg : Config) (now : Q) (st : State) : bool :=
  if Qlt_le_dec (cooldown_seconds cfg) (now - last_alert_time st)
  then true else false.

(** [_save_detection_frame]: the two writes. *)
Definition save_detection_frame (cfg : Config) (stamp : string) (f : Frame)
           (ds : list Detection) : list Event :=
  let output_dir := PosixPath.parse (detection_frames_dir cfg) in
  [SaveFrame
     (PosixPath.str
        (PosixPath.joinpath output_dir ("intrusion_" ++ stamp ++ ".jpg")%string))
     f;
   SaveMeta
     (PosixPath.str
        (PosixPath.joinpath output_dir ("intrusion_" ++ stamp ++ ".json")%string))
     ds].

(** The three statements under the alert check of [handle_output]: the
    call of [send_alert], the assignment and the log line.  The value
    returned by [send_alert] is not looked at; when the call raises, the
    assignment and the log line after it are not reached. *)
Definition send_and_log (tk : Tick) (st : State) : State * list Event :=
  let o := AlertManager.send_alert (alert_host tk) (frame tk) (detections tk)
             (clock_send tk) (alert_stamp tk) (alert_manager st) in
  match AlertManager.result o with
  | AlertManager.Returned _ =>
      (mkState (AlertManager.after o) (clock_after tk) (last_saved_frame st)
               (running st) (output_video st),
       map Alert (AlertManager.events o)
       ++ [LogAlertSent (List.length (detections tk))])
  | AlertManager.Exception _ =>
      (mkState (AlertManager.after o) (last_alert_time st) (last_saved_frame st)
               (running st) (output_video st),
       map Alert (AlertManager.events o) ++ [Uncaught])
  end.

(** The alert part of one iteration of [handle_output]. *)
Definition alert_part (cfg : Config) (tk : Tick) (st : State)
  : State * list Event :=
  if nonempty (detections tk) && should_send_alert cfg (clock_should tk) st
  then send_and_log tk st
  else (st, []).

(** One iteration of the loop of [handle_output] on a dequeued item; the
    [break] on the key [q] leaves the rest of the iteration undone, and
    so does an exception of the alert part. *)
Definition handle_item (cfg : Config) (tk : Tick) (st : State)
  : State * list Event :=
  let '(st1, ev1) := alert_part cfg tk st in
  if thread_ended ev1 then (st1, ev1)
  else
  if display_video cfg && key_is_q tk
  then (mkState (alert_manager st1) (last_alert_time st1) (last_saved_frame st1)
                false (output_video st1),
        ev1 ++ [ImShow (frame tk)])
  else
    let ev2 := if display_video cfg then [ImShow (frame tk)] else [] in
    let ev3 := if save_video cfg && output_video st1
               then [VideoWrite (frame tk)] else [] in
    let '(st2, ev4) :=
      if save_detection_frames cfg && nonempty (detections tk)
         && (frame_save_interval cfg
             <=? Z.of_nat (count_check tk) - Z.of_nat (last_saved_frame st1))%Z
      then (mkState (alert_manager st1) (last_alert_time st1) (count_store tk)
                    (running st1) (output_video st1),
            save_detection_frame cfg (save_stamp tk) (frame tk) (detections tk))
      else (st1, []) in
    (st2, ev1 ++ ev2 ++ ev3 ++ ev4 ++ map LogIntrusion (detections tk)).

(** [handle_output]: the loop [while self.running] on the items it
    dequeues; after an exception no further item is handled. *)
Fixpoint handle_output (cfg : Config) (ticks : list Tick) (st : State)
  : State * list Event :=
  match ticks with
  | [] => (st, [])
  | tk :: rest =>
      if negb (running st) then (st, [])
      else
        let '(st1, ev1) := handle_item cfg tk st in
        if thread_ended ev1 then (st1, ev1)
        else
          let '(st2, ev2) := handle_output cfg rest st1 in
          (st2, ev1 ++ ev2)
  end.


Definition is_alert (e : Event) : bool :=
  match e with Alert _ => true | _ => false end.

Definition is_video_write (e : Event) : bool :=
  match e with VideoWrite _ => true | _ => false end.

(** The system right after [__init__] and [run] have set it going. *)
Definition started (m : AlertManager.Manager) (video : bool) : State :=
  mkState m 0 0 true video.

(** The clock readings of a run of items never go back, starting from
    the reading [prev]. *)
Fixpoint clock_monotone (prev : Q) (ticks : list Tick) : Prop :=
  match ticks with
  | [] => True
  | tk :: rest =>
      prev <= clock_should tk /\ clock_should tk <= clock_send tk /\
      clock_send tk <= clock_after tk /\ clock_monotone (clock_after tk) rest
  end.

(** What the manager and the system agree on between items: the manager
    is enabled, reads the same cooldown, and neither recorded time is
    ahead of the other or of the clock reading [prev]. *)
Definition gates_agree (cfg : Config) (prev : Q) (st : State) : Prop :=
  AlertManager.enabled (alert_manager st) = true /\
  AlertManager.cooldown_seconds (alert_manager st) = cooldown_seconds cfg /\
  AlertManager.last_alert_time (alert_manager st) <= last_alert_time st /\
  last_alert_time st <= prev.

Definition is_log_alert_sent (e : Event) : bool :=
  match e with LogAlertSent _ => true | _ => false end.

Definition is_alert_image (e : Event) : bool :=
  match e with Alert (AlertManager.ImWrite _ _) => true | _ => false end.

Definition is_log_intrusion (e : Event) : bool :=
  match e with LogIntrusion _ => true | _ => false end.

(** An event the alert part of an iteration cannot produce. *)
Definition after_alert_part (e : Event) : bool :=
  match e with
  | Alert _ | LogAlertSent _ | Uncaught => false
  | _ => true
  end.

(** Sample items. *)
Definition sample_config : Config :=
  mkConfig 60 true true true "data/detections" 15.

Definition sample_tick (t : Q) (fc : nat) (q : bool) : Tick :=
  mkTick AlertManager.sample_frame AlertManager.sample_detections
         t t AlertManager.calm "a" t q fc fc "s".

Definition quiet_tick : Tick :=
  mkTick AlertManager.sample_frame [] 1000 1000 AlertManager.calm "a" 1000
         false 100 100 "s".

(** An item during which the alert record cannot be written. *)
Definition troubled_tick (t : Q) (fc : nat) : Tick :=
  mkTick AlertManager.sample_frame AlertManager.sample_detections
         t t AlertManager.no_record "a" t false fc fc "s".

End OutputStage.

(* ------------------------------------------------------------------ *)
(** ** utils/config_loader.py *)

Module ConfigLoader.

Set Warnings "-register-all".

(** A value as [json.load] returns it. *)
Inductive json :=
| JNull
| JBool (b : bool)
| JInt (z : Z)
| JFloat (q : Q)
| JStr (s : string)
| JList (l : list json)
| JDict (d : list (string * json)).

Set Warnings "register-all".

Definition jdict := Dict.dict json.

(** [update_nested_dict], seen from one key of [u]: the value stored
    under the key afterwards, given the value [old] stored before (if
    any) and the value [v] of [u].  Two dictionaries are merged key by
    key, anything else is replaced by [v]. *)
Fixpoint merged_value (old : option json) (v : json) {struct v} : json :=
  match v with
  | JDict u =>
      match old with
      | Some (JDict d) =>
          JDict
            ((fix merge (u : list (string * json)) (d : jdict) {struct u} : jdict :=
                match u with
                | [] => d
                | (k, v') :: rest =>
                    merge rest (Dict.set k (merged_value (Dict.get k d) v') d)
                end) u d)
      | _ => v
      end
  | _ => v
  end.

(** [update_nested_dict(d, u)]: the loop over [u.items()]. *)
Fixpoint update_nested_dict (d : jdict) (u : list (string * json)) : jdict :=
  match u with
  | [] => d
  | (k, v) :: rest =>
      update_nested_dict (Dict.set k (merged_value (Dict.get k d) v) d) rest
  end.





(** Python truthiness. *)
Definition truthy (v : json) : bool :=
  match v with
  | JNull => false
  | JBool b => b
  | JInt z => negb (z =? 0)%Z
  | JFloat q => negb (Qeq_bool q 0)
  | JStr s => negb (String.eqb s EmptyString)
  | JList l => match l with [] => false | _ => true end
  | JDict d => match d with [] => false | _ => true end
  end.


(** What the host answers during [load_config]. *)
Record Host := mkHost {
  config_dir_ok : bool;                (* the directory of the file exists or can be made *)
  config_file : option (option json);  (* absent; unreadable or not JSON; parsed *)
  makedirs_ok : string -> bool         (* [os.makedirs(directory, exist_ok=True)] succeeds *)
}.






(** [update_config]: the merged configuration it returns (and saves). *)
Definition update_config (config : jdict) (updates : list (string * json)) : jdict :=
  update_nested_dict config updates.


(** A configuration file that holds only a camera section. *)
Definition camera_only : json :=
  JDict [("camera"%string, JDict [("source"%string, JStr "rtsp://cam")])].

Definition friendly_host (file : option (option json)) : Host :=
  mkHost true file (fun _ => true).

End ConfigLoader.

(* ------------------------------------------------------------------ *)
(** ** Configuration updates: examples *)

Module ConfigExamples.
Import ConfigLoader.

(** A configuration with two zones, and an update that names only one of
    them and switches its alerts off. *)
Definition two_zone_config : jdict :=
  [("zones"%string,
    JDict [("door"%string,
            JDict [("name"%string, JStr "Door"); ("alert_enabled"%string, JBool true)]);
           ("gate"%string,
            JDict [("name"%string, JStr "Gate"); ("alert_enabled"%string, JBool true)])]);
   ("alerts"%string, JDict [("cooldown_seconds"%string, JInt 60)])].

Definition door_off : list (string * json) :=
  [("zones"%string,
    JDict [("door"%string, JDict [("alert_enabled"%string, JBool false)])])].

End ConfigExamples.

(* ------------------------------------------------------------------ *)
(** ** scripts/configure_zones.py: the drawing tool *)

Module ZoneTool.
Import Ascii Geometry ZoneManager.

(** The zone being drawn ([self.current_zone]). *)
Record ToolZone := mkToolZone {
  tz_name : string;
  tz_points : list Point;
  tz_color : Color;
  tz_alert_enabled : bool
}.

(** The same zone as an entry of the zones configuration. *)
Definition to_config (z : ToolZone) : ZoneConfig :=
  mkZoneConfig (Some (tz_name z)) (Some (tz_points z)) (Some (tz_color z))
               (Some (tz_alert_enabled z)).

(** What the user types when a zone is started. *)
Record Answers := mkAnswers {
  zone_name : string;
  override : string;
  color_name : string
}.

Inductive Input :=
| LButtonDown (x y : Z) (a : Answers)
| MouseMove (x y : Z)
| RButtonDown
| OtherMouse
| DeleteKey (zone_id : string).

(** The fields of the tool that the callbacks use; [saves] counts the
    calls of [save_zones]. *)
Record Tool := mkTool {
  zones : Dict.dict ZoneConfig;
  current_zone : option ToolZone;
  drawing : bool;
  points : list Point;
  temp_point : option Point;
  saves : nat
}.

(** [self.colors] *)
Definition colors : Dict.dict Color :=
  [("red"%string, (0, 0, 255)%Z); ("green"%string, (0, 255, 0)%Z);
   ("blue"%string, (255, 0, 0)%Z); ("yellow"%string, (0, 255, 255)%Z);
   ("purple"%string, (255, 0, 255)%Z); ("cyan"%string, (255, 255, 0)%Z);
   ("white"%string, (255, 255, 255)%Z)].

(** [s.replace(" ", "_")] *)
Fixpoint replace_spaces (s : string) : string :=
  match s with
  | EmptyString => EmptyString
  | String c rest =>
      String (if Ascii.eqb c " "%char then "_"%char else c) (replace_spaces rest)
  end.

(** [__init__], for the zones of the loaded configuration. *)
Definition init (config_zones : Dict.dict ZoneConfig) : Tool :=
  mkTool config_zones None false [] None 0.

Section WithLower.
(** [str.lower] *)
Variable lower : string -> string.

Definition zone_id_of (name : string) : string := replace_spaces (lower name).

(** [finish_zone] *)
Definition finish_zone (t : Tool) : Tool :=
  let t1 :=
    match current_zone t with
    | Some cz =>
        if drawing t && (3 <=? List.length (points t))%nat
        then mkTool (Dict.set (zone_id_of (tz_name cz)) (to_config cz) (zones t))
                    (current_zone t) (drawing t) (points t) (temp_point t)
                    (S (saves t))
        else t
    | None => t
    end in
  mkTool (zones t1) None false [] None (saves t1).

(** [start_new_zone] *)
Definition start_new_zone (x y : Z) (a : Answers) (t : Tool) : Tool :=
  let t1 := if drawing t then finish_zone t else t in
  let zone_id := zone_id_of (zone_name a) in
  if Dict.mem zone_id (zones t1)
     && negb (String.eqb (lower (override a)) "y")
  then t1
  else
    let color :=
      match Dict.get (lower (color_name a)) colors with
      | Some c => c
      | None => (0, 0, 255)%Z
      end in
    mkTool (zones t1)
           (Some (mkToolZone (zone_name a) [(x, y)] color true))
           true [(x, y)] (temp_point t1) (saves t1).

(** [add_point] *)
Definition add_point (x y : Z) (t : Tool) : Tool :=
  match current_zone t with
  | Some cz =>
      if drawing t
      then mkTool (zones t)
                  (Some (mkToolZone (tz_name cz) (tz_points cz ++ [(x, y)])
                                    (tz_color cz) (tz_alert_enabled cz)))
                  (drawing t) (points t ++ [(x, y)]) (temp_point t) (saves t)
      else t
  | None => t
  end.

(** [delete_zone].  The message printed before the deletion reads
    [self.zones[zone_id]['name']]: for a stored zone without a name this
    raises [KeyError] before anything is deleted or saved.  [None] stands
    for that exception. *)
Definition delete_zone (zone_id : string) (t : Tool) : option Tool :=
  match Dict.get zone_id (zones t) with
  | Some zone =>
      match cfg_name zone with
      | Some _ =>
          Some (mkTool (Dict.del zone_id (zones t)) (current_zone t) (drawing t)
                       (points t) (temp_point t) (S (saves t)))
      | None => None
      end
  | None => Some t
  end.

(** [mouse_callback], and the key [d] of the main loop.  [None] stands
    for an exception. *)
Definition handle (i : Input) (t : Tool) : option Tool :=
  match i with
  | LButtonDown x y a =>
      Some (if negb (drawing t) then start_new_zone x y a t else add_point x y t)
  | MouseMove x y =>
      Some (mkTool (zones t) (current_zone t) (drawing t) (points t)
                   (Some (x, y)) (saves t))
  | RButtonDown => Some (finish_zone t)
  | OtherMouse => Some t
  | DeleteKey zone_id => delete_zone zone_id t
  end.

(** The callbacks called one after the other on the inputs (what the
    main loop draws between them is not part of it); an exception ends
    the run. *)
Fixpoint run (inputs : list Input) (t : Tool) : option Tool :=
  match inputs with
  | [] => Some t
  | i :: rest =>
      match handle i t with
      | Some t' => run rest t'
      | None => None
      end
  end.

End WithLower.

(** The point list of the zone being drawn is the tool's point list. *)
Definition in_sync (t : Tool) : Prop :=
  forall cz, current_zone t = Some cz -> tz_points cz = points t.

(** A configuration entry that [load_zones] will not skip. *)
Definition drawable (z : ZoneConfig) : Prop :=
  (3 <= List.length (get_default (cfg_points z) []))%nat.

(** A configuration entry with a name. *)
Definition named (z : ZoneConfig) : Prop := cfg_name z <> None.

(** Left clicks on a list of points, with nothing typed. *)
Definition clicks (ps : list Point) : list Input :=
  map (fun p => LButtonDown (fst p) (snd p) (mkAnswers "" "" "")) ps.

(** What the callbacks keep true of the tool. *)
Definition tool_ok (t : Tool) : Prop :=
  in_sync t /\ Dict.all_values drawable (zones t) /\ NoDup (Dict.keys (zones t)).

(** The colour chosen by name, red when the name is unknown. *)
Definition color_of (lower : string -> string) (a : Answers) : Color :=
  match Dict.get (lower (color_name a)) colors with
  | Some c => c
  | None => (0, 0, 255)%Z
  end.

(** [str.lower] on ASCII text, for the examples. *)
Definition lower_char (c : Ascii.ascii) : Ascii.ascii :=
  let n := Ascii.nat_of_ascii c in
  if (65 <=? n)%nat && (n <=? 90)%nat then Ascii.ascii_of_nat (n + 32) else c.

Fixpoint ascii_lower (s : string) : string :=
  match s with
  | EmptyString => EmptyString
  | String c rest => String (lower_char c) (ascii_lower rest)
  end.

Definition door_config : Dict.dict ZoneConfig :=
  [("door"%string,
    mkZoneConfig (Some "Door"%string) (Some [(0, 0); (0, 10); (10, 10)]%Z)
                 (Some (0, 0, 255)%Z) (Some true))].

Definition front_door : Answers := mkAnswers "Front Door" "" "Green".

Definition drawing_session : list Input :=
  LButtonDown 1 1 front_door
  :: clicks [(1, 9); (9, 9)]%Z ++ [MouseMove 5 5; RButtonDown; DeleteKey "door"].

(** The tool after that session, started on [door_config]. *)
Definition session_end : Tool :=
  mkTool [("front_door"%string,
           to_config (mkToolZone "Front Door" [(1, 1); (1, 9); (9, 9)]%Z
                                 (0, 255, 0)%Z true))]
         None false [] None 2.

End ZoneTool.

(* ------------------------------------------------------------------ *)
(** ** utils/alert_manager.py: the channels and their test *)

Module AlertChannels.
Import Data AlertManager.

(** [self.telegram_config]: the two keys [_send_telegram_alert] reads. *)
Record Telegram := mkTelegram {
  bot_token : option string;
  chat_id : option string
}.

(** What the host does during a send: whether the image file can be
    read, whether the SMTP session and the HTTP request go through. *)
Record Transport := mkTransport {
  image_readable : bool;
  smtp_ok : bool;
  http_ok : bool
}.

Inductive Traffic :=
| SmtpSession (image_path : string) (detections : list Detection)
| HttpPost (token chat : string) (image_path : string) (detections : list Detection).

(** [not value] for a configured string. *)
Definition missing (value : option string) : bool :=
  match value with
  | None => true
  | Some s => String.eqb s EmptyString
  end.

(** [_send_email_alert]: every failure is caught and gives [False]. *)
Definition send_email_alert (net : Transport) (image_path : string)
           (detections : list Detection) : bool * list Traffic :=
  if negb (image_readable net) then (false, [])
  else (smtp_ok net, [SmtpSession image_path detections]).

(** [_send_telegram_alert] *)
Definition send_telegram_alert (tg : Telegram) (net : Transport)
           (image_path : string) (detections : list Detection)
  : bool * list Traffic :=
  match bot_token tg, chat_id tg with
  | Some token, Some chat =>
      if missing (bot_token tg) || missing (chat_id tg) then (false, [])
      else if negb (image_readable net) then (false, [])
      else (http_ok net, [HttpPost token chat image_path detections])
  | _, _ => (false, [])
  end.

(** The detection [test_alerts] sends: a class name, a zone id and a
    confidence; the senders read no other field. *)
Definition test_detection : Detection :=
  mkDetection (0, 0, 0, 0)%Z (95 # 100) 0 "person" "test_zone" "".

(** [test_alerts]: the results for [email] and [telegram], and the
    traffic caused. *)
Definition test_alerts (m : Manager) (tg : Telegram) (net : Transport)
  : (bool * bool) * list Traffic :=
  let test_img_path :=
    PosixPath.str (PosixPath.joinpath (alerts_dir m) "test_alert.jpg") in
  let '(email_result, t1) :=
    if email_enabled m
    then send_email_alert net test_img_path [test_detection]
    else (false, []) in
  let '(telegram_result, t2) :=
    if telegram_enabled m
    then send_telegram_alert tg net test_img_path [test_detection]
    else (false, []) in
  ((email_result, telegram_result), t1 ++ t2).

Definition is_http_post (e : Traffic) : bool :=
  match e with HttpPost _ _ _ _ => true | _ => false end.

Definition is_smtp_session (e : Traffic) : bool :=
  match e with SmtpSession _ _ => true | _ => false end.

End AlertChannels.

(* ================================================================== *)
(** * Properties *)

(* ------------------------------------------------------------------ *)
(** ** Dictionaries *)

Module DictFacts.
Section WithValue.
Context {V : Type}.
Implicit Types (d : Dict.dict V) (k : string) (v : V).

Lemma mem_get k d : Dict.mem k d = true <-> exists v, Dict.get k d = Some v.
Proof.
  unfold Dict.mem. destruct (Dict.get k d) as [v|]; split.
  - intros _. now exists v.
  - reflexivity.
  - discriminate.
  - intros [v Hv]. discriminate.
Qed.

Lemma mem_false_get k d : Dict.mem k d = false <-> Dict.get k d = None.
Proof.
  unfold Dict.mem. destruct (Dict.get k d); split; congruence.
Qed.

Lemma set_fresh k v d : Dict.mem k d = false -> Dict.set k v d = d ++ [(k, v)].
Proof.
  rewrite mem_false_get.
  induction d as [|[k' v'] d IH]; simpl; intros H; [reflexivity|].
  destruct (String.eqb k k'); [discriminate|].
  now rewrite IH.
Qed.

Lemma get_set_same k v d : Dict.get k (Dict.set k v d) = Some v.
Proof.
  induction d as [|[k' v'] d IH]; simpl.
  - now rewrite String.eqb_refl.
  - destruct (String.eqb k k') eqn:E; simpl.
    + now rewrite String.eqb_refl.
    + now rewrite E.
Qed.

Lemma get_adjust_same f k d :
  Dict.get k (Dict.adjust f k d) = option_map f (Dict.get k d).
Proof.
  induction d as [|[k' v'] d IH]; simpl; [reflexivity|].
  destruct (String.eqb k k') eqn:E; simpl; now rewrite E.
Qed.

Lemma get_adjust_other f k k' d :
  k' <> k -> Dict.get k' (Dict.adjust f k d) = Dict.get k' d.
Proof.
  intros Hne. induction d as [|[k0 v0] d IH]; simpl; [reflexivity|].
  destruct (String.eqb_spec k k0) as [<-|E]; simpl.
  - apply String.eqb_neq in Hne. now rewrite Hne.
  - now rewrite IH.
Qed.

Lemma keys_adjust f k d : Dict.keys (Dict.adjust f k d) = Dict.keys d.
Proof.
  unfold Dict.keys.
  induction d as [|[k0 v0] d IH]; simpl; [reflexivity|].
  destruct (String.eqb k k0); simpl; [reflexivity | now rewrite IH].
Qed.

Lemma mem_adjust f k k' d : Dict.mem k' (Dict.adjust f k d) = Dict.mem k' d.
Proof.
  unfold Dict.mem.
  destruct (String.eqb_spec k' k) as [->|Hne].
  - rewrite get_adjust_same. now destruct (Dict.get k d).
  - now rewrite get_adjust_other.
Qed.

Lemma all_values_set (P : V -> Prop) k v d :
  P v -> Dict.all_values P d -> Dict.all_values P (Dict.set k v d).
Proof.
  intros Hv. unfold Dict.all_values.
  induction d as [|[k' v'] d IH]; simpl; intros Hd.
  - now constructor.
  - inversion Hd; subst. destruct (String.eqb k k'); constructor; auto.
Qed.

Lemma all_values_adjust (P : V -> Prop) f k d :
  (forall v, P v -> P (f v)) -> Dict.all_values P d -> Dict.all_values P (Dict.adjust f k d).
Proof.
  intros Hf. unfold Dict.all_values.
  induction d as [|[k' v'] d IH]; simpl; intros Hd; [constructor|].
  inversion Hd; subst. destruct (String.eqb k k'); constructor; simpl; auto.
Qed.

Lemma all_values_del (P : V -> Prop) k d :
  Dict.all_values P d -> Dict.all_values P (Dict.del k d).
Proof.
  unfold Dict.all_values.
  induction d as [|[k' v'] d IH]; simpl; intros Hd; [constructor|].
  inversion Hd; subst. destruct (String.eqb k k'); [assumption|constructor; auto].
Qed.

Lemma all_values_get (P : V -> Prop) k v d :
  Dict.all_values P d -> Dict.get k d = Some v -> P v.
Proof.
  unfold Dict.all_values.
  induction d as [|[k' v'] d IH]; simpl; intros Hd Hg; [discriminate|].
  inversion Hd; subst. destruct (String.eqb k k'); [|auto].
  injection Hg as <-. assumption.
Qed.

Lemma keys_set k v d :
  Dict.keys (Dict.set k v d) =
  if Dict.mem k d then Dict.keys d else Dict.keys d ++ [k].
Proof.
  unfold Dict.keys, Dict.mem.
  induction d as [|[k' v'] d IH]; simpl; [reflexivity|].
  destruct (String.eqb_spec k k') as [->|Hne]; simpl; [reflexivity|].
  rewrite IH. now destruct (Dict.get k d).
Qed.

Lemma mem_in_keys k d : Dict.mem k d = true <-> In k (Dict.keys d).
Proof.
  unfold Dict.keys, Dict.mem.
  induction d as [|[k' v'] d IH]; simpl; [split; [discriminate|contradiction]|].
  destruct (String.eqb_spec k k') as [->|Hne].
  - split; [now left|reflexivity].
  - rewrite IH. split; [now right|]. intros [Heq|Hin]; [congruence|assumption].
Qed.

Lemma nodup_set k v d : NoDup (Dict.keys d) -> NoDup (Dict.keys (Dict.set k v d)).
Proof.
  intros Hnd. rewrite keys_set.
  destruct (Dict.mem k d) eqn:M; [assumption|].
  apply NoDup_app; [assumption|repeat constructor; intros []|].
  intros k' Hin [<-|[]]. apply mem_in_keys in Hin. congruence.
Qed.

Lemma keys_del_incl k d : incl (Dict.keys (Dict.del k d)) (Dict.keys d).
Proof.
  unfold Dict.keys.
  induction d as [|[k' v'] d IH]; simpl; [apply incl_refl|].
  destruct (String.eqb k k'); simpl.
  - apply incl_tl, incl_refl.
  - intros x [<-|Hin]; [now left|right; now apply IH].
Qed.

Lemma nodup_del k d : NoDup (Dict.keys d) -> NoDup (Dict.keys (Dict.del k d)).
Proof.
  induction d as [|[k' v'] d IH]; simpl; intros Hnd; [constructor|].
  inversion Hnd as [|? ? Hnotin Hnd']; subst.
  destruct (String.eqb k k'); simpl; [assumption|].
  constructor; [|now apply IH].
  intros Hin. apply Hnotin. exact (keys_del_incl k d k' Hin).
Qed.

Lemma in_keys k v d : In (k, v) d -> In k (Dict.keys d).
Proof. intros H. unfold Dict.keys. change k with (fst (k, v)). now apply in_map. Qed.

Lemma in_get_nodup k v d :
  NoDup (Dict.keys d) -> In (k, v) d -> Dict.get k d = Some v.
Proof.
  unfold Dict.keys.
  induction d as [|[k' v'] d IH]; simpl; intros Hnd Hin; [contradiction|].
  inversion Hnd as [|? ? Hnotin Hnd']; subst.
  destruct Hin as [[= -> ->]|Hin].
  - now rewrite String.eqb_refl.
  - destruct (String.eqb_spec k k') as [->|Hne]; [|now apply IH].
    exfalso. apply Hnotin. exact (in_keys _ _ _ Hin).
Qed.

End WithValue.
End DictFacts.

(* ------------------------------------------------------------------ *)
(** ** Zone index *)

Module ZoneFacts.
Import Geometry ZoneManager.

Section Locate.
Variable contains : Polygon -> Point -> bool.

Lemma locate_some (zones : Zones) pt zid :
  check_point_in_zones contains zones pt = Some zid <->
  exists before zone rest,
    zones = before ++ (zid, zone) :: rest /\
    alert_enabled zone = true /\
    contains (polygon zone) pt = true /\
    no_match contains before pt.
Proof.
  induction zones as [|[k z] zones IH]; simpl.
  - split; [discriminate|]. intros (b & z & r & H & _). now destruct b.
  - destruct (alert_enabled z) eqn:En; simpl;
      [destruct (contains (polygon z) pt) eqn:C|].
    + split.
      * intros [= <-]. exists [], z, zones. repeat split; auto.
        intros ? ? [].
      * intros (b & z' & r & H & En' & C' & Hb).
        destruct b as [|[k0 z0] b]; simpl in H.
        -- now injection H as -> _ _.
        -- injection H as -> -> _.
           specialize (Hb k0 z0 (or_introl eq_refl) En). congruence.
    + rewrite IH. split.
      * intros (b & z' & r & -> & En' & C' & Hb).
        exists ((k, z) :: b), z', r. repeat split; auto.
        intros k0 z0 [[= <- <-]|Hin] E0; [assumption|eauto].
      * intros (b & z' & r & H & En' & C' & Hb).
        destruct b as [|[k0 z0] b]; simpl in H.
        -- injection H as -> -> _. congruence.
        -- injection H as -> -> ->. exists b, z', r. repeat split; auto.
           intros k1 z1 Hin. apply (Hb k1 z1). now right.
    + rewrite IH. split.
      * intros (b & z' & r & -> & En' & C' & Hb).
        exists ((k, z) :: b), z', r. repeat split; auto.
        intros k0 z0 [[= <- <-]|Hin] E0; [congruence|eauto].
      * intros (b & z' & r & H & En' & C' & Hb).
        destruct b as [|[k0 z0] b]; simpl in H.
        -- injection H as -> -> _. congruence.
        -- injection H as -> -> ->. exists b, z', r. repeat split; auto.
           intros k1 z1 Hin. apply (Hb k1 z1). now right.
Qed.

Lemma locate_none (zones : Zones) pt :
  check_point_in_zones contains zones pt = None <-> no_match contains zones pt.
Proof.
  unfold no_match.
  induction zones as [|[k z] zones IH]; simpl.
  - split; [intros _ ? ? []|reflexivity].
  - destruct (alert_enabled z) eqn:En; simpl;
      [destruct (contains (polygon z) pt) eqn:C|].
    + split; [discriminate|].
      intros H. specialize (H k z (or_introl eq_refl) En). congruence.
    + rewrite IH. split.
      * intros H k0 z0 [[= <- <-]|Hin]; eauto.
      * intros H k0 z0 Hin. apply (H k0 z0). now right.
    + rewrite IH. split.
      * intros H k0 z0 [[= <- <-]|Hin]; [congruence|eauto].
      * intros H k0 z0 Hin. apply (H k0 z0). now right.
Qed.

Lemma locate_ignores_disabled (zones : Zones) pt :
  check_point_in_zones contains zones pt =
  check_point_in_zones contains (filter (fun kz => alert_enabled (snd kz)) zones) pt.
Proof.
  induction zones as [|[k z] zones IH]; simpl; [reflexivity|].
  destruct (alert_enabled z) eqn:En; simpl; [|assumption].
  rewrite En. simpl. now rewrite IH.
Qed.

End Locate.

Lemma add_zone_appends zid nm pts col en (zones zones' : Zones) :
  add_zone zid nm pts col en zones = (true, zones') ->
  zones' = zones ++ [(zid, mkZone nm (mkPolygon pts) pts col en)].
Proof.
  unfold add_zone.
  destruct (Dict.mem zid zones) eqn:M; simpl; [discriminate|].
  destruct (List.length pts <? 3)%nat; [discriminate|].
  intros [= <-]. now apply DictFacts.set_fresh.
Qed.

(** C1: [check_point_in_zones] walks the table in insertion order and
    returns the id of the first zone that is alert-enabled and whose
    polygon contains the point; a disabled zone is never returned and
    takes no part in the search; the result is [None] exactly when no
    enabled zone contains the point.  A zone added under a new id goes
    last in that order.  For the square (0,0) (0,10) (10,10) (10,0) the
    point (5,5) is matched and (15,15) is not, and with alerts disabled no
    point is matched. *)
Theorem check_point_in_zones_first_enabled_match :
  (forall contains (zones : Zones) pt zid,
      check_point_in_zones contains zones pt = Some zid <->
      exists before zone rest,
        zones = before ++ (zid, zone) :: rest /\
        alert_enabled zone = true /\
        contains (polygon zone) pt = true /\
        no_match contains before pt)
  /\ (forall contains (zones : Zones) pt,
      check_point_in_zones contains zones pt = None <->
      no_match contains zones pt)
  /\ (forall contains (zones : Zones) pt,
      check_point_in_zones contains zones pt =
      check_point_in_zones contains
        (filter (fun kz => alert_enabled (snd kz)) zones) pt)
  /\ (forall zid nm pts col en (zones zones' : Zones),
      add_zone zid nm pts col en zones = (true, zones') ->
      zones' = zones ++ [(zid, mkZone nm (mkPolygon pts) pts col en)])
  /\ check_point_in_zones polygon_contains (init (square_config (Some true)))
       (5, 5)%Z = Some "z1"%string
  /\ check_point_in_zones polygon_contains (init (square_config None))
       (5, 5)%Z = Some "z1"%string
  /\ check_point_in_zones polygon_contains (init (square_config (Some true)))
       (15, 15)%Z = None
  /\ (forall pt,
      check_point_in_zones polygon_contains (init (square_config (Some false)))
        pt = None).
Proof.
  split; [exact locate_some|].
  split; [exact locate_none|].
  split; [exact locate_ignores_disabled|].
  split; [exact add_zone_appends|].
  repeat split; reflexivity.
Qed.

(** *** The three-vertex invariant *)

Lemma well_formed_built nm pts col en :
  (3 <= List.length pts)%nat -> well_formed (mkZone nm (mkPolygon pts) pts col en).
Proof. intros H; split; exact H. Qed.

Lemma load_zones_ok cfg : forall zones, zones_ok zones -> zones_ok (load_zones cfg zones).
Proof.
  induction cfg as [|[zid zd] cfg IH]; simpl; intros zones Hz; [assumption|].
  destruct (Nat.ltb_spec (List.length (get_default (cfg_points zd) [])) 3) as [Hlt|Hge].
  - now apply IH.
  - apply IH. apply DictFacts.all_values_set; [|assumption].
    now apply well_formed_built.
Qed.

Lemma load_zones_skips_short cfg : forall zones,
  load_zones cfg zones =
  load_zones
    (filter (fun kz => (3 <=? List.length (get_default (cfg_points (snd kz)) []))%nat) cfg)
    zones.
Proof.
  induction cfg as [|[zid zd] cfg IH]; intros zones; [reflexivity|].
  cbn [load_zones filter snd].
  destruct (Nat.ltb_spec (List.length (get_default (cfg_points zd) [])) 3) as [Hlt|Hge].
  - apply Nat.leb_gt in Hlt. rewrite Hlt. apply IH.
  - pose proof Hge as Hge'. apply Nat.leb_le in Hge'. rewrite Hge'.
    cbn [load_zones]. apply Nat.ltb_ge in Hge. rewrite Hge. apply IH.
Qed.

Lemma add_zone_ok zid nm pts col en zones :
  zones_ok zones -> zones_ok (snd (add_zone zid nm pts col en zones)).
Proof.
  intros Hz. unfold add_zone.
  destruct (Dict.mem zid zones); simpl; [assumption|].
  destruct (Nat.ltb_spec (List.length pts) 3); simpl; [assumption|].
  apply DictFacts.all_values_set; [now apply well_formed_built|assumption].
Qed.

Lemma update_zone_ok zid pts en col zones :
  zones_ok zones -> zones_ok (snd (update_zone zid pts en col zones)).
Proof.
  intros Hz. unfold update_zone.
  destruct (Dict.mem zid zones); simpl; [|assumption].
  assert (H1 : zones_ok
    match pts with
    | Some p =>
        if (3 <=? List.length p)%nat
        then Dict.adjust (set_polygon (mkPolygon p)) zid
               (Dict.adjust (set_points p) zid zones)
        else zones
    | None => zones
    end).
  { destruct pts as [p|]; [|assumption].
    destruct (Nat.leb_spec 3 (List.length p)); [|assumption].
    apply DictFacts.all_values_adjust.
    - intros z [Hp _]. split; assumption.
    - apply DictFacts.all_values_adjust; [|assumption].
      intros z [_ Hq]. split; assumption. }
  destruct en as [b|], col as [c|];
    repeat (apply DictFacts.all_values_adjust; [intros z Hw; exact Hw|]);
    exact H1.
Qed.

Lemma remove_zone_ok zid zones :
  zones_ok zones -> zones_ok (snd (remove_zone zid zones)).
Proof.
  intros Hz. unfold remove_zone.
  destruct (Dict.mem zid zones); simpl; [|assumption].
  now apply DictFacts.all_values_del.
Qed.

Lemma add_zone_rejects_short zid nm pts col en zones :
  (List.length pts < 3)%nat -> add_zone zid nm pts col en zones = (false, zones).
Proof.
  intros H. unfold add_zone. apply Nat.ltb_lt in H. rewrite H.
  now rewrite orb_true_r.
Qed.

Lemma update_zone_drops_short zid p en col zones :
  (List.length p < 3)%nat ->
  update_zone zid (Some p) en col zones = update_zone zid None en col zones.
Proof.
  intros H. unfold update_zone. apply Nat.leb_gt in H. now rewrite H.
Qed.

(** C6: every zone held by the table has at least three vertices (in its
    point list and in its polygon).  The table built by the constructor
    has the property, and [load_zones], [add_zone], [update_zone] and
    [remove_zone] keep it.  [load_zones] skips exactly the configured
    zones with fewer than three points and loads the others, [add_zone]
    refuses a point list of fewer than three points and leaves the table
    alone, and [update_zone] treats such a list as if no points were
    given. *)
Theorem zone_table_keeps_three_vertices :
  (forall cfg, zones_ok (init cfg))
  /\ (forall cfg zones, zones_ok zones -> zones_ok (load_zones cfg zones))
  /\ (forall zid nm pts col en zones,
        zones_ok zones -> zones_ok (snd (add_zone zid nm pts col en zones)))
  /\ (forall zid pts en col zones,
        zones_ok zones -> zones_ok (snd (update_zone zid pts en col zones)))
  /\ (forall zid zones,
        zones_ok zones -> zones_ok (snd (remove_zone zid zones)))
  /\ (forall cfg zones,
        load_zones cfg zones =
        load_zones
          (filter (fun kz =>
             (3 <=? List.length (get_default (cfg_points (snd kz)) []))%nat) cfg)
          zones)
  /\ (forall zid nm pts col en zones,
        (List.length pts < 3)%nat ->
        add_zone zid nm pts col en zones = (false, zones))
  /\ (forall zid p en col zones,
        (List.length p < 3)%nat ->
        update_zone zid (Some p) en col zones = update_zone zid None en col zones).
Proof.
  split; [intros cfg; apply load_zones_ok; constructor|].
  split; [intros cfg zones; apply load_zones_ok|].
  split; [exact add_zone_ok|].
  split; [exact update_zone_ok|].
  split; [exact remove_zone_ok|].
  split; [exact load_zones_skips_short|].
  split; [exact add_zone_rejects_short|exact update_zone_drops_short].
Qed.

(** *** Keys stay unique, as in any dictionary *)

Lemma load_zones_keys_unique cfg : forall zones,
  NoDup (Dict.keys zones) -> NoDup (Dict.keys (load_zones cfg zones)).
Proof.
  induction cfg as [|[zid zd] cfg IH]; simpl; intros zones Hnd; [assumption|].
  destruct (List.length (get_default (cfg_points zd) []) <? 3)%nat.
  - now apply IH.
  - apply IH. now apply DictFacts.nodup_set.
Qed.

Lemma zone_table_keys_unique :
  (forall cfg, NoDup (Dict.keys (init cfg)))
  /\ (forall zid nm pts col en zones,
        NoDup (Dict.keys zones) ->
        NoDup (Dict.keys (snd (add_zone zid nm pts col en zones))))
  /\ (forall zid pts en col zones,
        NoDup (Dict.keys zones) ->
        NoDup (Dict.keys (snd (update_zone zid pts en col zones))))
  /\ (forall zid zones,
        NoDup (Dict.keys zones) ->
        NoDup (Dict.keys (snd (remove_zone zid zones)))).
Proof.
  split; [intros cfg; apply load_zones_keys_unique; constructor|].
  split; [|split].
  - intros zid nm pts col en zones Hnd. unfold add_zone.
    destruct (Dict.mem zid zones || (List.length pts <? 3)%nat); simpl;
      [assumption|now apply DictFacts.nodup_set].
  - intros zid pts en col zones Hnd. unfold update_zone.
    destruct (Dict.mem zid zones); cbn [negb snd]; [|assumption].
    destruct pts as [p|], en, col; try destruct (3 <=? List.length p)%nat;
      cbn [snd]; rewrite ?DictFacts.keys_adjust; assumption.
  - intros zid zones Hnd. unfold remove_zone.
    destruct (Dict.mem zid zones); simpl;
      [now apply DictFacts.nodup_del|assumption].
Qed.

(** *** [update_zone] *)

Lemma update_zone_unknown zid pts en col zones :
  Dict.mem zid zones = false -> update_zone zid pts en col zones = (false, zones).
Proof. intros H. unfold update_zone. now rewrite H. Qed.

(** The table after an accepted update of the points. *)
Lemma update_zone_points_table zid p en col zones :
  Dict.mem zid zones = true -> (3 <= List.length p)%nat ->
  exists zones',
    update_zone zid (Some p) en col zones = (true, zones') /\
    Dict.keys zones' = Dict.keys zones /\
    (exists z', Dict.get zid zones' = Some z' /\
                polygon z' = mkPolygon p /\ points z' = p) /\
    (forall k, k <> zid -> Dict.get k zones' = Dict.get k zones).
Proof.
  intros Hmem Hlen. unfold update_zone. rewrite Hmem. simpl negb. cbv iota.
  apply Nat.leb_le in Hlen. rewrite Hlen.
  apply DictFacts.mem_get in Hmem. destruct Hmem as [z Hz].
  eexists. split; [reflexivity|]. split; [|split].
  - destruct en, col; now rewrite ?DictFacts.keys_adjust.
  - destruct en, col; rewrite ?DictFacts.get_adjust_same, Hz; simpl;
      eexists; (split; [reflexivity|]); split; reflexivity.
  - intros k Hk. destruct en, col; now rewrite ?DictFacts.get_adjust_other by assumption.
Qed.

Lemma locate_returns_stored contains (zones : Zones) pt zid z :
  NoDup (Dict.keys zones) ->
  check_point_in_zones contains zones pt = Some zid ->
  Dict.get zid zones = Some z ->
  alert_enabled z = true /\ contains (polygon z) pt = true.
Proof.
  intros Hnd Hloc Hget.
  apply locate_some in Hloc. destruct Hloc as (b & z0 & r & Heq & En & C & _).
  assert (Hin : In (zid, z0) zones) by (rewrite Heq; apply in_elt).
  rewrite (DictFacts.in_get_nodup _ _ _ Hnd Hin) in Hget.
  injection Hget as <-. now split.
Qed.

(** C7, as the code has it: [update_zone] fails on an unknown id and leaves
    the table alone; on a known id, a points argument of at least three
    points replaces both the stored point list and the polygon by exactly
    those points, in place (same keys, same order, other zones untouched),
    so that a later [check_point_in_zones] returns that id only for a point
    the new polygon contains.  After add("z1", triangle (0,0) (0,10)
    (10,10)) and update to (0,0) (0,20) (20,20), the point (5,15) is
    located in "z1" though it was not before. *)
Theorem update_zone_rebuilds_polygon_from_three_or_more :
  (forall zid pts en col zones,
      Dict.mem zid zones = false ->
      update_zone zid pts en col zones = (false, zones))
  /\ (forall zid p en col zones,
      NoDup (Dict.keys zones) ->
      Dict.mem zid zones = true -> (3 <= List.length p)%nat ->
      exists zones',
        update_zone zid (Some p) en col zones = (true, zones') /\
        Dict.keys zones' = Dict.keys zones /\
        (exists z', Dict.get zid zones' = Some z' /\
                    polygon z' = mkPolygon p /\ points z' = p) /\
        (forall k, k <> zid -> Dict.get k zones' = Dict.get k zones) /\
        (forall contains pt,
            check_point_in_zones contains zones' pt = Some zid ->
            contains (mkPolygon p) pt = true))
  /\ check_point_in_zones polygon_contains triangle_zones (5, 15)%Z = None
  /\ fst (update_zone "z1" (Some large_triangle) None None triangle_zones) = true
  /\ check_point_in_zones polygon_contains
       (snd (update_zone "z1" (Some large_triangle) None None triangle_zones))
       (5, 15)%Z = Some "z1"%string.
Proof.
  split; [exact update_zone_unknown|].
  split; [|repeat split; reflexivity].
  intros zid p en col zones Hnd Hmem Hlen.
  destruct (update_zone_points_table zid p en col zones Hmem Hlen)
    as (zones' & Hupd & Hkeys & (z' & Hget & Hpoly & Hpts) & Hother).
  exists zones'. repeat split; try assumption.
  - exists z'. now repeat split.
  - intros contains pt Hloc.
    rewrite <- Hkeys in Hnd.
    destruct (locate_returns_stored contains zones' pt zid z' Hnd Hloc Hget) as [_ C].
    now rewrite Hpoly in C.
Qed.

Lemma update_zone_rebuilds_polygon_witness :
  NoDup (Dict.keys triangle_zones) /\
  Dict.mem "z1" triangle_zones = true /\
  (3 <= List.length large_triangle)%nat /\
  exists zones',
    update_zone "z1" (Some large_triangle) None None triangle_zones = (true, zones') /\
    Dict.keys zones' = Dict.keys triangle_zones /\
    (exists z', Dict.get "z1" zones' = Some z' /\
                polygon z' = mkPolygon large_triangle /\ points z' = large_triangle) /\
    (forall k, k <> "z1"%string -> Dict.get k zones' = Dict.get k triangle_zones) /\
    (forall contains pt,
        check_point_in_zones contains zones' pt = Some "z1"%string ->
        contains (mkPolygon large_triangle) pt = true).
Proof.
  assert (Hnd : NoDup (Dict.keys triangle_zones))
    by (repeat constructor; simpl; tauto).
  assert (Hlen : (3 <= List.length large_triangle)%nat) by (simpl; lia).
  split; [exact Hnd|]. split; [reflexivity|]. split; [exact Hlen|].
  exact (proj1 (proj2 update_zone_rebuilds_polygon_from_three_or_more)
           "z1"%string large_triangle None None triangle_zones
           Hnd eq_refl Hlen).
Defined.

(** The claim C7 as worded fails for a points argument of fewer than three
    points: on the table holding "z1" with the triangle (0,0) (0,10)
    (10,10), [update_zone("z1", points=[[0,0],[0,20]])] reports success,
    yet the polygon is not rebuilt from the two points: the table is
    unchanged and the old triangle still answers [check_point_in_zones]. *)
Lemma update_zone_two_points_not_installed :
  Dict.mem "z1" triangle_zones = true
  /\ update_zone "z1" (Some two_points) None None triangle_zones
     = (true, triangle_zones)
  /\ option_map polygon
       (Dict.get "z1"
          (snd (update_zone "z1" (Some two_points) None None triangle_zones)))
     = Some (mkPolygon small_triangle)
  /\ mkPolygon small_triangle <> mkPolygon two_points
  /\ check_point_in_zones polygon_contains
       (snd (update_zone "z1" (Some two_points) None None triangle_zones))
       (2, 8)%Z = Some "z1"%string.
Proof.
  repeat split; try reflexivity. discriminate.
Qed.

(** C9: on a known id, [update_zone] with a points list of fewer than
    three elements and no other argument returns [True] and leaves the
    whole table as it was: the stored points, polygon, colour and
    alert flag of the zone (and of every other zone) are unchanged. *)
Theorem update_zone_short_points_ignored :
  forall zid p (zones : Zones),
    Dict.mem zid zones = true -> (List.length p < 3)%nat ->
    update_zone zid (Some p) None None zones = (true, zones).
Proof.
  intros zid p zones Hmem Hlen. unfold update_zone.
  rewrite Hmem. apply Nat.leb_gt in Hlen. now rewrite Hlen.
Qed.

Lemma update_zone_short_points_ignored_witness :
  Dict.mem "z1" triangle_zones = true /\
  (List.length two_points < 3)%nat /\
  update_zone "z1" (Some two_points) None None triangle_zones
  = (true, triangle_zones).
Proof.
  split; [reflexivity|]. split; [simpl; lia|].
  apply (update_zone_short_points_ignored "z1" two_points triangle_zones).
  - reflexivity.
  - simpl; lia.
Defined.

End ZoneFacts.

(* ------------------------------------------------------------------ *)
(** ** Bounded queues *)

Module QueueFacts.
Import BoundedQueue.

Section WithItem.
Context {A : Type}.
Implicit Types (q : Queue A) (x : A) (xs : list A).

Lemma put_nowait_full x q :
  (0 < maxsize q)%Z -> (maxsize q <= Z.of_nat (qsize q))%Z ->
  put_nowait x q = None.
Proof.
  intros Hpos Hfull. unfold put_nowait.
  apply Z.ltb_lt in Hpos. apply Z.leb_le in Hfull.
  now rewrite Hpos, Hfull.
Qed.

Lemma put_nowait_room x q :
  (Z.of_nat (qsize q) < maxsize q)%Z ->
  put_nowait x q = Some (mkQueue (maxsize q) (items q ++ [x])).
Proof.
  intros Hroom. unfold put_nowait.
  apply Z.leb_gt in Hroom. rewrite Hroom. now rewrite andb_false_r.
Qed.

(** A queue without bound ([maxsize <= 0]) takes every item. *)
Lemma put_nowait_unbounded x q :
  (maxsize q <= 0)%Z ->
  put_nowait x q = Some (mkQueue (maxsize q) (items q ++ [x])).
Proof.
  intros H. unfold put_nowait. apply Z.ltb_ge in H. now rewrite H.
Qed.

Lemma offer_all_contents xs : forall q,
  (0 < maxsize q)%Z -> (qsize q <= Z.to_nat (maxsize q))%nat ->
  offer_all xs q =
  mkQueue (maxsize q) (items q ++ firstn (Z.to_nat (maxsize q) - qsize q) xs).
Proof.
  unfold offer_all.
  induction xs as [|x xs IH]; intros [n l] Hpos Hle; simpl in *.
  - rewrite firstn_nil. now rewrite app_nil_r.
  - unfold put_or_drop at 2.
    destruct (Z.le_gt_cases n (Z.of_nat (List.length l))) as [Hfull|Hroom].
    + rewrite put_nowait_full by (simpl; assumption).
      rewrite IH by (simpl; assumption). simpl.
      unfold qsize; simpl.
      replace (Z.to_nat n - List.length l)%nat with 0%nat by lia.
      reflexivity.
    + rewrite put_nowait_room by (unfold qsize; simpl; lia).
      rewrite IH; simpl; unfold qsize; simpl; rewrite ?length_app; simpl; try lia.
      replace (Z.to_nat n - List.length l)%nat
        with (S (Z.to_nat n - (List.length l + 1)))%nat by lia.
      simpl. now rewrite <- app_assoc.
Qed.

Lemma offer_all_new (N : Z) xs :
  (0 < N)%Z -> offer_all xs (new A N) = mkQueue N (firstn (Z.to_nat N) xs).
Proof.
  intros Hpos. rewrite offer_all_contents; simpl; unfold qsize; simpl; try lia.
  now rewrite Nat.sub_0_r.
Qed.

End WithItem.

Lemma capture_frames_all_read cfg overflows frames :
  Pipeline.pacing_raises cfg overflows = false ->
  forall q count,
  Pipeline.capture_frames cfg overflows (map Pipeline.Got frames)
    (Pipeline.mkCaptureState q count true) =
  (Pipeline.mkCaptureState (offer_all frames q) (count + List.length frames) true,
   false).
Proof.
  intros Hpace.
  induction frames as [|f frames IH]; intros q count;
    cbn [map Pipeline.capture_frames Pipeline.running negb
         Pipeline.frame_queue Pipeline.frame_count].
  - cbn. now rewrite Nat.add_0_r.
  - rewrite Hpace, IH. cbn. do 2 f_equal. lia.
Qed.

(** C5: on a queue of capacity [N] (a positive [maxsize]; zero or less
    means no bound), starting empty and with nothing taken out, a producer
    offering any run of items has exactly the first [N] accepted: offer
    number [j] (from 0) is appended when [j < N]; when [j >= N] the put
    returns at once with [queue.Full], the item is dropped and the queue is
    left as it was.  So after [N + k] offers the queue holds the first [N]
    items, whatever [k].  The capture loop behaves so on its frame queue
    and goes on counting frames (as long as its pacing sleep, when one is
    configured, does not raise; when it does, the first frame has been
    offered and counted and the thread ends), and the inference stage does
    the same on the result queue. *)
Theorem full_queue_drops_new_items :
  forall (A : Type) (N : Z) (xs : list A),
    (0 < N)%Z ->
    offer_all xs (new A N) = mkQueue N (firstn (Z.to_nat N) xs)
    /\ (forall k, List.length xs = (Z.to_nat N + k)%nat ->
                  qsize (offer_all xs (new A N)) = Z.to_nat N)
    /\ (forall j x, nth_error xs j = Some x ->
          let q := offer_all (firstn j xs) (new A N) in
          if (j <? Z.to_nat N)%nat
          then put_nowait x q = Some (mkQueue N (firstn j xs ++ [x]))
          else put_nowait x q = None /\ put_or_drop x q = q)
    /\ (forall cfg overflows (frames : list Data.Frame) count,
          Pipeline.pacing_raises cfg overflows = false ->
          Pipeline.capture_frames cfg overflows (map Pipeline.Got frames)
            (Pipeline.mkCaptureState (new Data.Frame N) count true) =
          (Pipeline.mkCaptureState
             (mkQueue N (firstn (Z.to_nat N) frames))
             (count + List.length frames) true,
           false))
    /\ (forall cfg overflows (frame : Data.Frame) frames count,
          Pipeline.pacing_raises cfg overflows = true ->
          Pipeline.capture_frames cfg overflows
            (map Pipeline.Got (frame :: frames))
            (Pipeline.mkCaptureState (new Data.Frame N) count true) =
          (Pipeline.mkCaptureState (mkQueue N [frame]) (S count) true, true))
    /\ (forall results,
          Pipeline.publish_all results (new _ N)
          = mkQueue N (firstn (Z.to_nat N) results)).
Proof.
  intros A N xs Hpos.
  split; [now apply offer_all_new|].
  split; [|split; [|split; [|split]]].
  - intros k Hlen. rewrite offer_all_new by assumption.
    unfold qsize; simpl. rewrite length_firstn. lia.
  - intros j x Hj. cbv zeta. rewrite offer_all_new by assumption.
    assert (Hjlen : (j < List.length xs)%nat)
      by (apply nth_error_Some; congruence).
    destruct (Nat.ltb_spec j (Z.to_nat N)) as [Hlt|Hge].
    + rewrite firstn_firstn. replace (Nat.min (Z.to_nat N) j) with j by lia.
      rewrite put_nowait_room; [reflexivity|].
      unfold qsize; simpl. rewrite length_firstn. lia.
    + assert (Hnone : put_nowait x (mkQueue N (firstn (Z.to_nat N) (firstn j xs))) = None).
      { apply put_nowait_full; simpl; [assumption|].
        unfold qsize; simpl. rewrite firstn_firstn, length_firstn. lia. }
      split; [exact Hnone|]. unfold put_or_drop. now rewrite Hnone.
  - intros cfg overflows frames count Hpace.
    rewrite capture_frames_all_read by assumption.
    now rewrite offer_all_new by assumption.
  - intros cfg overflows frame frames count Hpace.
    cbn [map Pipeline.capture_frames Pipeline.running negb
         Pipeline.frame_queue Pipeline.frame_count].
    rewrite Hpace. do 2 f_equal.
    unfold put_or_drop. rewrite put_nowait_room; [reflexivity|].
    unfold qsize; simpl. lia.
  - intros results. exact (offer_all_new N results Hpos).
Qed.

Lemma full_queue_drops_new_items_witness :
  (0 < 2)%Z /\
  offer_all [10; 20; 30; 40; 50]%Z (new Z 2) = mkQueue 2 [10; 20]%Z.
Proof.
  split; [lia|].
  exact (proj1 (full_queue_drops_new_items Z 2 [10; 20; 30; 40; 50]%Z eq_refl)).
Defined.

End QueueFacts.

(* ------------------------------------------------------------------ *)
(** ** Performance monitor *)

Module MonitorFacts.
Import PerformanceMonitor.

Section Window.
Context {A : Type}.
Implicit Types (x : A) (d : deque A) (l xs : list A).



Lemma deque_append_bounded x d :
  (List.length (elems d) <= maxlen d)%nat ->
  (List.length (elems (deque_append x d)) <= maxlen d)%nat.
Proof.
  intros H. unfold deque_append; simpl.
  destruct (Nat.ltb_spec (maxlen d) (List.length (elems d ++ [x]))) as [Hlt|Hge];
    [|assumption].
  rewrite length_app in Hlt; simpl in Hlt.
  destruct (elems d ++ [x]) as [|y l] eqn:E; simpl; [lia|].
  apply (f_equal (@List.length A)) in E. rewrite length_app in E; simpl in E. lia.
Qed.





End Window.



End MonitorFacts.

(* ------------------------------------------------------------------ *)
(** ** Alert manager *)

Module AlertFacts.
Import Data AlertManager.

Lemma gate_closed t m :
  t - last_alert_time m < cooldown_seconds m ->
  exists H, Qlt_le_dec (t - last_alert_time m) (cooldown_seconds m) = left H.
Proof.
  intros Hlt.
  destruct (Qlt_le_dec (t - last_alert_time m) (cooldown_seconds m)) as [H|Hle];
    [now exists H|].
  exfalso. exact (Qlt_not_le _ _ Hlt Hle).
Qed.

Lemma gate_open t m :
  ~ t - last_alert_time m < cooldown_seconds m ->
  exists H, Qlt_le_dec (t - last_alert_time m) (cooldown_seconds m) = right H.
Proof.
  intros Hge.
  destruct (Qlt_le_dec (t - last_alert_time m) (cooldown_seconds m)) as [Hlt|H];
    [contradiction|now exists H].
Qed.

Lemma send_alert_disabled host frame dets t stamp m :
  enabled m = false ->
  send_alert host frame dets t stamp m = mkOutcome (Returned false) [] m.
Proof. intros H. unfold send_alert. now rewrite H. Qed.

Lemma send_alert_cooling host frame dets t stamp m :
  enabled m = true -> t - last_alert_time m < cooldown_seconds m ->
  send_alert host frame dets t stamp m =
  mkOutcome (Returned false)
    [LockAcquire; TimeRead t; LastAlertRead (last_alert_time m); LockRelease] m.
Proof.
  intros He Hlt. unfold send_alert. rewrite He. cbn [negb].
  destruct (gate_closed t m Hlt) as [H ->]. reflexivity.
Qed.

Lemma send_alert_dispatch host frame dets t stamp m :
  enabled m = true -> ~ t - last_alert_time m < cooldown_seconds m ->
  raising_step host frame m = None ->
  send_alert host frame dets t stamp m =
  mkOutcome (Returned true)
    ([LockAcquire; TimeRead t; LastAlertRead (last_alert_time m); LastAlertSet t;
      ImWrite (img_path m stamp) frame; JsonDump (meta_path m stamp) dets]
     ++ channel_starts m stamp dets ++ [LockRelease])
    (set_last_alert_time t m).
Proof.
  intros He Hge Hnone. unfold send_alert. rewrite He. cbn [negb].
  destruct (gate_open t m Hge) as [H ->].
  unfold raising_step in Hnone. unfold channel_starts.
  destruct (imwrite_raises host || empty_image frame); [discriminate|].
  destruct (record_raises host); [discriminate|].
  destruct (email_enabled m && start_raises host Email); [discriminate|].
  destruct (telegram_enabled m && start_raises host Telegram); [discriminate|].
  cbn [app]. f_equal. now rewrite <- app_assoc.
Qed.

Lemma send_alert_raising host frame dets t stamp m step :
  enabled m = true -> ~ t - last_alert_time m < cooldown_seconds m ->
  raising_step host frame m = Some step ->
  send_alert host frame dets t stamp m =
  mkOutcome (Exception step)
    ([LockAcquire; TimeRead t; LastAlertRead (last_alert_time m); LastAlertSet t]
     ++ done_before step frame dets stamp m ++ [Raise step; LockRelease])
    (set_last_alert_time t m).
Proof.
  intros He Hge Hstep. unfold send_alert. rewrite He. cbn [negb].
  destruct (gate_open t m Hge) as [H ->].
  unfold raising_step in Hstep.
  destruct (imwrite_raises host || empty_image frame);
    [injection Hstep as <-; reflexivity|].
  destruct (record_raises host); [injection Hstep as <-; reflexivity|].
  destruct (email_enabled m && start_raises host Email);
    [injection Hstep as <-; reflexivity|].
  destruct (telegram_enabled m && start_raises host Telegram);
    [|discriminate].
  injection Hstep as <-. cbn [done_before app].
  now destruct (email_enabled m).
Qed.

Lemma filter_channel_starts (f : Event -> bool) m stamp dets :
  (forall ch p d, f (ThreadStart ch p d) = false) ->
  filter f (channel_starts m stamp dets) = [].
Proof.
  intros Hf. unfold channel_starts.
  destruct (email_enabled m), (telegram_enabled m); simpl; now rewrite ?Hf.
Qed.

Lemma effects_channel_starts held m stamp dets rest :
  effects_with_lock held (channel_starts m stamp dets ++ rest) =
  map (fun e => (e, held)) (channel_starts m stamp dets)
  ++ effects_with_lock held rest.
Proof.
  unfold channel_starts.
  destruct (email_enabled m), (telegram_enabled m); reflexivity.
Qed.

(** While the lock is held and until it is released, every event is seen
    with the lock held. *)
Lemma effects_no_lock_op held evs rest :
  forallb (fun e => negb (is_lock_op e)) evs = true ->
  effects_with_lock held (evs ++ rest)
  = map (fun e => (e, held)) evs ++ effects_with_lock held rest.
Proof.
  induction evs as [|e evs IH]; intros H; [reflexivity|].
  cbn [forallb] in H. apply andb_prop in H as [He Hevs].
  destruct e; try discriminate; cbn [app effects_with_lock map];
    now rewrite IH.
Qed.

Lemma done_before_no_lock_op step frame dets stamp m :
  forallb (fun e => negb (is_lock_op e)) (done_before step frame dets stamp m)
  = true.
Proof. destruct step as [| |[|]]; cbn; now destruct (email_enabled m). Qed.

Lemma channel_starts_no_lock_op m stamp dets :
  forallb (fun e => negb (is_lock_op e)) (channel_starts m stamp dets) = true.
Proof.
  unfold channel_starts. now destruct (email_enabled m), (telegram_enabled m).
Qed.

(** C10: with the global [enabled] flag false, [send_alert] returns [False]
    at once for every frame, detection list and clock reading, whatever
    the host would do: the manager (and with it [last_alert_time]) is
    unchanged and the call has no event at all: no image or metadata
    write, no thread start, not even the lock or the clock. *)
Theorem send_alert_disabled_is_noop :
  forall host frame dets t stamp m,
    enabled m = false ->
    result (send_alert host frame dets t stamp m) = Returned false
    /\ after (send_alert host frame dets t stamp m) = m
    /\ events (send_alert host frame dets t stamp m) = [].
Proof.
  intros host frame dets t stamp m H. rewrite send_alert_disabled by assumption.
  repeat split.
Qed.

Lemma send_alert_disabled_is_noop_witness :
  enabled disabled_manager = false
  /\ result (send_alert no_image sample_frame sample_detections 100000 "s"
               disabled_manager) = Returned false
  /\ after (send_alert no_image sample_frame sample_detections 100000 "s"
              disabled_manager)
     = disabled_manager
  /\ events (send_alert no_image sample_frame sample_detections 100000 "s"
               disabled_manager) = [].
Proof.
  split; [reflexivity|].
  apply (send_alert_disabled_is_noop no_image sample_frame sample_detections
           100000 "s" disabled_manager).
  reflexivity.
Defined.

(** C2, as the code has it: when alerts are enabled, [send_alert] returns
    [False] with the manager unchanged and nothing persisted or started
    whenever [now - last_alert_time < cooldown_seconds]; otherwise it sets
    [last_alert_time] to [now] (nothing else of the manager changes) and
    goes on to write the image and the detections record and to start the
    sender threads: when none of these steps raises, exactly the image and
    the record are persisted and the call returns [True]; when one raises,
    the exception reaches the caller, with [last_alert_time] already set.
    With alerts enabled, a cooldown of 60, a first attempt at a clock
    reading [T] at least 60 after [last_alert_time] and no step raising,
    attempts at [T], [T + 30] and [T + 61] return true, false, true, and
    exactly 2 alert events are persisted. *)
Theorem send_alert_cooldown_gate_when_enabled :
  (forall host frame dets t stamp m,
      enabled m = true ->
      t - last_alert_time m < cooldown_seconds m ->
      result (send_alert host frame dets t stamp m) = Returned false
      /\ after (send_alert host frame dets t stamp m) = m
      /\ filter is_persist (events (send_alert host frame dets t stamp m)) = []
      /\ filter is_thread_start (events (send_alert host frame dets t stamp m))
         = [])
  /\ (forall host frame dets t stamp m,
      enabled m = true ->
      ~ t - last_alert_time m < cooldown_seconds m ->
      after (send_alert host frame dets t stamp m) = set_last_alert_time t m
      /\ last_alert_time (after (send_alert host frame dets t stamp m)) = t
      /\ (raising_step host frame m = None ->
          result (send_alert host frame dets t stamp m) = Returned true
          /\ filter is_persist (events (send_alert host frame dets t stamp m))
             = [ImWrite (img_path m stamp) frame;
                JsonDump (meta_path m stamp) dets])
      /\ (forall step,
          raising_step host frame m = Some step ->
          result (send_alert host frame dets t stamp m) = Exception step))
  /\ (forall host frame dets T m,
      enabled m = true -> cooldown_seconds m = 60 ->
      60 <= T - last_alert_time m ->
      raising_step host frame m = None ->
      map result (send_alerts frame dets (three_attempts host T) m)
      = [Returned true; Returned false; Returned true]
      /\ persisted_count (send_alerts frame dets (three_attempts host T) m)
         = 2%nat).
Proof.
  split; [|split].
  - intros host frame dets t stamp m He Hlt.
    rewrite send_alert_cooling by assumption. repeat split.
  - intros host frame dets t stamp m He Hge.
    destruct (raising_step host frame m) as [step|] eqn:Hstep.
    + rewrite (send_alert_raising host frame dets t stamp m step He Hge Hstep).
      cbn [result after events set_last_alert_time last_alert_time].
      split; [reflexivity|]. split; [reflexivity|].
      split; [discriminate|]. now intros step' [= <-].
    + rewrite (send_alert_dispatch host frame dets t stamp m He Hge Hstep).
      cbn [result after events set_last_alert_time last_alert_time].
      split; [reflexivity|]. split; [reflexivity|].
      split; [|discriminate]. intros _. split; [reflexivity|].
      cbn [app filter is_persist].
      rewrite filter_app, filter_channel_starts by reflexivity.
      reflexivity.
  - intros host frame dets T m He Hcd Hfar Hcalm.
    unfold three_attempts, persisted_count.
    cbn [send_alerts at_host at_clock at_stamp].
    assert (H1 : ~ T - last_alert_time m < cooldown_seconds m)
      by (rewrite Hcd; lra).
    rewrite (send_alert_dispatch host frame dets T "a" m He H1 Hcalm).
    cbn [after result events].
    set (m1 := set_last_alert_time T m).
    assert (He1 : enabled m1 = true) by exact He.
    assert (Hcalm1 : raising_step host frame m1 = None) by exact Hcalm.
    assert (H2 : T + 30 - last_alert_time m1 < cooldown_seconds m1).
    { unfold m1; simpl. rewrite Hcd. lra. }
    rewrite (send_alert_cooling host frame dets (T + 30) "b" m1 He1 H2).
    cbn [after result events].
    assert (H3 : ~ T + 61 - last_alert_time m1 < cooldown_seconds m1).
    { unfold m1; simpl. rewrite Hcd. lra. }
    rewrite (send_alert_dispatch host frame dets (T + 61) "c" m1 He1 H3 Hcalm1).
    cbn [after result events map flat_map].
    split; [reflexivity|].
    cbn [app filter is_image_write].
    rewrite !filter_app, !filter_channel_starts by reflexivity.
    cbn [app filter is_image_write].
    rewrite !filter_app, !filter_channel_starts by reflexivity.
    reflexivity.
Qed.

Lemma send_alert_cooldown_gate_when_enabled_witness :
  enabled default_manager = true /\ cooldown_seconds default_manager = 60 /\
  60 <= 1000 - last_alert_time default_manager /\
  raising_step calm sample_frame default_manager = None /\
  map result
    (send_alerts sample_frame sample_detections (three_attempts calm 1000)
       default_manager)
  = [Returned true; Returned false; Returned true] /\
  persisted_count
    (send_alerts sample_frame sample_detections (three_attempts calm 1000)
       default_manager)
  = 2%nat.
Proof.
  assert (H : 60 <= 1000 - last_alert_time default_manager)
    by (unfold Qle; simpl; lia).
  split; [reflexivity|]. split; [reflexivity|]. split; [exact H|].
  split; [reflexivity|].
  exact (proj2 (proj2 send_alert_cooldown_gate_when_enabled)
           calm sample_frame sample_detections 1000 default_manager
           eq_refl eq_refl H eq_refl).
Defined.

(** The claim C2 as worded fails in three ways.  With the [enabled] flag
    false, an attempt outside the cooldown still returns [False] and
    persists nothing, and the three attempts all return [False].  On a
    new manager ([last_alert_time = 0]) the clock readings 0, 30 and 61
    themselves give false, false, true, with one alert event persisted.
    And an attempt outside the cooldown whose record write raises does
    not return [True]: it raises, with [last_alert_time] set and the
    image written. *)
Lemma send_alert_gate_counterexample :
  (~ 1000 - last_alert_time disabled_manager < cooldown_seconds disabled_manager)
  /\ result (send_alert calm sample_frame sample_detections 1000 "s"
               disabled_manager)
     = Returned false
  /\ last_alert_time
       (after (send_alert calm sample_frame sample_detections 1000 "s"
                 disabled_manager))
     <> 1000
  /\ map result
       (send_alerts sample_frame sample_detections (three_attempts calm 1000)
          disabled_manager)
     = [Returned false; Returned false; Returned false]
  /\ persisted_count
       (send_alerts sample_frame sample_detections (three_attempts calm 1000)
          disabled_manager) = 0%nat
  /\ map result
       (send_alerts sample_frame sample_detections (three_attempts calm 0)
          default_manager)
     = [Returned false; Returned false; Returned true]
  /\ persisted_count
       (send_alerts sample_frame sample_detections (three_attempts calm 0)
          default_manager) = 1%nat
  /\ (~ 1000 - last_alert_time default_manager < cooldown_seconds default_manager)
  /\ result (send_alert no_record sample_frame sample_detections 1000 "s"
               default_manager)
     = Exception RecordWrite
  /\ last_alert_time
       (after (send_alert no_record sample_frame sample_detections 1000 "s"
                 default_manager))
     = 1000
  /\ filter is_persist
       (events (send_alert no_record sample_frame sample_detections 1000 "s"
                  default_manager))
     = [ImWrite "logs/alerts/alert_s.jpg" sample_frame].
Proof.
  split.
  { unfold Qlt; simpl; lia. }
  split; [reflexivity|].
  split; [discriminate|].
  do 4 (split; [reflexivity|]).
  split.
  { unfold Qlt; simpl; lia. }
  repeat split; reflexivity.
Qed.

(** C4, as the code has it: the alert lock is taken right after the
    [enabled] check and held until [send_alert] returns or raises.  Every
    other event of a call happens while the lock is held: the clock read,
    the read of [last_alert_time] by the cooldown check, the assignment
    to it, the image write, the metadata write, the thread starts of the
    enabled channels, and a call that raises.  On a dispatch the events
    are, in order: acquire, clock read, read of [last_alert_time], its
    assignment, image write, metadata write, the thread starts, release.
    A dispatch in which a step raises has done the steps before it and
    releases the lock right after.  On the cooldown path the lock is
    released after the clock read and the check.  In every case the lock
    is free again when the call is over. *)
Theorem send_alert_effects_under_lock :
  (forall host frame dets t stamp m,
      Forall (fun p => snd p = true)
        (effects_with_lock false (events (send_alert host frame dets t stamp m)))
      /\ map fst
           (effects_with_lock false
              (events (send_alert host frame dets t stamp m)))
         = filter (fun e => negb (is_lock_op e))
             (events (send_alert host frame dets t stamp m))
      /\ lock_held false (events (send_alert host frame dets t stamp m)) = false)
  /\ (forall host frame dets t stamp m,
      enabled m = true ->
      ~ t - last_alert_time m < cooldown_seconds m ->
      raising_step host frame m = None ->
      events (send_alert host frame dets t stamp m)
      = LockAcquire
        :: ([TimeRead t; LastAlertRead (last_alert_time m); LastAlertSet t;
             ImWrite (img_path m stamp) frame; JsonDump (meta_path m stamp) dets]
            ++ channel_starts m stamp dets)
        ++ [LockRelease]
      /\ effects_with_lock false (events (send_alert host frame dets t stamp m))
         = map (fun e => (e, true))
             ([TimeRead t; LastAlertRead (last_alert_time m); LastAlertSet t;
               ImWrite (img_path m stamp) frame;
               JsonDump (meta_path m stamp) dets]
              ++ channel_starts m stamp dets))
  /\ (forall host frame dets t stamp m step,
      enabled m = true ->
      ~ t - last_alert_time m < cooldown_seconds m ->
      raising_step host frame m = Some step ->
      events (send_alert host frame dets t stamp m)
      = LockAcquire
        :: ([TimeRead t; LastAlertRead (last_alert_time m); LastAlertSet t]
            ++ done_before step frame dets stamp m ++ [Raise step])
        ++ [LockRelease])
  /\ (forall host frame dets t stamp m,
      enabled m = true ->
      t - last_alert_time m < cooldown_seconds m ->
      events (send_alert host frame dets t stamp m)
      = [LockAcquire; TimeRead t; LastAlertRead (last_alert_time m);
         LockRelease]).
Proof.
  split; [|split; [|split]].
  - intros host frame dets t stamp m.
    destruct (enabled m) eqn:He;
      [|rewrite send_alert_disabled by assumption; repeat constructor].
    destruct (Qlt_le_dec (t - last_alert_time m) (cooldown_seconds m))
      as [Hlt|Hle].
    { rewrite send_alert_cooling by assumption. repeat constructor. }
    assert (Hge : ~ t - last_alert_time m < cooldown_seconds m)
      by (intros Hlt; exact (Qlt_not_le _ _ Hlt Hle)).
    destruct (raising_step host frame m) as [step|] eqn:Hstep.
    + rewrite (send_alert_raising host frame dets t stamp m step He Hge Hstep).
      cbn [events].
      destruct step as [| |[|]]; cbn [done_before app];
        destruct (email_enabled m); repeat constructor.
    + rewrite (send_alert_dispatch host frame dets t stamp m He Hge Hstep).
      cbn [events]. unfold channel_starts.
      destruct (email_enabled m), (telegram_enabled m); repeat constructor.
  - intros host frame dets t stamp m He Hge Hnone.
    rewrite send_alert_dispatch by assumption. cbn [events].
    split.
    + reflexivity.
    + cbn [app effects_with_lock map].
      rewrite effects_channel_starts. cbn [effects_with_lock].
      now rewrite app_nil_r.
  - intros host frame dets t stamp m step He Hge Hstep.
    rewrite (send_alert_raising host frame dets t stamp m step He Hge Hstep).
    cbn [events app]. now rewrite <- app_assoc.
  - intros host frame dets t stamp m He Hlt.
    now rewrite send_alert_cooling by assumption.
Qed.

Lemma send_alert_effects_under_lock_witness :
  enabled email_manager = true /\
  (~ 1000 - last_alert_time email_manager < cooldown_seconds email_manager) /\
  raising_step calm sample_frame email_manager = None /\
  effects_with_lock false
    (events (send_alert calm sample_frame sample_detections 1000 "s"
               email_manager))
  = map (fun e => (e, true))
      ([TimeRead 1000; LastAlertRead (last_alert_time email_manager);
        LastAlertSet 1000;
        ImWrite (img_path email_manager "s") sample_frame;
        JsonDump (meta_path email_manager "s") sample_detections]
       ++ channel_starts email_manager "s" sample_detections).
Proof.
  assert (H : ~ 1000 - last_alert_time email_manager < cooldown_seconds email_manager)
    by (unfold Qlt; simpl; lia).
  split; [reflexivity|]. split; [exact H|]. split; [reflexivity|].
  exact (proj2 (proj1 (proj2 send_alert_effects_under_lock)
                  calm sample_frame sample_detections 1000 "s"%string
                  email_manager eq_refl H eq_refl)).
Defined.

(** The claim C4 as worded fails: on a dispatch (e-mail channel on, clock
    1000, new manager) the image write, the metadata write and the thread
    start all happen with the lock held, none after its release. *)
Lemma send_alert_persists_while_locked :
  effects_with_lock false
    (events (send_alert calm sample_frame sample_detections 1000 "s"
               email_manager))
  = [(TimeRead 1000, true); (LastAlertRead 0, true); (LastAlertSet 1000, true);
     (ImWrite "logs/alerts/alert_s.jpg" sample_frame, true);
     (JsonDump "logs/alerts/alert_s.json" sample_detections, true);
     (ThreadStart Email "logs/alerts/alert_s.jpg" sample_detections, true)]
  /\ ~ Forall (fun p => is_persist (fst p) || is_thread_start (fst p) = true ->
                        snd p = false)
        (effects_with_lock false
           (events (send_alert calm sample_frame sample_detections 1000 "s"
                      email_manager))).
Proof.
  split; [reflexivity|].
  intros H. inversion H as [|? ? _ Ha]. inversion Ha as [|? ? _ Hb].
  inversion Hb as [|? ? _ Hc]. inversion Hc as [|? ? Hhd _].
  specialize (Hhd eq_refl). discriminate Hhd.
Qed.

End AlertFacts.

(* ------------------------------------------------------------------ *)
(** ** Detection results *)

Module PipelineFacts.
Import Geometry Data Pipeline.

Section ProcessResults.
Variable contains : Polygon -> Point -> bool.
Variable zones : ZoneManager.Zones.
Variable target_classes : list Z.
Variable names : Z -> string.
Variable now_iso : nat -> string.

Lemma process_box_some i box d :
  Pipeline.process_box contains zones target_classes names now_iso i box = Some d <->
  In (cls box) target_classes /\
  ZoneManager.check_point_in_zones contains zones (feet_point box) = Some (zone_id d) /\
  zone_id d <> EmptyString /\
  d = mkDetection (xyxy box) (conf box) (cls box) (names (cls box)) (zone_id d)
                  (now_iso i).
Proof.
  unfold Pipeline.process_box.
  destruct (existsb (Z.eqb (cls box)) target_classes) eqn:Ex.
  - assert (Hin : In (cls box) target_classes).
    { apply existsb_exists in Ex. destruct Ex as (c & Hc & Heq).
      apply Z.eqb_eq in Heq. now subst. }
    destruct (ZoneManager.check_point_in_zones contains zones (feet_point box))
      as [zid|] eqn:Loc; simpl.
    + destruct (String.eqb_spec zid EmptyString) as [->|Hne]; simpl.
      * split; [discriminate|]. intros (_ & Hz & Hnz & _). congruence.
      * split.
        -- intros [= <-]. simpl. repeat split; auto.
        -- intros (_ & [= Hz] & _ & ->). now rewrite <- Hz.
    + split; [discriminate|]. intros (_ & Hz & _). discriminate.
  - split; [discriminate|]. intros (Hin & _).
    assert (existsb (Z.eqb (cls box)) target_classes = true); [|congruence].
    apply existsb_exists. exists (cls box). split; [assumption|apply Z.eqb_refl].
Qed.

Lemma process_boxes_in boxes : forall i acc d,
  In d (Pipeline.process_boxes contains zones target_classes names now_iso i boxes acc) <->
  In d acc \/
  exists j box, nth_error boxes j = Some box /\ Pipeline.process_box contains zones target_classes names now_iso (i + j) box = Some d.
Proof.
  induction boxes as [|b boxes IH]; intros i acc d; simpl.
  - split; [now left|]. intros [H|(j & box & Hj & _)]; [assumption|].
    now destruct j.
  - destruct (Pipeline.process_box contains zones target_classes names now_iso i b) as [d0|] eqn:Pb; rewrite IH; split.
    + intros [Hacc|(j & box & Hj & Hp)].
      * apply in_app_or in Hacc. destruct Hacc as [Hacc|[<-|[]]]; [now left|].
        right. exists 0%nat, b. rewrite Nat.add_0_r. now split.
      * right. exists (S j), box. rewrite Nat.add_succ_r. now split.
    + intros [Hacc|(j & box & Hj & Hp)].
      * left. apply in_or_app. now left.
      * destruct j as [|j]; simpl in Hj.
        -- injection Hj as <-. rewrite Nat.add_0_r in Hp.
           left. apply in_or_app. right. left. congruence.
        -- right. exists j, box. rewrite Nat.add_succ_r in Hp. now split.
    + intros [Hacc|(j & box & Hj & Hp)]; [now left|].
      right. exists (S j), box. rewrite Nat.add_succ_r. now split.
    + intros [Hacc|(j & box & Hj & Hp)]; [now left|].
      destruct j as [|j]; simpl in Hj.
      * injection Hj as <-. rewrite Nat.add_0_r in Hp. congruence.
      * right. exists j, box. rewrite Nat.add_succ_r in Hp. now split.
Qed.

Lemma process_results_in boxes d :
  In d (process_results contains zones target_classes names now_iso boxes) <->
  exists j box,
    nth_error boxes j = Some box /\
    In (cls box) target_classes /\
    ZoneManager.check_point_in_zones contains zones (feet_point box)
      = Some (zone_id d) /\
    zone_id d <> EmptyString /\
    d = mkDetection (xyxy box) (conf box) (cls box) (names (cls box)) (zone_id d)
                    (now_iso j).
Proof.
  unfold process_results. rewrite process_boxes_in. simpl. split.
  - intros [[]|(j & box & Hj & Hp)]. exists j, box.
    split; [assumption|]. now apply process_box_some in Hp.
  - intros (j & box & Hj & Hp). right. exists j, box.
    split; [assumption|]. now apply process_box_some.
Qed.

End ProcessResults.

Lemma feet_not_centroid x1 y1 x2 y2 c k :
  (y1 < y2)%Z ->
  feet_point (mkBox (x1, y1, x2, y2) c k) <> box_centroid (mkBox (x1, y1, x2, y2) c k).
Proof.
  intros Hlt. unfold feet_point, box_centroid. simpl. intros [= H].
  assert (Hdiv : ((y1 + y2) / 2 < y2)%Z)
    by (apply Z.div_lt_upper_bound; lia).
  lia.
Qed.

(** C3: for every detection box the point handed to the zone index is the
    bottom centre [((x1 + x2) / 2, y2)], the division being the integer
    (floor) division of the pixel coordinates; for a box of positive
    height it differs from the box centre.  The box (10,10)-(30,50) gives
    (20,50), its centre being (20,30).  [process_results] reports a
    detection for a box exactly when the box is of a target class and
    [check_point_in_zones] finds a zone (of non-empty id) at that point:
    a zone around (20,50) yields the detection, a zone around the centre
    (20,30) does not. *)
Theorem feet_point_is_bottom_center :
  (forall x1 y1 x2 y2 c k,
      feet_point (mkBox (x1, y1, x2, y2) c k) = ((x1 + x2) / 2, y2)%Z)
  /\ (forall x1 y1 x2 y2 c k,
        (y1 < y2)%Z ->
        feet_point (mkBox (x1, y1, x2, y2) c k)
        <> box_centroid (mkBox (x1, y1, x2, y2) c k))
  /\ feet_point sample_box = (20, 50)%Z
  /\ box_centroid sample_box = (20, 30)%Z
  /\ (forall contains zones target_classes names now_iso boxes d,
        In d (process_results contains zones target_classes names now_iso boxes) <->
        exists j box,
          nth_error boxes j = Some box /\
          In (cls box) target_classes /\
          ZoneManager.check_point_in_zones contains zones (feet_point box)
            = Some (zone_id d) /\
          zone_id d <> EmptyString /\
          d = mkDetection (xyxy box) (conf box) (cls box) (names (cls box))
                          (zone_id d) (now_iso j))
  /\ map zone_id
       (process_results polygon_contains (zone_around (20, 50)%Z) [0%Z]
          sample_names sample_clock [sample_box]) = ["zone1"%string]
  /\ process_results polygon_contains (zone_around (20, 30)%Z) [0%Z]
       sample_names sample_clock [sample_box] = [].
Proof.
  split; [reflexivity|].
  split; [exact feet_not_centroid|].
  split; [reflexivity|].
  split; [reflexivity|].
  split; [exact process_results_in|].
  split; reflexivity.
Qed.

End PipelineFacts.

(* ------------------------------------------------------------------ *)
(** ** Zone tables: loading, adding, removing, updating *)

Module ZoneTableFacts.
Import Geometry ZoneManager ZoneSpec.

Section DictLemmas.
Context {V : Type}.
Implicit Types (d : Dict.dict V) (k : string) (v : V).

Lemma get_app_fresh k v d :
  Dict.get k d = None -> Dict.get k (d ++ [(k, v)]) = Some v.
Proof.
  induction d as [|[k' v'] d IH]; simpl; intros H.
  - now rewrite String.eqb_refl.
  - destruct (String.eqb k k'); [discriminate|auto].
Qed.

Lemma get_app_other k k' v d :
  k' <> k -> Dict.get k' (d ++ [(k, v)]) = Dict.get k' d.
Proof.
  intros Hne. induction d as [|[k0 v0] d IH]; simpl.
  - apply String.eqb_neq in Hne. now rewrite Hne.
  - now rewrite IH.
Qed.

Lemma del_app_fresh k v d :
  Dict.get k d = None -> Dict.del k (d ++ [(k, v)]) = d.
Proof.
  induction d as [|[k' v'] d IH]; simpl; intros H.
  - now rewrite String.eqb_refl.
  - destruct (String.eqb k k'); [discriminate|]. now rewrite IH.
Qed.

Lemma get_del_other k k' d :
  k' <> k -> Dict.get k' (Dict.del k d) = Dict.get k' d.
Proof.
  intros Hne. induction d as [|[k0 v0] d IH]; simpl; [reflexivity|].
  destruct (String.eqb_spec k k0) as [<-|Hk]; simpl.
  - apply String.eqb_neq in Hne. now rewrite Hne.
  - now rewrite IH.
Qed.

Lemma filter_fresh k d :
  ~ In k (Dict.keys d) ->
  filter (fun kv => negb (String.eqb k (fst kv))) d = d.
Proof.
  unfold Dict.keys.
  induction d as [|[k' v'] d IH]; simpl; intros H; [reflexivity|].
  destruct (String.eqb_spec k k') as [->|Hne]; simpl.
  - exfalso. apply H. now left.
  - rewrite IH; [reflexivity|]. intros Hin. apply H. now right.
Qed.

(** With unique keys, [del d[k]] leaves exactly the other entries. *)
Lemma del_is_filter k d :
  NoDup (Dict.keys d) ->
  Dict.del k d = filter (fun kv => negb (String.eqb k (fst kv))) d.
Proof.
  unfold Dict.keys.
  induction d as [|[k' v'] d IH]; simpl; intros Hnd; [reflexivity|].
  inversion Hnd as [|? ? Hnotin Hnd']; subst.
  destruct (String.eqb_spec k k') as [->|Hne]; simpl.
  - symmetry. now apply filter_fresh.
  - now rewrite IH.
Qed.

Lemma get_filter_self k d :
  Dict.get k (filter (fun kv => negb (String.eqb k (fst kv))) d) = None.
Proof.
  induction d as [|[k' v'] d IH]; simpl; [reflexivity|].
  destruct (String.eqb k k') eqn:E; simpl; [assumption|]. now rewrite E.
Qed.

End DictLemmas.

(** *** Loading *)

Lemma load_zones_appends cfg : forall zones,
  NoDup (Dict.keys cfg) ->
  (forall k, In k (Dict.keys cfg) -> Dict.mem k zones = false) ->
  load_zones cfg zones =
  zones ++ map (fun kz => (fst kz, zone_of_config (fst kz) (snd kz)))
               (filter loadable cfg).
Proof.
  induction cfg as [|[zid zd] cfg IH]; intros zones Hnd Hfresh.
  - simpl. now rewrite app_nil_r.
  - cbn [load_zones filter]. unfold loadable at 1. cbn [snd].
    unfold Dict.keys in Hnd. simpl in Hnd.
    inversion Hnd as [|? ? Hnotin Hnd']; subst.
    destruct (Nat.ltb_spec (List.length (get_default (cfg_points zd) [])) 3)
      as [Hlt|Hge].
    + apply Nat.leb_gt in Hlt. rewrite Hlt.
      apply IH; [assumption|]. intros k Hk. apply Hfresh. now right.
    + pose proof Hge as Hge'. apply Nat.leb_le in Hge'. rewrite Hge'.
      rewrite DictFacts.set_fresh by (apply Hfresh; now left).
      rewrite IH; [|assumption|].
      * cbn [map fst snd]. now rewrite <- app_assoc.
      * intros k Hk. unfold Dict.mem.
        assert (Hne : k <> zid) by (intros ->; contradiction).
        rewrite get_app_other by assumption.
        specialize (Hfresh k (or_intror Hk)). unfold Dict.mem in Hfresh.
        exact Hfresh.
Qed.

(** X1: built from a configuration with distinct ids, the table holds, in
    configuration order, exactly the entries with at least three points;
    each carries the configured name, colour and alert flag, or the
    defaults: the zone id as name, red (0, 0, 255), alerts on. *)
Theorem init_loads_valid_entries_in_order :
  forall cfg,
    NoDup (Dict.keys cfg) ->
    init cfg =
    map (fun kz => (fst kz, zone_of_config (fst kz) (snd kz)))
        (filter loadable cfg).
Proof.
  intros cfg Hnd. unfold init.
  rewrite load_zones_appends; [reflexivity|assumption|reflexivity].
Qed.

Lemma init_loads_valid_entries_in_order_witness :
  NoDup (Dict.keys mixed_config) /\
  init mixed_config =
  [("door"%string,
    mkZone "door" (mkPolygon [(0, 0); (0, 10); (10, 10)]%Z)
           [(0, 0); (0, 10); (10, 10)]%Z (0, 0, 255)%Z true)].
Proof.
  assert (Hnd : NoDup (Dict.keys mixed_config)).
  { repeat constructor; simpl; intuition discriminate. }
  split; [exact Hnd|].
  exact (init_loads_valid_entries_in_order mixed_config Hnd).
Defined.

(** *** Adding *)

(** X2: [add_zone] succeeds exactly when the id is new and at least three
    points are given.  A refused call leaves the table as it was (an
    existing zone is never overwritten).  After an accepted call the new
    zone is found under its id, every other id maps to what it did, and a
    point that was located in some zone is still located in that same
    zone. *)
Theorem add_zone_lookup :
  forall zid nm pts col en (zones : Zones),
    (fst (add_zone zid nm pts col en zones) = true <->
     Dict.mem zid zones = false /\ (3 <= List.length pts)%nat)
    /\ (fst (add_zone zid nm pts col en zones) = false ->
        snd (add_zone zid nm pts col en zones) = zones)
    /\ (fst (add_zone zid nm pts col en zones) = true ->
        Dict.get zid (snd (add_zone zid nm pts col en zones))
        = Some (mkZone nm (mkPolygon pts) pts col en)
        /\ (forall k, k <> zid ->
              Dict.get k (snd (add_zone zid nm pts col en zones))
              = Dict.get k zones)
        /\ (forall contains pt found,
              check_point_in_zones contains zones pt = Some found ->
              check_point_in_zones contains
                (snd (add_zone zid nm pts col en zones)) pt = Some found)).
Proof.
  intros zid nm pts col en zones. unfold add_zone.
  destruct (Dict.mem zid zones) eqn:M; cbn [orb fst snd].
  - split; [split; [discriminate|intros [H _]; discriminate]|].
    split; [reflexivity|discriminate].
  - destruct (Nat.ltb_spec (List.length pts) 3) as [Hlt|Hge]; cbn [fst snd].
    + split; [split; [discriminate|intros [_ H]; lia]|].
      split; [reflexivity|discriminate].
    + split; [split; [auto|reflexivity]|].
      split; [discriminate|]. intros _.
      rewrite DictFacts.set_fresh by assumption.
      apply DictFacts.mem_false_get in M.
      split; [now apply get_app_fresh|].
      split; [intros k Hk; now apply get_app_other|].
      intros contains pt found Hloc.
      apply ZoneFacts.locate_some.
      apply ZoneFacts.locate_some in Hloc.
      destruct Hloc as (b & z & r & -> & En & C & Hb).
      exists b, z, (r ++ [(zid, mkZone nm (mkPolygon pts) pts col en)]).
      rewrite <- app_assoc. now repeat split.
Qed.

(** *** Removing *)

(** X3: [remove_zone] fails on an unknown id and leaves the table alone.
    On a known id of a table with distinct ids it succeeds and leaves
    exactly the other entries, in their order: the id is no longer
    present, every other id maps to what it did, and no point is located
    in the removed zone any more. *)
Theorem remove_zone_removes :
  forall zid (zones : Zones),
    NoDup (Dict.keys zones) ->
    (Dict.mem zid zones = false -> remove_zone zid zones = (false, zones))
    /\ (Dict.mem zid zones = true ->
        remove_zone zid zones = (true, without zid zones)
        /\ Dict.mem zid (snd (remove_zone zid zones)) = false
        /\ (forall k, k <> zid ->
              Dict.get k (snd (remove_zone zid zones)) = Dict.get k zones)
        /\ (forall contains pt,
              check_point_in_zones contains (snd (remove_zone zid zones)) pt
              <> Some zid)).
Proof.
  intros zid zones Hnd. unfold remove_zone. split; intros M; rewrite M.
  - reflexivity.
  - cbn [negb snd]. rewrite (del_is_filter zid zones Hnd). fold (without zid zones).
    split; [reflexivity|].
    split; [apply DictFacts.mem_false_get; apply get_filter_self|].
    split.
    + intros k Hk. unfold without. rewrite <- (del_is_filter zid zones Hnd).
      now apply get_del_other.
    + intros contains pt Hloc.
      apply ZoneFacts.locate_some in Hloc.
      destruct Hloc as (b & z & r & Heq & _).
      assert (Hin : In (zid, z) (without zid zones))
        by (rewrite Heq; apply in_elt).
      unfold without in Hin. apply filter_In in Hin. destruct Hin as [_ Hf].
      cbn [fst] in Hf. now rewrite String.eqb_refl in Hf.
Qed.

Lemma remove_zone_removes_witness :
  NoDup (Dict.keys triangle_zones) /\
  remove_zone "absent" triangle_zones = (false, triangle_zones) /\
  remove_zone "z1" triangle_zones = (true, []).
Proof.
  assert (Hnd : NoDup (Dict.keys triangle_zones))
    by (repeat constructor; simpl; tauto).
  split; [exact Hnd|]. split.
  - exact (proj1 (remove_zone_removes "absent" triangle_zones Hnd) eq_refl).
  - exact (proj1 (proj2 (remove_zone_removes "z1" triangle_zones Hnd) eq_refl)).
Defined.

(** X4: removing a zone that was just added under a new id gives back the
    table as it was before the addition. *)
Theorem add_then_remove_restores :
  forall zid nm pts col en (zones : Zones),
    Dict.mem zid zones = false -> (3 <= List.length pts)%nat ->
    remove_zone zid (snd (add_zone zid nm pts col en zones)) = (true, zones).
Proof.
  intros zid nm pts col en zones M Hlen.
  unfold add_zone. rewrite M. apply Nat.ltb_ge in Hlen. rewrite Hlen.
  cbn [orb snd]. rewrite DictFacts.set_fresh by assumption.
  apply DictFacts.mem_false_get in M.
  unfold remove_zone, Dict.mem. rewrite get_app_fresh by assumption.
  cbn [negb]. now rewrite del_app_fresh.
Qed.

Lemma add_then_remove_restores_witness :
  Dict.mem "z2" triangle_zones = false /\
  (3 <= List.length large_triangle)%nat /\
  remove_zone "z2"
    (snd (add_zone "z2" "Second" large_triangle (0, 255, 0)%Z true triangle_zones))
  = (true, triangle_zones).
Proof.
  assert (Hlen : (3 <= List.length large_triangle)%nat) by (simpl; lia).
  split; [reflexivity|]. split; [exact Hlen|].
  exact (add_then_remove_restores "z2" "Second" large_triangle (0, 255, 0)%Z true
           triangle_zones eq_refl Hlen).
Defined.

(** *** Updating *)

Lemma locate_disable_is_delete contains zid pt : forall zones : Zones,
  check_point_in_zones contains
    (Dict.adjust (set_alert_enabled false) zid zones) pt
  = check_point_in_zones contains (Dict.del zid zones) pt.
Proof.
  induction zones as [|[k z] zones IH]; [reflexivity|].
  cbn [Dict.adjust Dict.del].
  destruct (String.eqb zid k).
  - reflexivity.
  - cbn [check_point_in_zones]. now rewrite IH.
Qed.

(** X5: switching a zone's alerts off with [update_zone] has the same
    effect on every later point query as removing the zone: for every
    point, [check_point_in_zones] answers as it would on the table without
    that zone (for an unknown id both calls change nothing). *)
Theorem update_zone_disable_acts_as_remove :
  forall contains zid (zones : Zones) pt,
    check_point_in_zones contains
      (snd (update_zone zid None (Some false) None zones)) pt
    = check_point_in_zones contains (snd (remove_zone zid zones)) pt.
Proof.
  intros contains zid zones pt. unfold update_zone, remove_zone.
  destruct (Dict.mem zid zones); cbn [negb snd]; [|reflexivity].
  apply locate_disable_is_delete.
Qed.

Lemma locate_recolour contains c zid pt : forall zones : Zones,
  check_point_in_zones contains (Dict.adjust (set_color c) zid zones) pt
  = check_point_in_zones contains zones pt.
Proof.
  induction zones as [|[k z] zones IH]; [reflexivity|].
  cbn [Dict.adjust].
  destruct (String.eqb zid k); cbn [check_point_in_zones].
  - reflexivity.
  - now rewrite IH.
Qed.

(** X6: an [update_zone] that passes only a colour (or nothing at all)
    changes no answer of [check_point_in_zones], and leaves the points,
    polygon, name and alert flag of every zone as they were. *)
Theorem update_zone_colour_keeps_geometry :
  forall contains zid col (zones : Zones),
    (forall pt,
        check_point_in_zones contains
          (snd (update_zone zid None None col zones)) pt
        = check_point_in_zones contains zones pt)
    /\ map (fun kz => (fst kz, name (snd kz), points (snd kz),
                       polygon (snd kz), alert_enabled (snd kz)))
           (snd (update_zone zid None None col zones))
       = map (fun kz => (fst kz, name (snd kz), points (snd kz),
                         polygon (snd kz), alert_enabled (snd kz)))
             zones.
Proof.
  intros contains zid col zones. unfold update_zone.
  destruct (Dict.mem zid zones); cbn [negb snd]; [|split; reflexivity].
  destruct col as [c|]; [|split; reflexivity].
  split; [intros pt; apply locate_recolour|].
  induction zones as [|[k z] zones IH]; [reflexivity|].
  cbn [Dict.adjust]. destruct (String.eqb zid k); cbn [map].
  - reflexivity.
  - now rewrite IH.
Qed.

End ZoneTableFacts.

(* ------------------------------------------------------------------ *)
(** ** Queues: both ends *)

Module QueueOpsFacts.
Import BoundedQueue QueueOps.

Section WithItem.
Context {A : Type}.
Implicit Types (q : Queue A) (x : A) (xs : list A).

Lemma offer_all_unbounded xs : forall q,
  (maxsize q <= 0)%Z ->
  offer_all xs q = mkQueue (maxsize q) (items q ++ xs).
Proof.
  unfold offer_all.
  induction xs as [|x xs IH]; intros [n l] Hn; simpl in *.
  - now rewrite app_nil_r.
  - unfold put_or_drop at 2.
    rewrite QueueFacts.put_nowait_unbounded by (simpl; assumption).
    rewrite IH by (simpl; assumption). simpl. now rewrite <- app_assoc.
Qed.

Lemma put_or_drop_bounded x q :
  (0 < maxsize q)%Z -> (Z.of_nat (qsize q) <= maxsize q)%Z ->
  maxsize (put_or_drop x q) = maxsize q /\
  (Z.of_nat (qsize (put_or_drop x q)) <= maxsize q)%Z.
Proof.
  intros Hpos Hle. unfold put_or_drop.
  destruct (Z.le_gt_cases (maxsize q) (Z.of_nat (qsize q))) as [Hfull|Hroom].
  - rewrite QueueFacts.put_nowait_full by assumption. now split.
  - rewrite QueueFacts.put_nowait_room by assumption.
    split; [reflexivity|]. unfold qsize in *. simpl.
    rewrite length_app. simpl. lia.
Qed.

Lemma run_bounded ops : forall q taken,
  (0 < maxsize q)%Z -> (Z.of_nat (qsize q) <= maxsize q)%Z ->
  maxsize (fst (run ops q taken)) = maxsize q /\
  (Z.of_nat (qsize (fst (run ops q taken))) <= maxsize q)%Z.
Proof.
  induction ops as [|[x|] ops IH]; intros q taken Hpos Hle; cbn [run].
  - now split.
  - destruct (put_or_drop_bounded x q Hpos Hle) as [Hm Hs].
    destruct (IH (put_or_drop x q) taken) as [IHm IHs]; rewrite ?Hm; auto.
    rewrite Hm in IHm, IHs. now split.
  - unfold get. destruct q as [n l]. cbn [items maxsize] in *.
    destruct l as [|y l]; [now apply IH|].
    destruct (IH (mkQueue n l) (taken ++ [y])) as [IHm IHs]; cbn [maxsize]; auto.
    unfold qsize in *. cbn [items] in *. simpl in Hle. lia.
Qed.

Lemma run_app ops1 ops2 q taken :
  run (ops1 ++ ops2) q taken =
  run ops2 (fst (run ops1 q taken)) (snd (run ops1 q taken)).
Proof.
  revert q taken.
  induction ops1 as [|[x|] ops1 IH]; intros q taken; cbn [app run].
  - reflexivity.
  - apply IH.
  - destruct (get q) as [[y q']|]; apply IH.
Qed.

Lemma run_offers xs q taken :
  run (map Offer xs) q taken = (offer_all xs q, taken).
Proof.
  revert q. unfold offer_all.
  induction xs as [|x xs IH]; intros q; cbn [map run fold_left];
    [reflexivity|apply IH].
Qed.

Lemma run_takes n : forall (l : list A) m taken,
  run (repeat Take n) (mkQueue m l) taken =
  (mkQueue m (skipn n l), taken ++ firstn n l).
Proof.
  induction n as [|n IH]; intros l m taken; cbn [repeat run].
  - simpl. now rewrite app_nil_r.
  - unfold get. cbn [items maxsize]. destruct l as [|y l].
    + rewrite IH. now rewrite skipn_nil, firstn_nil.
    + rewrite IH. simpl. now rewrite <- app_assoc.
Qed.

Lemma run_in_step xs : forall m taken,
  (0 < m)%Z ->
  run (in_step xs) (mkQueue m []) taken = (mkQueue m [], taken ++ xs).
Proof.
  unfold in_step.
  induction xs as [|x xs IH]; intros m taken Hm; cbn [flat_map app run].
  - now rewrite app_nil_r.
  - unfold put_or_drop.
    rewrite QueueFacts.put_nowait_room by (unfold qsize; simpl; lia).
    unfold get. cbn [items maxsize app].
    rewrite IH by assumption. now rewrite <- app_assoc.
Qed.

End WithItem.

(** X7: a queue created with [maxsize] zero or negative has no bound: a
    producer offering any run of items never has one dropped, all of them
    are appended in order.  So a configured [queue_size] of 0 turns the
    drop policy off. *)
Theorem unbounded_queue_never_drops :
  forall (A : Type) (n : Z) (xs : list A),
    (n <= 0)%Z ->
    offer_all xs (new A n) = mkQueue n xs.
Proof.
  intros A n xs Hn. unfold new.
  now rewrite offer_all_unbounded by (simpl; assumption).
Qed.

Lemma unbounded_queue_never_drops_witness :
  (0 <= 0)%Z /\
  offer_all [1; 2; 3; 4; 5]%Z (new Z 0) = mkQueue 0 [1; 2; 3; 4; 5]%Z.
Proof.
  split; [lia|].
  apply (unbounded_queue_never_drops Z 0 [1; 2; 3; 4; 5]%Z). lia.
Defined.

(** X8: a bounded queue never holds more than [maxsize] items: from any
    state within the bound, whatever the order of non-blocking offers and
    takes, the size stays within the bound (and [maxsize] is never
    changed). *)
Theorem bounded_queue_stays_within_maxsize :
  forall (A : Type) (ops : list (Op A)) (q : Queue A) taken,
    (0 < maxsize q)%Z -> (Z.of_nat (qsize q) <= maxsize q)%Z ->
    maxsize (fst (run ops q taken)) = maxsize q /\
    (Z.of_nat (qsize (fst (run ops q taken))) <= maxsize q)%Z.
Proof.
  intros A ops q taken. apply run_bounded.
Qed.

Lemma bounded_queue_stays_within_maxsize_witness :
  (0 < maxsize (new Z 2))%Z /\
  (Z.of_nat (qsize (new Z 2)) <= maxsize (new Z 2))%Z /\
  maxsize (fst (run [Offer 1; Offer 2; Offer 3; Take; Offer 4]%Z (new Z 2) [])) = 2%Z /\
  (Z.of_nat (qsize (fst (run [Offer 1; Offer 2; Offer 3; Take; Offer 4]%Z (new Z 2) [])))
   <= 2)%Z.
Proof.
  split; [reflexivity|]. split; [simpl; lia|].
  apply (bounded_queue_stays_within_maxsize Z
           [Offer 1; Offer 2; Offer 3; Take; Offer 4]%Z (new Z 2) []).
  - reflexivity.
  - simpl; lia.
Defined.

(** X9: the queue is first-in first-out.  After a burst of offers into an
    empty queue of capacity [N], [n] takes deliver the first [n] of the
    [N] accepted items in the order they were offered (a take on the empty
    queue delivers nothing); what is left is the rest of the accepted
    items. *)
Theorem burst_is_delivered_in_order :
  forall (A : Type) (N : Z) (xs : list A) (n : nat),
    (0 < N)%Z ->
    run (burst_then_take xs n) (new A N) []
    = (mkQueue N (skipn n (firstn (Z.to_nat N) xs)),
       firstn n (firstn (Z.to_nat N) xs)).
Proof.
  intros A N xs n HN. unfold burst_then_take.
  rewrite run_app, run_offers. cbn [fst snd].
  rewrite QueueFacts.offer_all_new by assumption.
  now rewrite run_takes.
Qed.

Lemma burst_is_delivered_in_order_witness :
  (0 < 2)%Z /\
  run (burst_then_take [1; 2; 3]%Z 3) (new Z 2) [] = (mkQueue 2 [], [1; 2]%Z).
Proof.
  split; [lia|].
  exact (burst_is_delivered_in_order Z 2 [1; 2; 3]%Z 3 eq_refl).
Defined.

(** X10: when the consumer keeps pace with the producer (every offer is
    followed by a take), a bounded queue of any capacity loses nothing:
    every item is delivered, in order, and the queue ends empty. *)
Theorem in_step_nothing_is_dropped :
  forall (A : Type) (N : Z) (xs : list A),
    (0 < N)%Z ->
    run (in_step xs) (new A N) [] = (mkQueue N [], xs).
Proof.
  intros A N xs HN. unfold new. now rewrite run_in_step.
Qed.

Lemma in_step_nothing_is_dropped_witness :
  (0 < 1)%Z /\
  run (in_step [1; 2; 3]%Z) (new Z 1) [] = (mkQueue 1 [], [1; 2; 3]%Z).
Proof.
  split; [lia|].
  exact (in_step_nothing_is_dropped Z 1 [1; 2; 3]%Z eq_refl).
Defined.

End QueueOpsFacts.

(* ------------------------------------------------------------------ *)
(** ** The capture loop *)

Module CaptureFacts.
Import Data BoundedQueue Pipeline CaptureSpec.

Lemma capture_reconnecting cfg overflows reads :
  reconnect_on_failure cfg = true ->
  pacing_raises cfg overflows = false ->
  forall q count,
  all_reopen reads = true ->
  capture_frames cfg overflows reads (mkCaptureState q count true) =
  (mkCaptureState (offer_all (successes reads) q)
                  (count + List.length (successes reads)) true,
   false).
Proof.
  intros Hrc Hpace.
  induction reads as [|[f|reopens] reads IH]; intros q count Hall;
    cbn [capture_frames running negb successes frame_queue frame_count].
  - cbn. now rewrite Nat.add_0_r.
  - rewrite Hpace, IH by exact Hall. cbn. do 2 f_equal. lia.
  - cbn [all_reopen forallb] in Hall. apply andb_prop in Hall as [-> Hall].
    rewrite Hrc. now apply IH.
Qed.

Lemma capture_app cfg overflows before : forall later q count,
  reconnect_on_failure cfg = true ->
  pacing_raises cfg overflows = false ->
  all_reopen before = true ->
  capture_frames cfg overflows (before ++ later) (mkCaptureState q count true) =
  capture_frames cfg overflows later
    (mkCaptureState (offer_all (successes before) q)
                    (count + List.length (successes before)) true).
Proof.
  intros later q count Hrc Hpace. revert q count.
  induction before as [|[f|reopens] before IH]; intros q count Hall;
    cbn [app capture_frames running negb successes frame_queue frame_count].
  - cbn. now rewrite Nat.add_0_r.
  - rewrite Hpace, IH by exact Hall. cbn. do 3 f_equal. lia.
  - cbn [all_reopen forallb] in Hall. apply andb_prop in Hall as [-> Hall].
    rewrite Hrc. now apply IH.
Qed.

(** X11: what the capture loop does on a failed read.  With
    reconnect-on-failure set it reopens the camera and goes on: as long
    as every reconnect works, its queue receives the offers of exactly
    the successfully read frames, in order, and [frame_count] grows by
    the number of successful reads, whether or not the frame found room
    in the queue.  A reconnect that cannot reopen the source raises: the
    thread ends there with [running] still true, and nothing after the
    failure is read.  Without reconnect-on-failure, the first failed read
    ends the loop: the frames read before it have been offered, [running]
    is set to false and nothing after the failure is read.  (All this
    with a pacing sleep that does not raise; one that raises, as with
    [target_fps] 0, ends the thread after the first frame has been offered
    and counted.)  A loop that finds [running] false reads nothing. *)
Theorem capture_frames_on_read_failure :
  (forall cfg overflows reads q count,
      reconnect_on_failure cfg = true ->
      pacing_raises cfg overflows = false ->
      all_reopen reads = true ->
      capture_frames cfg overflows reads (mkCaptureState q count true) =
      (mkCaptureState (offer_all (successes reads) q)
                      (count + List.length (successes reads)) true,
       false))
  /\ (forall cfg overflows before later q count,
      reconnect_on_failure cfg = true ->
      pacing_raises cfg overflows = false ->
      all_reopen before = true ->
      capture_frames cfg overflows (before ++ Lost false :: later)
        (mkCaptureState q count true) =
      (mkCaptureState (offer_all (successes before) q)
                      (count + List.length (successes before)) true,
       true))
  /\ (forall cfg overflows frames reopens later q count,
      reconnect_on_failure cfg = false ->
      pacing_raises cfg overflows = false ->
      capture_frames cfg overflows (map Got frames ++ Lost reopens :: later)
        (mkCaptureState q count true) =
      (mkCaptureState (offer_all frames q) (count + List.length frames) false,
       false))
  /\ (forall cfg overflows frame later q count,
      pacing_raises cfg overflows = true ->
      capture_frames cfg overflows (Got frame :: later)
        (mkCaptureState q count true) =
      (mkCaptureState (put_or_drop frame q) (S count) true, true))
  /\ (forall cfg overflows reads q count,
      capture_frames cfg overflows reads (mkCaptureState q count false) =
      (mkCaptureState q count false, false))
  /\ capture_frames reconnecting no_overflow
       [Got black; Lost true; Got white; Got black]
       (mkCaptureState (new Frame 2) 0 true)
     = (mkCaptureState (mkQueue 2 [black; white]) 3 true, false)
  /\ capture_frames reconnecting no_overflow
       [Got black; Lost false; Got white; Got black]
       (mkCaptureState (new Frame 2) 0 true)
     = (mkCaptureState (mkQueue 2 [black]) 1 true, true)
  /\ pacing_raises paced no_overflow = false
  /\ pacing_raises paced_at_zero no_overflow = true.
Proof.
  split.
  { intros cfg overflows reads q count Hrc Hpace Hall.
    now apply capture_reconnecting. }
  split; [|split; [|split; [|split]]].
  - intros cfg overflows before later q count Hrc Hpace Hall.
    rewrite capture_app by assumption.
    cbn [capture_frames running negb]. now rewrite Hrc.
  - intros cfg overflows frames reopens later q count Hrc Hpace.
    revert q count. induction frames as [|f frames IH]; intros q count;
      cbn [map app capture_frames running negb frame_queue frame_count].
    + rewrite Hrc. cbn. now rewrite Nat.add_0_r.
    + rewrite Hpace, IH. cbn. do 2 f_equal. lia.
  - intros cfg overflows frame later q count Hpace.
    cbn [capture_frames running negb frame_queue frame_count].
    now rewrite Hpace.
  - intros cfg overflows [|r reads] q count; reflexivity.
  - repeat split; reflexivity.
Qed.

End CaptureFacts.

(* ------------------------------------------------------------------ *)
(** ** Performance monitor: timer protocol and window invariants *)

Module MonitorOpsFacts.
Import PerformanceMonitor MonitorOps.

Lemma stop_clears_timer h m : process_start_time (stop_process_timer h m) = None.
Proof.
  unfold stop_process_timer.
  destruct (process_start_time m) eqn:E; [reflexivity|exact E].
Qed.

(** X12: [stop_process_timer] with no timer running changes nothing, so a
    second stop after a stop records no further sample; a timer started
    before a [reset] is dropped by it, and a start while a timer is
    running replaces the earlier start. *)
Theorem stop_without_start_is_noop :
  (forall h m, process_start_time m = None -> stop_process_timer h m = m)
  /\ (forall h1 h2 m,
        stop_process_timer h2 (stop_process_timer h1 m) = stop_process_timer h1 m)
  /\ (forall h t m, stop_process_timer h (reset t m) = reset t m)
  /\ (forall t1 t2 h m,
        process_times (stop_process_timer h (start_process_timer t2 (start_process_timer t1 m)))
        = deque_append (clock_stop h - t2) (process_times m)).
Proof.
  assert (H : forall h m, process_start_time m = None -> stop_process_timer h m = m).
  { intros h m E. unfold stop_process_timer. now rewrite E. }
  split; [exact H|]. split; [|split].
  - intros h1 h2 m. apply H, stop_clears_timer.
  - intros h t m. now apply H.
  - reflexivity.
Qed.

(** *** Capacity *)

Lemma within_append n x d : within n d -> within n (deque_append x d).
Proof.
  intros [Hm Hl]. split; [exact Hm|].
  rewrite <- Hm. apply MonitorFacts.deque_append_bounded. now rewrite Hm.
Qed.

Lemma within_clear n d : within n d -> within n (deque_clear d).
Proof. intros [Hm _]. split; [exact Hm|simpl; lia]. Qed.

Lemma within_new n : within n (deque_new n).
Proof. split; [reflexivity|simpl; lia]. Qed.

Lemma update_fps_within n t m : windows_within n m -> windows_within n (update_fps t m).
Proof.
  intros (Hf & Hp & Hm & Ht). unfold update_fps, windows_within. cbn.
  repeat split; try (apply Hp || apply Hm || apply Ht);
    destruct (Qlt_le_dec 0 (t - last_frame_time m));
    try apply Hf; apply (within_append n _ _ Hf).
Qed.

Lemma stop_windows h m started :
  process_start_time m = Some started ->
  fps_samples (stop_process_timer h m) = fps_samples (update_fps (clock_fps h) m)
  /\ process_times (stop_process_timer h m)
     = deque_append (clock_stop h - started) (process_times m)
  /\ memory_samples (stop_process_timer h m)
     = (if track_memory m && psutil_present m
        then deque_append (rss_bytes h / 1024 / 1024) (memory_samples m)
        else memory_samples m)
  /\ temperature_samples (stop_process_timer h m)
     = (if track_temperature m
        then match thermal_raw h with
             | Some raw => deque_append (raw / 1000) (temperature_samples m)
             | None => temperature_samples m
             end
        else temperature_samples m).
Proof.
  intros E. unfold stop_process_timer. rewrite E. repeat split.
Qed.

Lemma call_within n c m : windows_within n m -> windows_within n (call c m).
Proof.
  intros H. destruct c as [t|t|h|t]; cbn [call].
  - now apply update_fps_within.
  - exact H.
  - destruct (process_start_time m) as [started|] eqn:E;
      [|unfold stop_process_timer; rewrite E; exact H].
    destruct (stop_windows h m started E) as (Ef & Ep & Em & Et).
    pose proof (update_fps_within n (clock_fps h) m H) as (Hf' & _).
    destruct H as (Hf & Hp & Hm & Ht).
    unfold windows_within. rewrite Ef, Ep, Em, Et.
    split; [exact Hf'|]. split; [now apply within_append|]. split.
    + destruct (track_memory m && psutil_present m);
        [now apply within_append|exact Hm].
    + destruct (track_temperature m); [|exact Ht].
      destruct (thermal_raw h); [now apply within_append|exact Ht].
  - destruct H as (Hf & Hp & Hm & Ht).
    repeat split; cbn; try (apply Hf || apply Hp || apply Hm || apply Ht); lia.
Qed.

Lemma calls_invariant (P : Monitor -> Prop) :
  (forall c m, P m -> P (call c m)) ->
  forall cs m, P m -> P (calls cs m).
Proof.
  intros Hstep. unfold calls.
  induction cs as [|c cs IH]; intros m Hm; simpl; [assumption|].
  apply IH. now apply Hstep.
Qed.

(** X13: no window of the monitor ever holds more than [max_samples]
    samples: after the constructor and any run of [update_fps],
    [start_process_timer], [stop_process_timer] and [reset] calls, the four
    windows (fps, processing time, memory, temperature) are within that
    capacity. *)
Theorem monitor_windows_within_capacity :
  forall max_samples now has_psutil has_thermal cs,
    windows_within max_samples
      (calls cs (init max_samples now has_psutil has_thermal)).
Proof.
  intros n now p t cs.
  apply (calls_invariant (windows_within n)).
  - intros c m. apply call_within.
  - repeat split; simpl; lia.
Qed.

(** *** The fps window *)

Lemma append_forall (P : Q -> Prop) x d :
  P x -> Forall P (elems d) -> Forall P (elems (deque_append x d)).
Proof.
  intros Hx Hd. unfold deque_append. cbn [elems].
  assert (Hall : Forall P (elems d ++ [x]))
    by (apply Forall_app; split; [assumption|now constructor]).
  destruct (maxlen d <? List.length (elems d ++ [x]))%nat; [|assumption].
  destruct (elems d ++ [x]); [constructor|now inversion Hall].
Qed.

Lemma update_fps_positive t m : positive_samples m -> positive_samples (update_fps t m).
Proof.
  unfold positive_samples, update_fps. cbn [fps_samples]. intros H.
  destruct (Qlt_le_dec 0 (t - last_frame_time m)) as [Hpos|_]; [|assumption].
  apply append_forall; [|assumption].
  apply Qlt_shift_div_l; [assumption|]. rewrite Qmult_0_l. reflexivity.
Qed.

Lemma call_positive c m : positive_samples m -> positive_samples (call c m).
Proof.
  intros H. destruct c as [t|t|h|t]; cbn [call].
  - now apply update_fps_positive.
  - exact H.
  - destruct (process_start_time m) as [started|] eqn:E;
      [|unfold stop_process_timer; rewrite E; exact H].
    destruct (stop_windows h m started E) as (Ef & _).
    unfold positive_samples. rewrite Ef.
    now apply update_fps_positive.
  - constructor.
Qed.

Lemma Qsum_positive l : l <> [] -> Forall (fun x => 0 < x) l -> 0 < Qsum l.
Proof.
  induction l as [|x l IH]; intros Hne Hall; [contradiction|].
  inversion Hall as [|? ? Hx Hl]; subst. simpl.
  destruct l as [|y l].
  - simpl. lra.
  - assert (0 < Qsum (y :: l)) by (apply IH; [discriminate|assumption]). lra.
Qed.

Lemma np_mean_positive l : l <> [] -> Forall (fun x => 0 < x) l -> 0 < np_mean l.
Proof.
  intros Hne Hall. unfold np_mean.
  apply Qlt_shift_div_l.
  - destruct l; [contradiction|]. unfold Qlt. simpl. lia.
  - rewrite Qmult_0_l. now apply Qsum_positive.
Qed.

(** X14: every fps sample the monitor ever stores is positive: a sample
    is recorded only when the clock has advanced since the previous frame
    time.  So after the constructor and any run of calls, [get_fps] is 0
    when the fps window is empty and positive otherwise; a call to
    [update_fps] at an unchanged or earlier clock reading stores nothing
    and only moves the frame time. *)
Theorem fps_samples_are_positive :
  forall max_samples now has_psutil has_thermal cs,
    let m := calls cs (init max_samples now has_psutil has_thermal) in
    Forall (fun x => 0 < x) (elems (fps_samples m))
    /\ (elems (fps_samples m) = [] -> get_fps m = 0)
    /\ (elems (fps_samples m) <> [] -> 0 < get_fps m)
    /\ (forall t, t <= last_frame_time m ->
          fps_samples (update_fps t m) = fps_samples m
          /\ last_frame_time (update_fps t m) = t).
Proof.
  intros n now p th cs m.
  assert (Hpos : positive_samples m).
  { apply (calls_invariant positive_samples).
    - intros c m0. apply call_positive.
    - constructor. }
  split; [exact Hpos|]. split; [|split].
  - intros E. unfold get_fps. now rewrite E.
  - intros Hne. unfold get_fps.
    destruct (elems (fps_samples m)) as [|x l] eqn:E; [contradiction|].
    apply np_mean_positive; [discriminate|]. unfold positive_samples in Hpos.
    now rewrite E in Hpos.
  - intros t Ht. unfold update_fps. cbn.
    destruct (Qlt_le_dec 0 (t - last_frame_time m)) as [Hlt|_]; [|now split].
    exfalso. lra.
Qed.

(** *** Memory and temperature *)

Lemma call_untracked_memory c m : untracked_memory m -> untracked_memory (call c m).
Proof.
  intros [Hf He]. destruct c as [t|t|h|t]; cbn [call].
  - split; assumption.
  - split; assumption.
  - destruct (process_start_time m) as [started|] eqn:E;
      [|unfold stop_process_timer; rewrite E; split; assumption].
    destruct (stop_windows h m started E) as (_ & _ & Em & _).
    unfold untracked_memory. rewrite Em, Hf.
    split; [|assumption]. unfold stop_process_timer. rewrite E. exact Hf.
  - split; [assumption|reflexivity].
Qed.

Lemma call_untracked_temperature c m :
  untracked_temperature m -> untracked_temperature (call c m).
Proof.
  intros [Hf He]. destruct c as [t|t|h|t]; cbn [call].
  - split; assumption.
  - split; assumption.
  - destruct (process_start_time m) as [started|] eqn:E;
      [|unfold stop_process_timer; rewrite E; split; assumption].
    destruct (stop_windows h m started E) as (_ & _ & _ & Et).
    unfold untracked_temperature. rewrite Et, Hf.
    split; [|assumption]. unfold stop_process_timer. rewrite E. exact Hf.
  - split; [assumption|reflexivity].
Qed.

(** X15: on a host without psutil the monitor never takes a memory
    sample, and on a host without the thermal file it never takes a
    temperature sample: after the constructor and any run of calls,
    [get_memory_usage], respectively [get_temperature], is 0.  On a host
    with the thermal file, a stop during which the file cannot be read
    leaves the temperature window as it was. *)
Theorem untracked_readings_stay_zero :
  (forall max_samples now has_thermal cs,
      get_memory_usage (calls cs (init max_samples now false has_thermal)) = 0)
  /\ (forall max_samples now has_psutil cs,
      get_temperature (calls cs (init max_samples now has_psutil false)) = 0)
  /\ (forall h m,
      thermal_raw h = None ->
      temperature_samples (stop_process_timer h m) = temperature_samples m).
Proof.
  split; [|split].
  - intros n now th cs.
    assert (H : untracked_memory (calls cs (init n now false th))).
    { apply (calls_invariant untracked_memory).
      - intros c m. apply call_untracked_memory.
      - split; reflexivity. }
    destruct H as [_ He]. unfold get_memory_usage. now rewrite He.
  - intros n now p cs.
    assert (H : untracked_temperature (calls cs (init n now p false))).
    { apply (calls_invariant untracked_temperature).
      - intros c m. apply call_untracked_temperature.
      - split; reflexivity. }
    destruct H as [_ He]. unfold get_temperature. now rewrite He.
  - intros h m Hraw.
    destruct (process_start_time m) as [started|] eqn:E;
      [|unfold stop_process_timer; now rewrite E].
    destruct (stop_windows h m started E) as (_ & _ & _ & Et).
    rewrite Et, Hraw. now destruct (track_temperature m).
Qed.

End MonitorOpsFacts.

(* ------------------------------------------------------------------ *)
(** ** Alert manager: runs of attempts *)

Module AlertRunFacts.
Import Data AlertManager AlertSpec.

Lemma count_channel_starts m stamp dets :
  List.length (filter is_thread_start (channel_starts m stamp dets))
  = channel_count m.
Proof.
  unfold channel_starts, channel_count.
  destruct (email_enabled m), (telegram_enabled m); reflexivity.
Qed.

(** The three ways a call can go, with what it leaves behind. *)
Lemma send_alert_cases host frame dets t stamp m :
  (result (send_alert host frame dets t stamp m) = Returned false
   /\ after (send_alert host frame dets t stamp m) = m
   /\ filter is_image_write (events (send_alert host frame dets t stamp m)) = []
   /\ filter is_json_dump (events (send_alert host frame dets t stamp m)) = []
   /\ filter is_thread_start (events (send_alert host frame dets t stamp m)) = [])
  \/ (result (send_alert host frame dets t stamp m) = Returned true
      /\ after (send_alert host frame dets t stamp m) = set_last_alert_time t m
      /\ cooldown_seconds m <= t - last_alert_time m
      /\ List.length
           (filter is_image_write (events (send_alert host frame dets t stamp m)))
         = 1%nat
      /\ List.length
           (filter is_json_dump (events (send_alert host frame dets t stamp m)))
         = 1%nat
      /\ List.length
           (filter is_thread_start (events (send_alert host frame dets t stamp m)))
         = channel_count m)
  \/ (exists step,
      result (send_alert host frame dets t stamp m) = Exception step
      /\ after (send_alert host frame dets t stamp m) = set_last_alert_time t m
      /\ cooldown_seconds m <= t - last_alert_time m
      /\ (List.length
            (filter is_json_dump (events (send_alert host frame dets t stamp m)))
          <= List.length
               (filter is_image_write
                  (events (send_alert host frame dets t stamp m))))%nat
      /\ (List.length
            (filter is_image_write (events (send_alert host frame dets t stamp m)))
          <= 1)%nat
      /\ (List.length
            (filter is_thread_start (events (send_alert host frame dets t stamp m)))
          <= channel_count m)%nat).
Proof.
  destruct (enabled m) eqn:He.
  - destruct (Qlt_le_dec (t - last_alert_time m) (cooldown_seconds m)) as [Hlt|Hle].
    + left. rewrite AlertFacts.send_alert_cooling by assumption.
      repeat split.
    + assert (Hge : ~ t - last_alert_time m < cooldown_seconds m)
        by (intros Hlt; exact (Qlt_not_le _ _ Hlt Hle)).
      destruct (raising_step host frame m) as [step|] eqn:Hstep.
      * right. right. exists step.
        rewrite (AlertFacts.send_alert_raising host frame dets t stamp m step
                   He Hge Hstep).
        cbn [result after events].
        split; [reflexivity|]. split; [reflexivity|]. split; [exact Hle|].
        unfold channel_count.
        destruct step as [| |[|]]; cbn [done_before app];
          destruct (email_enabled m), (telegram_enabled m); cbn; lia.
      * right. left.
        rewrite (AlertFacts.send_alert_dispatch host frame dets t stamp m
                   He Hge Hstep).
        cbn [result after events].
        split; [reflexivity|]. split; [reflexivity|]. split; [exact Hle|].
        unfold channel_count, channel_starts.
        destruct (email_enabled m), (telegram_enabled m); cbn; auto.
  - left. rewrite AlertFacts.send_alert_disabled by assumption. repeat split.
Qed.

Lemma flags_of_result o r :
  result o = r ->
  returned_true o = match r with Returned true => true | _ => false end
  /\ raised o = match r with Exception _ => true | _ => false end
  /\ passed_gate o = match r with Returned false => false | _ => true end.
Proof.
  intros <-. unfold passed_gate, returned_true, raised.
  now destruct (result o) as [[|]|].
Qed.

Ltac use_result Hr :=
  let F1 := fresh "F" in
  let F2 := fresh "F" in
  let F3 := fresh "F" in
  destruct (flags_of_result _ _ Hr) as (F1 & F2 & F3);
  rewrite ?F1, ?F2, ?F3; clear F1 F2 F3.

Lemma last_nonempty (x d1 d2 : Q) (l : list Q) :
  last (x :: l) d1 = last (x :: l) d2.
Proof.
  revert x. induction l as [|y l IH]; intros x; [reflexivity|].
  change (last (y :: l) d1 = last (y :: l) d2). apply IH.
Qed.

Lemma last_after_head (t d : Q) (l : list Q) : last l t = last (t :: l) d.
Proof.
  destruct l as [|x l]; [reflexivity|].
  change (last (x :: l) t = last (x :: l) d). apply last_nonempty.
Qed.

(** The calls that returned [True] are spaced as well when the cooldown
    is not negative; [D] is the reading of the last one. *)
Lemma dispatch_spaced frame dets attempts : forall m D,
  0 <= cooldown_seconds m -> D <= last_alert_time m ->
  spaced (cooldown_seconds m) D
         (dispatch_times attempts (send_alerts frame dets attempts m)).
Proof.
  unfold dispatch_times.
  induction attempts as [|[host t stamp] attempts IH]; intros m D Hc HD.
  - exact I.
  - cbn [send_alerts times_of at_host at_clock at_stamp].
    destruct (send_alert_cases host frame dets t stamp m)
      as [(Hr & Ha & _)|[(Hr & Ha & Hgap & _)|(step & Hr & Ha & Hgap & _)]];
      use_result Hr; rewrite Ha.
    + now apply IH.
    + split; [lra|].
      apply (IH (set_last_alert_time t m) t); [exact Hc|]. cbn. lra.
    + apply (IH (set_last_alert_time t m) D); [exact Hc|]. cbn. lra.
Qed.

(** X16: whatever the attempts and whatever the host does, two alerts are
    never let through less than [cooldown_seconds] apart: in any run of
    [send_alert] calls on one manager, each call that gets past the
    cooldown check (it then returns [True], or raises on the way) has a
    clock reading at least the cooldown after that of the previous one
    that did (for the first, after the manager's [last_alert_time]).
    Afterwards [last_alert_time] is the reading of the last such call, or
    unchanged if there was none.  With a cooldown that is not negative
    the calls that returned [True] are that far apart as well, and when
    no call raised they are the calls that got past the check.  The
    cooldown and the enabled flags are never changed. *)
Theorem dispatches_are_spaced_by_cooldown :
  forall frame dets attempts m,
    let outcomes := send_alerts frame dets attempts m in
    spaced (cooldown_seconds m) (last_alert_time m)
           (commit_times attempts outcomes)
    /\ last_alert_time (final_manager m outcomes)
       = last (commit_times attempts outcomes) (last_alert_time m)
    /\ (0 <= cooldown_seconds m ->
        spaced (cooldown_seconds m) (last_alert_time m)
               (dispatch_times attempts outcomes))
    /\ (forallb (fun o => negb (raised o)) outcomes = true ->
        dispatch_times attempts outcomes = commit_times attempts outcomes)
    /\ cooldown_seconds (final_manager m outcomes) = cooldown_seconds m
    /\ enabled (final_manager m outcomes) = enabled m
    /\ email_enabled (final_manager m outcomes) = email_enabled m
    /\ telegram_enabled (final_manager m outcomes) = telegram_enabled m.
Proof.
  intros frame dets attempts m. cbv zeta.
  assert (Hmain : forall m,
    spaced (cooldown_seconds m) (last_alert_time m)
           (commit_times attempts (send_alerts frame dets attempts m))
    /\ last_alert_time (final_manager m (send_alerts frame dets attempts m))
       = last (commit_times attempts (send_alerts frame dets attempts m))
              (last_alert_time m)
    /\ (forallb (fun o => negb (raised o)) (send_alerts frame dets attempts m)
        = true ->
        dispatch_times attempts (send_alerts frame dets attempts m)
        = commit_times attempts (send_alerts frame dets attempts m))
    /\ cooldown_seconds (final_manager m (send_alerts frame dets attempts m))
       = cooldown_seconds m
    /\ enabled (final_manager m (send_alerts frame dets attempts m)) = enabled m
    /\ email_enabled (final_manager m (send_alerts frame dets attempts m))
       = email_enabled m
    /\ telegram_enabled (final_manager m (send_alerts frame dets attempts m))
       = telegram_enabled m).
  { clear m. unfold commit_times, dispatch_times.
    induction attempts as [|[host t stamp] attempts IH]; intros m.
    - simpl. repeat split.
    - cbn [send_alerts times_of final_manager forallb at_host at_clock at_stamp].
      specialize (IH (after (send_alert host frame dets t stamp m))).
      destruct (send_alert_cases host frame dets t stamp m)
        as [(Hr & Ha & _)|[(Hr & Ha & Hgap & _)|(step & Hr & Ha & Hgap & _)]];
        use_result Hr; rewrite Ha in IH |- *; cbn [orb negb andb].
      + exact IH.
      + cbn [set_last_alert_time cooldown_seconds last_alert_time
             enabled email_enabled telegram_enabled] in IH.
        destruct IH as (Hs & Hl & Hd & Hc & He & Hm & Ht).
        split; [split; assumption|].
        split; [rewrite Hl; apply last_after_head|].
        split; [intros Hall; f_equal; now apply Hd|].
        repeat split; assumption.
      + cbn [set_last_alert_time cooldown_seconds last_alert_time
             enabled email_enabled telegram_enabled] in IH.
        destruct IH as (Hs & Hl & Hd & Hc & He & Hm & Ht).
        split; [split; assumption|].
        split; [rewrite Hl; apply last_after_head|].
        split; [discriminate|].
        repeat split; assumption. }
  destruct (Hmain m) as (Hs & Hl & Hd & Hrest).
  split; [exact Hs|]. split; [exact Hl|].
  split; [|split; [exact Hd|exact Hrest]].
  intros Hc. apply dispatch_spaced; [exact Hc|apply Qle_refl].
Qed.

(** X17: every call that returns [True] leaves exactly one image, one
    detections record under the same stamp and one started sender thread
    per enabled channel; a refused call leaves none; a call that raises
    leaves at most one image, a record only with its image, and at most
    one thread per enabled channel.  So over any run of attempts, with
    [n] calls that returned [True] and [r] that raised, the number of
    records is at least [n] and at most the number of images, which is
    at most [n + r], and the number of threads started lies between [n]
    and [n + r] times the number of enabled channels.  When no call
    raised, images and records both number [n], and the threads [n]
    times the number of enabled channels. *)
Theorem one_artifact_pair_per_dispatch :
  forall frame dets attempts m,
    let outcomes := send_alerts frame dets attempts m in
    let n := List.length (dispatch_times attempts outcomes) in
    let r := List.length (filter raised outcomes) in
    let images := persisted_count outcomes in
    let records := List.length (filter is_json_dump (flat_map events outcomes)) in
    let threads := List.length (filter is_thread_start (flat_map events outcomes)) in
    (n <= records)%nat /\ (records <= images)%nat /\ (images <= n + r)%nat
    /\ (n * channel_count m <= threads)%nat
    /\ (threads <= (n + r) * channel_count m)%nat
    /\ (r = 0%nat ->
        images = n /\ records = n /\ threads = (n * channel_count m)%nat).
Proof.
  intros frame dets attempts m. cbv zeta.
  assert (Hmain : forall m,
    (List.length (dispatch_times attempts (send_alerts frame dets attempts m))
     <= List.length (filter is_json_dump
                       (flat_map events (send_alerts frame dets attempts m))))%nat
    /\ (List.length (filter is_json_dump
                       (flat_map events (send_alerts frame dets attempts m)))
        <= persisted_count (send_alerts frame dets attempts m))%nat
    /\ (persisted_count (send_alerts frame dets attempts m)
        <= List.length (dispatch_times attempts (send_alerts frame dets attempts m))
           + List.length (filter raised (send_alerts frame dets attempts m)))%nat
    /\ (List.length (dispatch_times attempts (send_alerts frame dets attempts m))
        * channel_count m
        <= List.length (filter is_thread_start
                          (flat_map events (send_alerts frame dets attempts m))))%nat
    /\ (List.length (filter is_thread_start
                       (flat_map events (send_alerts frame dets attempts m)))
        <= (List.length (dispatch_times attempts (send_alerts frame dets attempts m))
            + List.length (filter raised (send_alerts frame dets attempts m)))
           * channel_count m)%nat).
  { clear m. unfold persisted_count, dispatch_times.
    induction attempts as [|[host t stamp] attempts IH]; intros m.
    - simpl. repeat split; lia.
    - cbn [send_alerts times_of flat_map filter at_host at_clock at_stamp].
      specialize (IH (after (send_alert host frame dets t stamp m))).
      rewrite !filter_app, !length_app.
      destruct (send_alert_cases host frame dets t stamp m)
        as [(Hr & Ha & Hi & Hj & Ht)
           |[(Hr & Ha & _ & Hi & Hj & Ht)|(step & Hr & Ha & _ & Hji & Hi & Ht)]];
        use_result Hr; rewrite Ha in IH |- *.
      + rewrite Hi, Hj, Ht. cbn [List.length]. lia.
      + change (channel_count (set_last_alert_time t m)) with (channel_count m) in IH.
        rewrite Hi, Hj, Ht. cbn [List.length]. nia.
      + change (channel_count (set_last_alert_time t m)) with (channel_count m) in IH.
        cbn [List.length]. nia. }
  destruct (Hmain m) as (H1 & H2 & H3 & H4 & H5).
  repeat split; try assumption; nia.
Qed.

End AlertRunFacts.

(* ------------------------------------------------------------------ *)
(** ** The output stage *)

Module OutputFacts.
Import Data OutputStage.

Lemma alert_part_quiet cfg tk st :
  detections tk = [] -> alert_part cfg tk st = (st, []).
Proof. intros H. unfold alert_part. now rewrite H. Qed.

Lemma alert_part_cases cfg tk st :
  alert_part cfg tk st = (st, [])
  \/ (detections tk <> []
      /\ cooldown_seconds cfg < clock_should tk - last_alert_time st
      /\ alert_part cfg tk st = send_and_log tk st).
Proof.
  unfold alert_part, should_send_alert.
  destruct (detections tk) as [|d ds] eqn:E; [now left|].
  cbn [nonempty andb].
  destruct (Qlt_le_dec (cooldown_seconds cfg) (clock_should tk - last_alert_time st))
    as [Hlt|_]; [|now left].
  right. split; [discriminate|]. split; [exact Hlt|reflexivity].
Qed.

Lemma alert_part_open cfg tk st :
  detections tk <> [] ->
  cooldown_seconds cfg < clock_should tk - last_alert_time st ->
  alert_part cfg tk st = send_and_log tk st.
Proof.
  intros Hne Hgate. unfold alert_part, should_send_alert.
  destruct (detections tk); [contradiction|]. cbn [nonempty andb].
  destruct (Qlt_le_dec (cooldown_seconds cfg)
              (clock_should tk - last_alert_time st)) as [_|Hle];
    [reflexivity|].
  exfalso. exact (Qlt_not_le _ _ Hgate Hle).
Qed.

Lemma ended_alert_events evs e :
  thread_ended (map Alert evs ++ [e]) = is_uncaught e.
Proof.
  unfold thread_ended. rewrite existsb_app.
  assert (H : existsb is_uncaught (map Alert evs) = false)
    by (induction evs; auto).
  rewrite H. cbn. apply orb_false_r.
Qed.

(** The alert part ends the thread exactly when its last event says so,
    and it leaves the frame counter, [running] and the video writer
    alone; all its events are alert events. *)
Lemma send_and_log_keeps tk st :
  last_saved_frame (fst (send_and_log tk st)) = last_saved_frame st
  /\ running (fst (send_and_log tk st)) = running st
  /\ output_video (fst (send_and_log tk st)) = output_video st
  /\ forallb (fun e => negb (after_alert_part e)) (snd (send_and_log tk st))
     = true.
Proof.
  assert (H : forall evs : list AlertManager.Event,
             forallb (fun e => negb (after_alert_part e)) (map Alert evs) = true)
    by (induction evs; auto).
  unfold send_and_log.
  destruct (AlertManager.result _);
    cbn [fst snd last_saved_frame running output_video]; repeat split;
    rewrite forallb_app, H; reflexivity.
Qed.

Lemma alert_part_keeps cfg tk st :
  last_saved_frame (fst (alert_part cfg tk st)) = last_saved_frame st
  /\ running (fst (alert_part cfg tk st)) = running st
  /\ output_video (fst (alert_part cfg tk st)) = output_video st
  /\ forallb (fun e => negb (after_alert_part e)) (snd (alert_part cfg tk st)) = true.
Proof.
  destruct (alert_part_cases cfg tk st) as [E|(_ & _ & E)]; rewrite E;
    [repeat split|apply send_and_log_keeps].
Qed.

(** What an iteration adds to the alert part never is an alert event. *)
Lemma handle_item_shape cfg tk st :
  exists later,
    snd (handle_item cfg tk st) = snd (alert_part cfg tk st) ++ later
    /\ forallb after_alert_part later = true
    /\ alert_manager (fst (handle_item cfg tk st))
       = alert_manager (fst (alert_part cfg tk st))
    /\ last_alert_time (fst (handle_item cfg tk st))
       = last_alert_time (fst (alert_part cfg tk st)).
Proof.
  unfold handle_item.
  destruct (alert_part cfg tk st) as [st1 ev1]. cbn [fst snd].
  destruct (thread_ended ev1).
  { exists []. cbn [fst snd]. rewrite app_nil_r. repeat split. }
  destruct (display_video cfg && key_is_q tk).
  - exists [ImShow (frame tk)]. repeat split.
  - destruct (save_detection_frames cfg && nonempty (detections tk)
              && (frame_save_interval cfg
                  <=? Z.of_nat (count_check tk) - Z.of_nat (last_saved_frame st1))%Z);
      cbn [fst snd];
      eexists; (split; [reflexivity|]); (split; [|split; reflexivity]);
      rewrite !forallb_app;
      destruct (display_video cfg), (save_video cfg && output_video st1);
      cbn [forallb after_alert_part andb save_detection_frame];
      induction (detections tk); auto.
Qed.

Lemma filter_later (f : Event -> bool) later :
  (forall e, after_alert_part e = true -> f e = false) ->
  forallb after_alert_part later = true -> filter f later = [].
Proof.
  intros Hf. induction later as [|e later IH]; [reflexivity|].
  cbn [forallb filter]. intros H. apply andb_prop in H. destruct H as [He Hl].
  rewrite (Hf e He). now apply IH.
Qed.

Lemma handle_item_alert_events (f : Event -> bool) cfg tk st :
  (forall e, after_alert_part e = true -> f e = false) ->
  filter f (snd (handle_item cfg tk st)) = filter f (snd (alert_part cfg tk st)).
Proof.
  intros Hf. destruct (handle_item_shape cfg tk st) as (later & -> & Hl & _).
  rewrite filter_app, (filter_later f later Hf Hl). apply app_nil_r.
Qed.

Lemma thread_ended_filter evs :
  thread_ended evs = negb (List.length (filter is_uncaught evs) =? 0)%nat.
Proof.
  unfold thread_ended. induction evs as [|e evs IH]; [reflexivity|].
  cbn [existsb filter]. destruct (is_uncaught e); [reflexivity|exact IH].
Qed.

Lemma handle_item_ended cfg tk st :
  thread_ended (snd (handle_item cfg tk st))
  = thread_ended (snd (alert_part cfg tk st)).
Proof.
  rewrite !thread_ended_filter.
  rewrite (handle_item_alert_events is_uncaught)
    by (intros []; (discriminate || reflexivity)).
  reflexivity.
Qed.

Lemma handle_output_cons cfg tk rest st :
  running st = true ->
  thread_ended (snd (handle_item cfg tk st)) = false ->
  handle_output cfg (tk :: rest) st =
  (fst (handle_output cfg rest (fst (handle_item cfg tk st))),
   snd (handle_item cfg tk st)
   ++ snd (handle_output cfg rest (fst (handle_item cfg tk st)))).
Proof.
  intros Hr Hgo. cbn [handle_output]. rewrite Hr. cbn [negb].
  destruct (handle_item cfg tk st) as [st1 ev1]. cbn [fst snd] in *.
  rewrite Hgo. now destruct (handle_output cfg rest st1).
Qed.

Lemma handle_output_ended cfg tk rest st :
  running st = true ->
  thread_ended (snd (handle_item cfg tk st)) = true ->
  handle_output cfg (tk :: rest) st = handle_item cfg tk st.
Proof.
  intros Hr Hend. cbn [handle_output]. rewrite Hr. cbn [negb].
  destruct (handle_item cfg tk st) as [st1 ev1]. cbn [fst snd] in *.
  now rewrite Hend.
Qed.

Lemma handle_output_stopped cfg ticks st :
  running st = false -> handle_output cfg ticks st = (st, []).
Proof. intros Hr. destruct ticks; cbn [handle_output]; now rewrite ?Hr. Qed.

Lemma filter_map_alert (f : Event -> bool) (g : AlertManager.Event -> bool) evs :
  (forall e, f (Alert e) = g e) ->
  List.length (filter f (map Alert evs)) = List.length (filter g evs).
Proof.
  intros Hfg. induction evs as [|e evs IH]; [reflexivity|].
  cbn [map filter]. rewrite Hfg. destruct (g e); cbn [List.length]; now rewrite IH.
Qed.

Lemma filter_nothing (evs : list AlertManager.Event) :
  filter (fun _ => false) evs = [].
Proof. induction evs; auto. Qed.

(** One item under agreeing gates: either the alert part comes back, the
    gates still agree and it has logged as many alerts as it has written
    images; or the call raised, with nothing logged and at most one
    image written. *)
Lemma alert_part_agrees cfg tk st prev :
  gates_agree cfg prev st ->
  prev <= clock_should tk -> clock_should tk <= clock_send tk ->
  clock_send tk <= clock_after tk ->
  (thread_ended (snd (alert_part cfg tk st)) = false
   /\ gates_agree cfg (clock_after tk) (fst (alert_part cfg tk st))
   /\ List.length (filter is_log_alert_sent (snd (alert_part cfg tk st)))
      = List.length (filter is_alert_image (snd (alert_part cfg tk st)))
   /\ List.length (filter is_uncaught (snd (alert_part cfg tk st))) = 0%nat)
  \/ (thread_ended (snd (alert_part cfg tk st)) = true
      /\ List.length (filter is_log_alert_sent (snd (alert_part cfg tk st)))
         = 0%nat
      /\ (List.length (filter is_alert_image (snd (alert_part cfg tk st)))
          <= 1)%nat
      /\ List.length (filter is_uncaught (snd (alert_part cfg tk st))) = 1%nat).
Proof.
  intros (He & Hc & Hm & Hs) H1 H2 H3.
  destruct (alert_part_cases cfg tk st) as [E|(Hne & Hgate & E)]; rewrite E.
  - left. cbn [fst snd]. split; [reflexivity|].
    split; [|split; reflexivity]. repeat split; try assumption. lra.
  - assert (Hopen : ~ clock_send tk - AlertManager.last_alert_time (alert_manager st)
                      < AlertManager.cooldown_seconds (alert_manager st))
      by (rewrite Hc; lra).
    unfold send_and_log.
    destruct (AlertManager.raising_step (alert_host tk) (frame tk)
                (alert_manager st)) as [step|] eqn:Hstep.
    + right.
      rewrite (AlertFacts.send_alert_raising (alert_host tk) (frame tk)
                 (detections tk) (clock_send tk) (alert_stamp tk)
                 (alert_manager st) step He Hopen Hstep).
      cbn [AlertManager.result AlertManager.after AlertManager.events fst snd].
      split; [apply ended_alert_events|].
      rewrite !filter_app, !length_app.
      rewrite (filter_map_alert is_log_alert_sent (fun _ => false))
        by reflexivity.
      rewrite (filter_map_alert is_uncaught (fun _ => false))
        by reflexivity.
      rewrite (filter_map_alert is_alert_image AlertManager.is_image_write)
        by (intros []; reflexivity).
      rewrite !filter_nothing.
      split; [reflexivity|]. split; [|reflexivity].
      destruct step as [| |[|]]; cbn [AlertManager.done_before app];
        destruct (AlertManager.email_enabled (alert_manager st)); cbn; lia.
    + left.
      rewrite (AlertFacts.send_alert_dispatch (alert_host tk) (frame tk)
                 (detections tk) (clock_send tk) (alert_stamp tk)
                 (alert_manager st) He Hopen Hstep).
      cbn [AlertManager.result AlertManager.after AlertManager.events fst snd].
      split; [apply ended_alert_events|].
      split.
      * repeat split; cbn; try assumption; lra.
      * rewrite !filter_app, !length_app.
        rewrite (filter_map_alert is_log_alert_sent (fun _ => false))
          by reflexivity.
        rewrite (filter_map_alert is_uncaught (fun _ => false))
          by reflexivity.
        rewrite (filter_map_alert is_alert_image AlertManager.is_image_write)
          by (intros []; reflexivity).
        rewrite !filter_nothing.
        cbn [app filter AlertManager.is_image_write].
        rewrite filter_app,
          (AlertFacts.filter_channel_starts AlertManager.is_image_write)
          by reflexivity.
        split; reflexivity.
Qed.

(** X18: the two cooldown checks agree.  Start with a manager that is
    enabled and reads the same cooldown as the output stage, with a clock
    that never goes back and recorded alert times not ahead of it (as
    right after start-up).  Then over any items, every time the output
    stage lets an alert through, the manager lets it through as well:
    each "Alert sent" log line has its alert image written, so there are
    at least as many images as lines.  An image without its line exists
    only when [send_alert] raised after writing it, which ends the
    thread: there is at most one such image, and when the thread has not
    ended the number of "Alert sent" lines equals the number of alert
    images written. *)
Theorem every_logged_alert_is_dispatched :
  forall cfg ticks st prev,
    gates_agree cfg prev st -> clock_monotone prev ticks ->
    (List.length (filter is_log_alert_sent (snd (handle_output cfg ticks st)))
     <= List.length (filter is_alert_image (snd (handle_output cfg ticks st))))%nat
    /\ (List.length (filter is_alert_image (snd (handle_output cfg ticks st)))
        <= List.length
             (filter is_log_alert_sent (snd (handle_output cfg ticks st)))
           + List.length (filter is_uncaught (snd (handle_output cfg ticks st))))%nat
    /\ (List.length (filter is_uncaught (snd (handle_output cfg ticks st)))
        <= 1)%nat
    /\ (thread_ended (snd (handle_output cfg ticks st)) = false ->
        List.length (filter is_log_alert_sent (snd (handle_output cfg ticks st)))
        = List.length (filter is_alert_image (snd (handle_output cfg ticks st)))).
Proof.
  intros cfg ticks st prev Hag Hmono.
  assert (Hmain :
    (List.length (filter is_log_alert_sent (snd (handle_output cfg ticks st)))
     <= List.length (filter is_alert_image (snd (handle_output cfg ticks st))))%nat
    /\ (List.length (filter is_alert_image (snd (handle_output cfg ticks st)))
        <= List.length
             (filter is_log_alert_sent (snd (handle_output cfg ticks st)))
           + List.length (filter is_uncaught (snd (handle_output cfg ticks st))))%nat
    /\ (List.length (filter is_uncaught (snd (handle_output cfg ticks st)))
        <= 1)%nat).
  { revert st prev Hag Hmono.
    induction ticks as [|tk rest IH]; intros st prev Hag Hmono.
    - cbn. lia.
    - destruct (running st) eqn:Hr;
        [|rewrite handle_output_stopped by assumption; cbn; lia].
      destruct Hmono as (H1 & H2 & H3 & Hrest).
      pose proof (handle_item_alert_events is_log_alert_sent cfg tk st) as Flog.
      pose proof (handle_item_alert_events is_alert_image cfg tk st) as Fimg.
      pose proof (handle_item_alert_events is_uncaught cfg tk st) as Func.
      specialize (Flog ltac:(intros []; (discriminate || reflexivity))).
      specialize (Fimg ltac:(intros []; (discriminate || reflexivity))).
      specialize (Func ltac:(intros []; (discriminate || reflexivity))).
      destruct (alert_part_agrees cfg tk st prev Hag H1 H2 H3)
        as [(Hgo & Hag' & Hcount & Hnone)|(Hend & Hlog & Himg & Hone)].
      + rewrite handle_output_cons
          by (assumption || (rewrite handle_item_ended; assumption)).
        cbn [snd]. rewrite !filter_app, !length_app, Flog, Fimg, Func.
        rewrite Hcount, Hnone.
        assert (Hag2 : gates_agree cfg (clock_after tk)
                         (fst (handle_item cfg tk st))).
        { destruct (handle_item_shape cfg tk st) as (_ & _ & _ & Em & El).
          destruct Hag' as (He & Hc & Hm & Hs).
          unfold gates_agree. rewrite Em, El. now repeat split. }
        specialize (IH _ _ Hag2 Hrest). lia.
      + rewrite handle_output_ended
          by (assumption || (rewrite handle_item_ended; assumption)).
        rewrite Flog, Fimg, Func, Hlog, Hone. lia. }
  destruct Hmain as (Ha & Hb & Hc).
  split; [exact Ha|]. split; [exact Hb|]. split; [exact Hc|].
  intros Hgo. rewrite thread_ended_filter in Hgo.
  apply negb_false_iff, Nat.eqb_eq in Hgo. lia.
Qed.

Lemma every_logged_alert_is_dispatched_witness :
  gates_agree sample_config 0 (started AlertManager.default_manager true) /\
  clock_monotone 0 [sample_tick 1000 10 false; sample_tick 1030 40 false;
                    troubled_tick 1061 70; sample_tick 1200 90 false] /\
  List.length
    (filter is_log_alert_sent
       (snd (handle_output sample_config
               [sample_tick 1000 10 false; sample_tick 1030 40 false;
                troubled_tick 1061 70; sample_tick 1200 90 false]
               (started AlertManager.default_manager true)))) = 1%nat /\
  List.length
    (filter is_alert_image
       (snd (handle_output sample_config
               [sample_tick 1000 10 false; sample_tick 1030 40 false;
                troubled_tick 1061 70; sample_tick 1200 90 false]
               (started AlertManager.default_manager true)))) = 2%nat /\
  (List.length
     (filter is_alert_image
        (snd (handle_output sample_config
                [sample_tick 1000 10 false; sample_tick 1030 40 false;
                 troubled_tick 1061 70; sample_tick 1200 90 false]
                (started AlertManager.default_manager true))))
   <= List.length
        (filter is_log_alert_sent
           (snd (handle_output sample_config
                   [sample_tick 1000 10 false; sample_tick 1030 40 false;
                    troubled_tick 1061 70; sample_tick 1200 90 false]
                   (started AlertManager.default_manager true))))
      + List.length
          (filter is_uncaught
             (snd (handle_output sample_config
                     [sample_tick 1000 10 false; sample_tick 1030 40 false;
                      troubled_tick 1061 70; sample_tick 1200 90 false]
                     (started AlertManager.default_manager true)))))%nat.
Proof.
  assert (Hag : gates_agree sample_config 0
                  (started AlertManager.default_manager true)).
  { repeat split; cbn; lra. }
  assert (Hmono : clock_monotone 0 [sample_tick 1000 10 false;
                    sample_tick 1030 40 false; troubled_tick 1061 70;
                    sample_tick 1200 90 false]).
  { cbn. repeat split; lra. }
  split; [exact Hag|]. split; [exact Hmono|].
  split; [reflexivity|]. split; [reflexivity|].
  exact (proj1 (proj2
    (every_logged_alert_is_dispatched sample_config _ _ 0 Hag Hmono))).
Defined.

(** *** Items without detections, a disabled manager, the quit key *)


(** X19: an item with no detection raises no alert and saves no frame:
    the manager, both recorded alert times and the last saved frame number
    are left as they were, and the iteration produces no alert event, no
    "Alert sent" line, no saved detection frame and no intrusion line,
    whatever the clock and the frame counter say.  Only the display and
    the video writer see the frame. *)
Theorem item_without_detections_is_quiet :
  forall cfg tk st,
    detections tk = [] ->
    alert_manager (fst (handle_item cfg tk st)) = alert_manager st
    /\ last_alert_time (fst (handle_item cfg tk st)) = last_alert_time st
    /\ last_saved_frame (fst (handle_item cfg tk st)) = last_saved_frame st
    /\ snd (handle_item cfg tk st)
       = (if display_video cfg then [ImShow (frame tk)] else [])
         ++ (if negb (display_video cfg && key_is_q tk)
                && (save_video cfg && output_video st)
             then [VideoWrite (frame tk)] else []).
Proof.
  intros cfg tk st Hd. unfold handle_item.
  rewrite alert_part_quiet by assumption. rewrite Hd.
  cbn [nonempty map thread_ended existsb]. rewrite andb_false_r. cbn [andb].
  destruct (display_video cfg), (key_is_q tk); cbn [andb negb];
    destruct (save_video cfg && output_video st); repeat split.
Qed.

Lemma item_without_detections_is_quiet_witness :
  detections quiet_tick = [] /\
  fst (handle_item sample_config quiet_tick
         (started AlertManager.default_manager true))
  = started AlertManager.default_manager true /\
  snd (handle_item sample_config quiet_tick
         (started AlertManager.default_manager true))
  = [ImShow AlertManager.sample_frame; VideoWrite AlertManager.sample_frame].
Proof.
  split; [reflexivity|]. split; [reflexivity|].
  exact (proj2 (proj2 (proj2
    (item_without_detections_is_quiet sample_config quiet_tick
       (started AlertManager.default_manager true) eq_refl)))).
Defined.

Lemma disabled_send_and_log tk st :
  AlertManager.enabled (alert_manager st) = false ->
  send_and_log tk st
  = (mkState (alert_manager st) (clock_after tk) (last_saved_frame st)
             (running st) (output_video st),
     [LogAlertSent (List.length (detections tk))]).
Proof.
  intros He. unfold send_and_log.
  rewrite AlertFacts.send_alert_disabled by assumption. reflexivity.
Qed.

Lemma disabled_alert_part cfg tk st :
  AlertManager.enabled (alert_manager st) = false ->
  AlertManager.enabled (alert_manager (fst (alert_part cfg tk st))) = false
  /\ filter is_alert (snd (alert_part cfg tk st)) = []
  /\ thread_ended (snd (alert_part cfg tk st)) = false.
Proof.
  intros He.
  destruct (alert_part_cases cfg tk st) as [E|(_ & _ & E)]; rewrite E;
    cbn [fst snd alert_manager]; [now repeat split|].
  rewrite disabled_send_and_log by assumption.
  cbn. now repeat split.
Qed.

(** X20: when the manager's [enabled] flag is off, the output stage
    never produces an alert event of any kind, over any items.  Yet an
    item with detections that passes the stage's own cooldown check still
    moves the stage's recorded alert time to the clock reading and writes
    the "Alert sent" line, although nothing was sent. *)
Theorem disabled_manager_sends_nothing_yet_is_logged :
  forall cfg st,
    AlertManager.enabled (alert_manager st) = false ->
    (forall ticks, filter is_alert (snd (handle_output cfg ticks st)) = [])
    /\ (forall tk,
          detections tk <> [] ->
          cooldown_seconds cfg < clock_should tk - last_alert_time st ->
          last_alert_time (fst (handle_item cfg tk st)) = clock_after tk
          /\ filter is_log_alert_sent (snd (handle_item cfg tk st))
             = [LogAlertSent (List.length (detections tk))]).
Proof.
  intros cfg st He. split.
  - intros ticks. revert st He.
    induction ticks as [|tk rest IH]; intros st He; [reflexivity|].
    destruct (running st) eqn:Hr;
      [|now rewrite handle_output_stopped by assumption].
    destruct (disabled_alert_part cfg tk st He) as (He' & Hnil & Hgo).
    rewrite handle_output_cons
      by (assumption || (rewrite handle_item_ended; assumption)).
    cbn [snd].
    destruct (handle_item_shape cfg tk st) as (later & Hev & Hl & Em & _).
    rewrite filter_app, Hev, filter_app, Hnil.
    rewrite (filter_later is_alert later) by
      (assumption || (intros []; (discriminate || reflexivity))).
    cbn [app]. apply IH. now rewrite Em.
  - intros tk Hne Hgate.
    destruct (handle_item_shape cfg tk st) as (later & Hev & Hl & _ & El).
    rewrite El, Hev.
    rewrite (alert_part_open cfg tk st Hne Hgate).
    rewrite disabled_send_and_log by assumption.
    cbn [fst snd last_alert_time]. split; [reflexivity|].
    cbn [app filter is_log_alert_sent].
    rewrite (filter_later is_log_alert_sent later) by
      (assumption || (intros []; (discriminate || reflexivity))).
    reflexivity.
Qed.

Lemma disabled_manager_sends_nothing_yet_is_logged_witness :
  AlertManager.enabled
    (alert_manager (started AlertManager.disabled_manager true)) = false /\
  filter is_alert
    (snd (handle_output sample_config [sample_tick 1000 10 false]
            (started AlertManager.disabled_manager true))) = [] /\
  filter is_log_alert_sent
    (snd (handle_item sample_config (sample_tick 1000 10 false)
            (started AlertManager.disabled_manager true)))
  = [LogAlertSent 1].
Proof.
  split; [reflexivity|]. split.
  - exact (proj1 (disabled_manager_sends_nothing_yet_is_logged sample_config
                    (started AlertManager.disabled_manager true) eq_refl)
             [sample_tick 1000 10 false]).
  - refine (proj2 (proj2 (disabled_manager_sends_nothing_yet_is_logged sample_config
                    (started AlertManager.disabled_manager true) eq_refl)
             (sample_tick 1000 10 false) _ _)).
    + discriminate.
    + cbn. lra.
Defined.

(** X21: the key [q] ends the loop at once.  With the display on, the
    iteration in which [q] is read sets [running] to false and stops
    after showing the frame: that frame's alert part has been done, but
    the frame is not written to the video, no detection frame is saved,
    no intrusion line is logged, and no later item is handled.  (The key
    is read only when the alert part has come back; when [send_alert]
    raised instead, the iteration and the loop end with the alert part
    and the frame is not even shown.) *)
Theorem quit_key_ends_the_loop :
  forall cfg tk rest st,
    running st = true -> display_video cfg = true -> key_is_q tk = true ->
    handle_output cfg (tk :: rest) st = handle_item cfg tk st
    /\ last_saved_frame (fst (handle_item cfg tk st)) = last_saved_frame st
    /\ (thread_ended (snd (alert_part cfg tk st)) = false ->
        running (fst (handle_item cfg tk st)) = false
        /\ snd (handle_item cfg tk st)
           = snd (alert_part cfg tk st) ++ [ImShow (frame tk)])
    /\ (thread_ended (snd (alert_part cfg tk st)) = true ->
        handle_item cfg tk st = alert_part cfg tk st).
Proof.
  intros cfg tk rest st Hr Hd Hq.
  destruct (alert_part_keeps cfg tk st) as (Hs & _).
  destruct (thread_ended (snd (alert_part cfg tk st))) eqn:Hend.
  - assert (Hitem : handle_item cfg tk st = alert_part cfg tk st).
    { unfold handle_item.
      destruct (alert_part cfg tk st) as [st1 ev1]. cbn [snd] in Hend.
      now rewrite Hend. }
    split; [|split; [|split]].
    + apply handle_output_ended; [assumption|].
      now rewrite handle_item_ended.
    + now rewrite Hitem.
    + discriminate.
    + intros _. exact Hitem.
  - assert (Hitem : running (fst (handle_item cfg tk st)) = false
                    /\ last_saved_frame (fst (handle_item cfg tk st))
                       = last_saved_frame st
                    /\ snd (handle_item cfg tk st)
                       = snd (alert_part cfg tk st) ++ [ImShow (frame tk)]).
    { unfold handle_item. rewrite Hd, Hq. cbn [andb].
      destruct (alert_part cfg tk st) as [st1 ev1]. cbn [fst snd] in *.
      rewrite Hend. now repeat split. }
    destruct Hitem as (Hstop & Hsaved & Hev).
    split; [|split; [exact Hsaved|split; [now intros _|discriminate]]].
    rewrite handle_output_cons
      by (assumption || (rewrite handle_item_ended; assumption)).
    rewrite (handle_output_stopped cfg rest _ Hstop). cbn [fst snd].
    rewrite app_nil_r. now destruct (handle_item cfg tk st).
Qed.

Lemma quit_key_ends_the_loop_witness :
  running (started AlertManager.default_manager true) = true /\
  display_video sample_config = true /\
  key_is_q (sample_tick 1000 10 true) = true /\
  handle_output sample_config
    [sample_tick 1000 10 true; sample_tick 2000 900 false]
    (started AlertManager.default_manager true)
  = handle_item sample_config (sample_tick 1000 10 true)
      (started AlertManager.default_manager true).
Proof.
  split; [reflexivity|]. split; [reflexivity|]. split; [reflexivity|].
  exact (proj1 (quit_key_ends_the_loop sample_config (sample_tick 1000 10 true)
                  [sample_tick 2000 900 false]
                  (started AlertManager.default_manager true)
                  eq_refl eq_refl eq_refl)).
Defined.

(** *** Saved detection frames *)




End OutputFacts.

(* ------------------------------------------------------------------ *)
(** ** Configuration loader *)

Module ConfigFacts.
Import ConfigLoader.


Lemma get_set_other {V} k k' (v : V) d :
  k' <> k -> Dict.get k' (Dict.set k v d) = Dict.get k' d.
Proof.
  intros Hne. induction d as [|[k0 v0] d IH]; simpl.
  - apply String.eqb_neq in Hne. now rewrite Hne.
  - destruct (String.eqb_spec k k0) as [<-|Hk]; simpl.
    + apply String.eqb_neq in Hne. now rewrite Hne.
    + now rewrite IH.
Qed.










End ConfigFacts.

(* ------------------------------------------------------------------ *)
(** ** Configuration updates *)

Module ConfigUpdateFacts.
Import ConfigLoader ConfigExamples.

Lemma merged_value_dicts d u :
  merged_value (Some (JDict d)) (JDict u) = JDict (update_nested_dict d u).
Proof.
  cbn [merged_value]. f_equal. revert d.
  induction u as [|[k v] u IH]; intros d; [reflexivity|].
  cbn [update_nested_dict]. apply IH.
Qed.

Lemma merged_value_replaces old v :
  (forall d u, old = Some (JDict d) -> v <> JDict u) ->
  merged_value old v = v.
Proof.
  intros H. destruct v as [| | | | | |u]; try reflexivity.
  destruct old as [[| | | | | |d]|]; try reflexivity.
  exfalso. exact (H d u eq_refl eq_refl).
Qed.

Lemma get_update d u k :
  NoDup (Dict.keys u) ->
  Dict.get k (update_nested_dict d u) =
  match Dict.get k u with
  | Some v => Some (merged_value (Dict.get k d) v)
  | None => Dict.get k d
  end.
Proof.
  revert d. unfold Dict.keys.
  induction u as [|[k0 v0] u IH]; intros d Hnd; [reflexivity|].
  cbn [map fst] in Hnd. inversion Hnd as [|? ? Hnotin Hnd']; subst.
  cbn [update_nested_dict Dict.get]. rewrite IH by assumption.
  destruct (String.eqb_spec k k0) as [->|Hne].
  - assert (Hnone : Dict.get k0 u = None).
    { apply DictFacts.mem_false_get.
      destruct (Dict.mem k0 u) eqn:M; [|reflexivity].
      apply DictFacts.mem_in_keys in M. contradiction. }
    rewrite Hnone. apply DictFacts.get_set_same.
  - rewrite ConfigFacts.get_set_other by assumption. reflexivity.
Qed.

(** X24: what [update_nested_dict] leaves under each key.  For an update
    with distinct keys, a key the update does not name keeps its value; a
    key it names holds the update's value, except where the update's
    value and the old value are both dictionaries: these are merged the
    same way, key by key.  So a scalar, a list, or a dictionary put where
    no dictionary was replaces what was there wholesale. *)
Theorem update_nested_dict_lookup :
  forall d u,
    NoDup (Dict.keys u) ->
    (forall k, Dict.get k u = None ->
               Dict.get k (update_nested_dict d u) = Dict.get k d)
    /\ (forall k d' u',
          Dict.get k d = Some (JDict d') -> Dict.get k u = Some (JDict u') ->
          Dict.get k (update_nested_dict d u)
          = Some (JDict (update_nested_dict d' u')))
    /\ (forall k v,
          Dict.get k u = Some v ->
          (forall d' u', Dict.get k d = Some (JDict d') -> v <> JDict u') ->
          Dict.get k (update_nested_dict d u) = Some v).
Proof.
  intros d u Hnd. split; [|split].
  - intros k Hk. now rewrite get_update, Hk.
  - intros k d' u' Hd Hu. rewrite get_update, Hu, Hd by assumption.
    now rewrite merged_value_dicts.
  - intros k v Hu Hv. rewrite get_update, Hu by assumption.
    now rewrite merged_value_replaces.
Qed.

Lemma update_nested_dict_lookup_witness :
  NoDup (Dict.keys door_off) /\
  Dict.get "alerts" (update_nested_dict two_zone_config door_off)
  = Dict.get "alerts" two_zone_config /\
  Dict.get "zones" (update_nested_dict two_zone_config door_off)
  = Some (JDict
      [("door"%string,
        JDict [("name"%string, JStr "Door"); ("alert_enabled"%string, JBool false)]);
       ("gate"%string,
        JDict [("name"%string, JStr "Gate"); ("alert_enabled"%string, JBool true)])]).
Proof.
  assert (Hnd : NoDup (Dict.keys door_off)) by (repeat constructor; simpl; tauto).
  split; [exact Hnd|]. split.
  - exact (proj1 (update_nested_dict_lookup two_zone_config door_off Hnd)
             "alerts"%string eq_refl).
  - exact (proj1 (proj2 (update_nested_dict_lookup two_zone_config door_off Hnd))
             "zones"%string _ _ eq_refl eq_refl).
Defined.

Lemma keys_grow d : forall u : list (string * json),
  exists added, Dict.keys (update_nested_dict d u) = Dict.keys d ++ added.
Proof.
  intros u. revert d.
  induction u as [|[k v] u IH]; intros d.
  - exists []. now rewrite app_nil_r.
  - cbn [update_nested_dict].
    destruct (IH (Dict.set k (merged_value (Dict.get k d) v) d)) as [added Ha].
    rewrite Ha, DictFacts.keys_set.
    destruct (Dict.mem k d).
    + now exists added.
    + exists (k :: added). now rewrite <- app_assoc.
Qed.

Lemma mem_update d u k :
  Dict.mem k d = true -> Dict.mem k (update_nested_dict d u) = true.
Proof.
  intros H. apply DictFacts.mem_in_keys.
  destruct (keys_grow d u) as [added ->].
  apply in_or_app. left. now apply DictFacts.mem_in_keys.
Qed.

(** X25: [update_config] never removes an entry.  Every key of the
    configuration is still there afterwards, the old keys first and in
    their order; and where the configuration and the update both hold a
    dictionary under a key, every key of the old dictionary is still in
    the merged one.  So passing a zones dictionary that lacks a zone does
    not delete that zone from the configuration. *)
Theorem update_config_never_removes :
  forall config updates,
    (exists added,
        Dict.keys (update_config config updates) = Dict.keys config ++ added)
    /\ (forall k, Dict.mem k config = true ->
                  Dict.mem k (update_config config updates) = true)
    /\ (NoDup (Dict.keys updates) ->
        forall k old new inner,
          Dict.get k config = Some (JDict old) ->
          Dict.get k updates = Some (JDict new) ->
          Dict.mem inner old = true ->
          exists merged,
            Dict.get k (update_config config updates) = Some (JDict merged)
            /\ Dict.mem inner merged = true).
Proof.
  intros config updates. unfold update_config.
  split; [apply keys_grow|]. split; [intros k; apply mem_update|].
  intros Hnd k old new inner Hc Hu Hin.
  exists (update_nested_dict old new). split.
  - rewrite get_update, Hu, Hc by assumption. now rewrite merged_value_dicts.
  - now apply mem_update.
Qed.

End ConfigUpdateFacts.

(* ------------------------------------------------------------------ *)
(** ** Detection results: order and empty cases *)

Module ResultsFacts.
Import Geometry Data Pipeline.

Section ProcessResults.
Variable contains : Polygon -> Point -> bool.
Variable zones : ZoneManager.Zones.
Variable target_classes : list Z.
Variable names : Z -> string.
Variable now_iso : nat -> string.

Lemma process_boxes_acc boxes : forall i acc,
  process_boxes contains zones target_classes names now_iso i boxes acc =
  acc ++ process_boxes contains zones target_classes names now_iso i boxes [].
Proof.
  induction boxes as [|b boxes IH]; intros i acc; cbn [process_boxes].
  - now rewrite app_nil_r.
  - destruct (process_box contains zones target_classes names now_iso i b) as [d|].
    + rewrite (IH (S i) (acc ++ [d])), (IH (S i) ([] ++ [d])).
      now rewrite <- app_assoc.
    + apply IH.
Qed.

Lemma process_boxes_app boxes1 : forall boxes2 i acc,
  process_boxes contains zones target_classes names now_iso i (boxes1 ++ boxes2) acc =
  process_boxes contains zones target_classes names now_iso
    (i + List.length boxes1) boxes2
    (process_boxes contains zones target_classes names now_iso i boxes1 acc).
Proof.
  induction boxes1 as [|b boxes1 IH]; intros boxes2 i acc;
    cbn [app process_boxes List.length].
  - now rewrite Nat.add_0_r.
  - rewrite Nat.add_succ_r.
    destruct (process_box contains zones target_classes names now_iso i b);
      apply IH.
Qed.

Lemma process_boxes_length boxes : forall i,
  (List.length (process_boxes contains zones target_classes names now_iso i boxes [])
   <= List.length boxes)%nat.
Proof.
  induction boxes as [|b boxes IH]; intros i; cbn [process_boxes List.length].
  - lia.
  - destruct (process_box contains zones target_classes names now_iso i b) as [d|].
    + rewrite process_boxes_acc, length_app. cbn [List.length app].
      specialize (IH (S i)). lia.
    + specialize (IH (S i)). lia.
Qed.

Lemma process_boxes_none boxes : forall i,
  (forall j b, process_box contains zones target_classes names now_iso j b = None) ->
  process_boxes contains zones target_classes names now_iso i boxes [] = [].
Proof.
  induction boxes as [|b boxes IH]; intros i H; cbn [process_boxes];
    [reflexivity|]. rewrite H. now apply IH.
Qed.

End ProcessResults.

Lemma locate_all_disabled contains (zones : ZoneManager.Zones) pt :
  (forall k z, In (k, z) zones -> ZoneManager.alert_enabled z = false) ->
  ZoneManager.check_point_in_zones contains zones pt = None.
Proof.
  intros H. apply ZoneFacts.locate_none. intros k z Hin Hen.
  rewrite (H k z Hin) in Hen. discriminate.
Qed.

(** X26: [process_results] reports at most one detection per box, in the
    order of the boxes: the detections of a list of boxes are those of
    its first part followed by those of the rest.  It reports nothing
    when the boxes are empty, when no class is a target class, or when
    every zone has its alerts switched off (in particular when there is
    no zone); and a zone stored under the empty id never yields a
    detection, since the id is tested for truth. *)
Theorem process_results_in_box_order :
  (forall contains zones target_classes names now_iso boxes1 boxes2,
      process_results contains zones target_classes names now_iso
        (boxes1 ++ boxes2)
      = process_results contains zones target_classes names now_iso boxes1
        ++ process_boxes contains zones target_classes names now_iso
             (List.length boxes1) boxes2 [])
  /\ (forall contains zones target_classes names now_iso boxes,
        (List.length
           (process_results contains zones target_classes names now_iso boxes)
         <= List.length boxes)%nat)
  /\ (forall contains zones names now_iso boxes,
        process_results contains zones [] names now_iso boxes = [])
  /\ (forall contains zones target_classes names now_iso boxes,
        (forall k z, In (k, z) zones -> ZoneManager.alert_enabled z = false) ->
        process_results contains zones target_classes names now_iso boxes = [])
  /\ (forall contains zones target_classes names now_iso i box,
        ZoneManager.check_point_in_zones contains zones (feet_point box)
        = Some EmptyString ->
        process_box contains zones target_classes names now_iso i box = None).
Proof.
  split; [|split; [|split; [|split]]].
  - intros contains zones tc names now_iso boxes1 boxes2. unfold process_results.
    rewrite process_boxes_app. cbn [Nat.add]. apply process_boxes_acc.
  - intros. apply process_boxes_length.
  - intros contains zones names now_iso boxes. apply process_boxes_none.
    reflexivity.
  - intros contains zones tc names now_iso boxes Hoff.
    apply process_boxes_none. intros j b. unfold process_box.
    rewrite (locate_all_disabled contains zones (feet_point b) Hoff).
    now destruct (existsb (Z.eqb (cls b)) tc).
  - intros contains zones tc names now_iso i box Hloc. unfold process_box.
    rewrite Hloc. now destruct (existsb (Z.eqb (cls box)) tc).
Qed.

End ResultsFacts.

(* ------------------------------------------------------------------ *)
(** ** The drawing tool *)

Module ZoneToolFacts.
Import Geometry ZoneManager ZoneTool.

Section WithLower.
Variable lower : string -> string.

Lemma finish_zone_ok t : tool_ok t -> tool_ok (finish_zone lower t).
Proof.
  intros (Hs & Hz & Hn). unfold finish_zone.
  destruct (current_zone t) as [cz|] eqn:E.
  - destruct (drawing t); cbn [andb].
    + destruct (Nat.leb_spec 3 (List.length (points t))) as [Hlen|Hlen];
        (split; [intros ? [=]|]); cbn [zones]; [|now split].
      split; [|now apply DictFacts.nodup_set].
      apply DictFacts.all_values_set; [|assumption].
      unfold drawable, to_config. cbn. now rewrite (Hs cz E).
    + split; [intros ? [=]|now split].
  - split; [intros ? [=]|now split].
Qed.

Lemma handle_ok i t t' :
  handle lower i t = Some t' -> tool_ok t -> tool_ok t'.
Proof.
  intros Hh Hok. destruct i as [x y a|x y| | |zid]; cbn [handle] in Hh.
  - injection Hh as <-. destruct (drawing t) eqn:Hd; cbn [negb].
    + destruct Hok as (Hs & Hz & Hn). unfold add_point.
      destruct (current_zone t) as [cz|] eqn:E; [|now repeat split].
      rewrite Hd. split; [|now split].
      intros cz' [= <-]. cbn. now rewrite (Hs cz E).
    + unfold start_new_zone. rewrite Hd.
      destruct (Dict.mem (zone_id_of lower (zone_name a)) (zones t)
                && negb (String.eqb (lower (override a)) "y")); [assumption|].
      destruct Hok as (Hs & Hz & Hn). split; [|now split].
      intros cz' [= <-]. reflexivity.
  - injection Hh as <-. destruct Hok as (Hs & Hz & Hn). now repeat split.
  - injection Hh as <-. now apply finish_zone_ok.
  - now injection Hh as <-.
  - destruct Hok as (Hs & Hz & Hn). unfold delete_zone in Hh.
    destruct (Dict.get zid (zones t)) as [z|]; [|now injection Hh as <-].
    destruct (cfg_name z); [|discriminate]. injection Hh as <-.
    split; [exact Hs|]. cbn [zones].
    split; [now apply DictFacts.all_values_del|now apply DictFacts.nodup_del].
Qed.

Lemma run_ok inputs : forall t t',
  run lower inputs t = Some t' -> tool_ok t -> tool_ok t'.
Proof.
  induction inputs as [|i inputs IH]; intros t t' Hr Hok; cbn [run] in Hr.
  - now injection Hr as <-.
  - destruct (handle lower i t) as [t1|] eqn:Hh; [|discriminate].
    apply (IH t1 t' Hr). now apply (handle_ok i t).
Qed.

(** With every stored zone named, no input raises, and the zones stay
    named. *)
Lemma handle_named i t :
  Dict.all_values named (zones t) ->
  exists t', handle lower i t = Some t' /\ Dict.all_values named (zones t').
Proof.
  intros Hn. destruct i as [x y a|x y| | |zid]; cbn [handle].
  - eexists; split; [reflexivity|].
    destruct (negb (drawing t)).
    + unfold start_new_zone, finish_zone.
      destruct (drawing t); [|destruct (_ && _); exact Hn].
      destruct (current_zone t) as [cz|].
      * destruct (true && _)%bool; cbn [zones];
          (destruct (_ && _); cbn [zones];
           try (apply DictFacts.all_values_set; [discriminate|]); exact Hn).
      * cbn [zones]. destruct (_ && _); exact Hn.
    + unfold add_point. destruct (current_zone t); [|exact Hn].
      destruct (drawing t); exact Hn.
  - eexists; split; [reflexivity|exact Hn].
  - eexists; split; [reflexivity|]. unfold finish_zone.
    destruct (current_zone t) as [cz|]; [|exact Hn].
    destruct (drawing t && _)%bool; cbn [zones]; [|exact Hn].
    apply DictFacts.all_values_set; [discriminate|exact Hn].
  - eexists; split; [reflexivity|exact Hn].
  - unfold delete_zone. destruct (Dict.get zid (zones t)) as [z|] eqn:Hg.
    + pose proof (DictFacts.all_values_get named zid z (zones t) Hn Hg) as Hz.
      unfold named in Hz. destruct (cfg_name z); [|contradiction].
      eexists; split; [reflexivity|]. cbn [zones].
      now apply DictFacts.all_values_del.
    + eexists; split; [reflexivity|exact Hn].
Qed.

Lemma run_named inputs : forall t,
  Dict.all_values named (zones t) ->
  exists t', run lower inputs t = Some t' /\ Dict.all_values named (zones t').
Proof.
  induction inputs as [|i inputs IH]; intros t Hn; cbn [run].
  - now exists t.
  - destruct (handle_named i t Hn) as (t1 & -> & Hn1). now apply IH.
Qed.

Lemma tool_run_app xs ys : forall t,
  run lower (xs ++ ys) t =
  match run lower xs t with Some t' => run lower ys t' | None => None end.
Proof.
  induction xs as [|i xs IH]; intros t; cbn [app run]; [reflexivity|].
  destruct (handle lower i t); [apply IH|reflexivity].
Qed.

Lemma all_loadable (cfg : list (string * ZoneConfig)) :
  Dict.all_values drawable cfg -> filter ZoneSpec.loadable cfg = cfg.
Proof.
  unfold Dict.all_values, drawable, ZoneSpec.loadable.
  induction cfg as [|[k z] cfg IH]; intros H; [reflexivity|].
  inversion H as [|? ? Hz Hrest]; subst. cbn [filter snd] in *.
  apply Nat.leb_le in Hz. rewrite Hz. now rewrite IH.
Qed.

Lemma add_points_run more : forall t cz,
  drawing t = true -> current_zone t = Some cz ->
  run lower (clicks more) t =
  Some (mkTool (zones t)
          (Some (mkToolZone (tz_name cz) (tz_points cz ++ more) (tz_color cz)
                            (tz_alert_enabled cz)))
          true (points t ++ more) (temp_point t) (saves t)).
Proof.
  unfold clicks.
  induction more as [|[x y] more IH]; intros t cz Hd Hc; cbn [map run].
  - rewrite !app_nil_r. destruct t, cz. cbn in *. now subst.
  - cbn [handle fst snd]. rewrite Hd. cbn [negb]. unfold add_point.
    rewrite Hc, Hd.
    erewrite IH; [|reflexivity|reflexivity]. cbn.
    now rewrite <- !app_assoc.
Qed.

End WithLower.

(** X27: the drawing tool never stores a zone of fewer than three points.
    Started on zones that all have at least three points (and distinct
    ids), whenever a run of clicks, mouse moves and deletions completes,
    every zone the tool holds still has at least three points and the ids
    are distinct; so when these zones are given to [ZoneManager] none is
    skipped: the manager's table holds every one of them, in the tool's
    order.  (While a zone is drawn, its own point list and the tool's
    point list stay equal.)  When every configured zone has a name, no
    callback raises, so every run of them completes, and the stored zones
    all have names.  Deleting a stored zone that has no name raises
    instead: the run ends there. *)
Theorem tool_zones_are_all_loaded :
  forall lower config_zones inputs,
    Dict.all_values drawable config_zones ->
    NoDup (Dict.keys config_zones) ->
    (forall t,
        run lower inputs (ZoneTool.init config_zones) = Some t ->
        Dict.all_values drawable (zones t)
        /\ NoDup (Dict.keys (zones t))
        /\ in_sync t
        /\ Dict.keys (ZoneManager.init (zones t)) = Dict.keys (zones t))
    /\ (Dict.all_values named config_zones ->
        exists t,
          run lower inputs (ZoneTool.init config_zones) = Some t
          /\ Dict.all_values named (zones t))
    /\ (forall zone_id zone,
          Dict.get zone_id config_zones = Some zone ->
          cfg_name zone = None ->
          run lower (DeleteKey zone_id :: inputs) (ZoneTool.init config_zones)
          = None).
Proof.
  intros lower config_zones inputs Hall Hnd. split; [|split].
  - intros t Hrun.
    assert (Hok : tool_ok t).
    { apply (run_ok lower inputs _ t Hrun). split; [intros ? [=]|now split]. }
    destruct Hok as (Hs & Hz & Hn).
    repeat split; try assumption.
    unfold ZoneManager.init.
    rewrite ZoneTableFacts.load_zones_appends; [|assumption|reflexivity].
    rewrite all_loadable by assumption.
    unfold Dict.keys. cbn [app]. rewrite map_map. reflexivity.
  - intros Hnamed. now apply run_named.
  - intros zone_id zone Hg Hname. cbn [run handle]. unfold delete_zone.
    cbn [ZoneTool.init zones]. now rewrite Hg, Hname.
Qed.

Lemma tool_zones_are_all_loaded_witness :
  Dict.all_values drawable door_config /\
  NoDup (Dict.keys door_config) /\
  run ascii_lower drawing_session (ZoneTool.init door_config) = Some session_end /\
  Dict.keys (ZoneManager.init (zones session_end)) = ["front_door"%string].
Proof.
  assert (Hall : Dict.all_values drawable door_config).
  { repeat constructor. }
  assert (Hnd : NoDup (Dict.keys door_config)).
  { repeat constructor. simpl. tauto. }
  split; [exact Hall|]. split; [exact Hnd|]. split; [reflexivity|].
  exact (proj2 (proj2 (proj2
    (proj1 (tool_zones_are_all_loaded ascii_lower door_config drawing_session
              Hall Hnd)
       session_end eq_refl)))).
Defined.

(** X28: what is clicked is what is stored.  With no zone being drawn, a
    left click that starts a zone (under a new id, or an existing id with
    the answer [y]), further left clicks and a right click store the zone
    under the lower-cased name with blanks replaced by underscores: it
    holds the name as typed, the clicked points in click order, the
    chosen colour and alerts on, and the zones are saved once.  With
    fewer than three points in all, the right click discards the zone:
    nothing is stored and nothing is saved.  When overriding an existing
    id is declined, the first click changes nothing. *)
Theorem clicked_zone_is_stored :
  forall lower a x y more t,
    drawing t = false ->
    let zone_id := zone_id_of lower (zone_name a) in
    (Dict.mem zone_id (zones t) = false \/ lower (override a) = "y"%string ->
     ((2 <= List.length more)%nat ->
      run lower (LButtonDown x y a :: clicks more ++ [RButtonDown]) t
      = Some (mkTool (Dict.set zone_id
                        (to_config (mkToolZone (zone_name a) ((x, y) :: more)
                                      (color_of lower a) true))
                        (zones t))
                     None false [] None (S (saves t))))
     /\ ((List.length more < 2)%nat ->
         run lower (LButtonDown x y a :: clicks more ++ [RButtonDown]) t
         = Some (mkTool (zones t) None false [] None (saves t))))
    /\ (Dict.mem zone_id (zones t) = true ->
        lower (override a) <> "y"%string ->
        handle lower (LButtonDown x y a) t = Some t).
Proof.
  intros lower a x y more t Hd. cbv zeta. split.
  - intros Hfresh.
    assert (Hstart : handle lower (LButtonDown x y a) t
                     = Some (mkTool (zones t)
                               (Some (mkToolZone (zone_name a) [(x, y)]
                                        (color_of lower a) true))
                               true [(x, y)] (temp_point t) (saves t))).
    { cbn [handle]. rewrite Hd. cbn [negb]. unfold start_new_zone. rewrite Hd.
      destruct Hfresh as [Hm|Hy].
      - rewrite Hm. reflexivity.
      - rewrite Hy. cbn. rewrite andb_false_r. reflexivity. }
    assert (Hrun : run lower (LButtonDown x y a :: clicks more ++ [RButtonDown]) t
                   = Some (finish_zone lower
                             (mkTool (zones t)
                                (Some (mkToolZone (zone_name a) ((x, y) :: more)
                                         (color_of lower a) true))
                                true ((x, y) :: more) (temp_point t) (saves t)))).
    { cbn [run]. rewrite Hstart, tool_run_app.
      erewrite add_points_run; [|reflexivity|reflexivity]. reflexivity. }
    rewrite Hrun. unfold finish_zone. cbn [current_zone drawing points andb].
    split; intros Hlen.
    + match goal with |- context [(3 <=? ?n)%nat] =>
        assert (H3 : (3 <=? n)%nat = true)
          by (apply Nat.leb_le; unfold Point in *; simpl; lia);
        rewrite H3 end.
      reflexivity.
    + match goal with |- context [(3 <=? ?n)%nat] =>
        assert (H3 : (3 <=? n)%nat = false)
          by (apply Nat.leb_gt; unfold Point in *; simpl; lia);
        rewrite H3 end.
      reflexivity.
  - intros Hm Hy. cbn [handle]. rewrite Hd. cbn [negb].
    unfold start_new_zone. rewrite Hd, Hm.
    apply String.eqb_neq in Hy. rewrite Hy. reflexivity.
Qed.

Lemma clicked_zone_is_stored_witness :
  drawing (ZoneTool.init door_config) = false /\
  run ascii_lower
    (LButtonDown 1 1 front_door :: clicks [(1, 9); (9, 9)]%Z ++ [RButtonDown])
    (ZoneTool.init door_config)
  = Some (mkTool (Dict.set "front_door"
                    (to_config (mkToolZone "Front Door" [(1, 1); (1, 9); (9, 9)]%Z
                                  (0, 255, 0)%Z true))
                    door_config)
                 None false [] None 1).
Proof.
  split; [reflexivity|].
  refine (proj1 (proj1 (clicked_zone_is_stored ascii_lower front_door 1 1
                          [(1, 9); (9, 9)]%Z (ZoneTool.init door_config) eq_refl)
                   _) _).
  - left. reflexivity.
  - simpl. lia.
Defined.

End ZoneToolFacts.

(* ------------------------------------------------------------------ *)
(** ** Testing the channels *)

Module ChannelFacts.
Import Data AlertManager AlertChannels.

(** X29: [test_alerts] reports a channel as working exactly when the
    channel is enabled, the test image can be read and the transport goes
    through, and for Telegram only if both the bot token and the chat id
    are configured and non-empty.  A disabled channel, or Telegram without
    its credentials, causes no traffic at all.  The result does not
    depend on the global [enabled] flag, on the cooldown or on the time of
    the last alert. *)
Theorem test_alerts_reports_working_channels :
  forall m tg net,
    (fst (fst (test_alerts m tg net)) =
     email_enabled m && image_readable net && smtp_ok net)
    /\ (snd (fst (test_alerts m tg net)) =
        telegram_enabled m && negb (missing (bot_token tg))
        && negb (missing (chat_id tg)) && image_readable net && http_ok net)
    /\ (email_enabled m = false ->
        filter is_smtp_session (snd (test_alerts m tg net)) = [])
    /\ (telegram_enabled m && negb (missing (bot_token tg))
        && negb (missing (chat_id tg)) = false ->
        filter is_http_post (snd (test_alerts m tg net)) = [])
    /\ (forall flag cooldown last,
        test_alerts
          (mkManager flag cooldown last (email_enabled m) (telegram_enabled m)
                     (alerts_dir m)) tg net
        = test_alerts m tg net).
Proof.
  intros [en cd last em tgm dir] [[token|] [chat|]] [readable smtp http];
    unfold test_alerts, send_email_alert, send_telegram_alert;
    cbn [email_enabled telegram_enabled alerts_dir bot_token chat_id
         image_readable smtp_ok http_ok missing];
    destruct em, tgm, readable; cbn;
    try (destruct (String.eqb token EmptyString));
    try (destruct (String.eqb chat EmptyString));
    cbn; repeat split; try reflexivity; try discriminate;
    try (now destruct smtp); try (now destruct http);
    try (now destruct smtp, http).
Qed.

End ChannelFacts.
